(** * A shallow embedding of [src/solver.py] (class [Solver])

    The solver is a resumable training loop for a generator trained against
    zero or more discriminators.  This development embeds the parts of it
    that the specification talks about:

    - the loss composer ([_get_losses] and the [_get_*_adversarial_loss]
      family), generic in the tensor back end so that the same definitions
      are read symbolically (which forward passes feed which loss term) and
      numerically (what the feature-matching weights are);
    - the adversarial optimisation step ([_optimize_adversarial]);
    - checkpoint persistence and resumption ([_serialize], [_load],
      [_reset]) over a file system in which a write can fail part-way;
    - the epoch loop ([train], [_run_one_epoch],
      [_get_valid_losses_on_test_data]).

    Conventions.  Python dictionaries are insertion-ordered association
    lists ([pydict]).  Python exceptions are the [Raise] branch of [result].
    Python floats are idealised as rationals ([Q]): comparison of finite
    floats is exact, and rounding or NaN play no role in the properties
    below.  Collaborators that live outside [solver.py] (the networks, the
    optimisers, the data loaders, the evaluation helpers) are fields of
    interface records. *)

From Stdlib Require Import String Ascii List ZArith QArith Qminmax Qabs Bool Lia.
From stdpp Require Import gmap strings.
Import ListNotations.
#[local] Open Scope string_scope.
#[local] Open Scope list_scope.

(* ===================================================================== *)
(** * Python values, exceptions and dictionaries *)
(* ===================================================================== *)

Inductive exn : Type :=
| KeyError (key : string)
| IndexError
| AttributeError (attr : string)
| ZeroDivisionError
| UnboundLocalError (var : string)
| ValueError
| TypeError
| OSError.

Inductive result (A : Type) : Type :=
| Ok (a : A)
| Raise (e : exn).
Arguments Ok {A} a.
Arguments Raise {A} e.

Definition rbind {A B} (r : result A) (k : A -> result B) : result B :=
  match r with
  | Ok a => k a
  | Raise e => Raise e
  end.

Declare Scope py_scope.
Delimit Scope py_scope with py.
Notation "'let?' x ':=' r 'in' k" := (rbind r (fun x => k))
  (at level 10, x pattern, r at level 100, k at level 200) : py_scope.
#[local] Open Scope py_scope.

Definition is_ok {A} (r : result A) : bool :=
  match r with Ok _ => true | Raise _ => false end.

(** Truthiness of the Python values that [solver.py] branches on. *)
Definition truthy_float (x : Q) : bool := negb (Qeq_bool x 0).
Definition truthy_opt_float (x : option Q) : bool :=
  match x with Some q => truthy_float q | None => false end.
Definition truthy_str (s : string) : bool :=
  match s with EmptyString => false | String _ _ => true end.
Definition truthy_list {A} (l : list A) : bool :=
  match l with [] => false | _ :: _ => true end.

(** [a % b] on non-negative integers. *)
Definition py_mod (a b : nat) : result nat :=
  match b with
  | O => Raise ZeroDivisionError
  | S _ => Ok (Nat.modulo a b)
  end.

(** [min(l)]: the first least element; [ValueError] on the empty list. *)
Definition Qltb (x y : Q) : bool := negb (Qle_bool y x).

Fixpoint py_min_from (cur : Q) (l : list Q) : Q :=
  match l with
  | [] => cur
  | x :: r => py_min_from (if Qltb x cur then x else cur) r
  end.

Definition py_min (l : list Q) : result Q :=
  match l with
  | [] => Raise ValueError
  | x :: r => Ok (py_min_from x r)
  end.

(** Insertion-ordered dictionaries with string keys. *)
Definition pydict (V : Type) : Type := list (string * V).

Fixpoint dict_get {V} (k : string) (d : pydict V) : option V :=
  match d with
  | [] => None
  | (k', v) :: r => if String.eqb k k' then Some v else dict_get k r
  end.

(** [d[k] = v]: an existing key keeps its position, a new key goes last. *)
Fixpoint dict_set {V} (k : string) (v : V) (d : pydict V) : pydict V :=
  match d with
  | [] => [(k, v)]
  | (k', v') :: r =>
      if String.eqb k k' then (k, v) :: r else (k', v') :: dict_set k v r
  end.

(** [d.update(e)], also [{**d, **e}]. *)
Definition dict_update {V} (d e : pydict V) : pydict V :=
  fold_left (fun acc kv => dict_set (fst kv) (snd kv) acc) e d.

(** [{f(k): v for k, v in d.items()}]. *)
Definition dict_rekey {V} (f : string -> string) (d : pydict V) : pydict V :=
  fold_left (fun acc kv => dict_set (f (fst kv)) (snd kv) acc) d [].

Definition dict_mem {V} (k : string) (d : pydict V) : bool :=
  match dict_get k d with Some _ => true | None => false end.

Definition dict_getitem {V} (k : string) (d : pydict V) : result V :=
  match dict_get k d with
  | Some v => Ok v
  | None => Raise (KeyError k)
  end.

Definition dict_keys {V} (d : pydict V) : list string := map fst d.
Definition dict_values {V} (d : pydict V) : list V := map snd d.

(** [name in names] for a list of strings. *)
Definition str_in (name : string) (names : list string) : bool :=
  existsb (String.eqb name) names.

(* ===================================================================== *)
(** * Module constants *)
(* ===================================================================== *)

Definition SERIALIZE_KEY_MODELS := "models".
Definition SERIALIZE_KEY_OPTIMIZERS := "optimizers".
Definition SERIALIZE_KEY_HISTORY := "history".
Definition SERIALIZE_KEY_STATE := "state".
Definition SERIALIZE_KEY_BEST_STATES := "best_states".
Definition SERIALIZE_KEY_ARGS := "args".

Definition GENERATOR_KEY := "generator".
Definition GENERATOR_OPTIMIZER_KEY := "generator_optimizer".

Definition METRICS_KEY_EVALUATION_LOSS := "evaluation_loss".
Definition METRICS_KEY_BEST_LOSS := "best_loss".

Definition METRICS_KEY_LSD := "Average lsd".
Definition METRICS_KEY_VISQOL := "Average visqol".

(* ===================================================================== *)
(** * Configuration ([args] and [args.experiment]) *)
(* ===================================================================== *)

(** An optional boolean key read as [k in cfg and cfg.k] is [false] when
    absent.  Integers of the configuration are [Z]. *)
Module Args.

Record experiment_t : Type := {
  adversarial : bool;
  multiple_discriminators : bool;
  joint_disc_optimizers : bool;
  discriminator_models : list string;
  discriminator_model : option string;
  only_features_loss : bool;
  only_adversarial_loss : bool;
  features_loss_lambda : Q;
  mel_spec_loss_lambda : Q;
  mel_spec_transform : bool;
  return_spec : bool;
  melgan_n_layers : Z;   (* melgan_discriminator.n_layers *)
  melgan_num_D : Z       (* melgan_discriminator.num_D *)
}.

Record args_t : Type := {
  experiment : experiment_t;
  losses : list string;
  epochs : nat;
  continue_from : string;
  continue_best : bool;
  keep_history : bool;
  restart : bool;
  eval_every : nat;
  cross_valid : bool;
  cross_valid_every : nat;
  checkpoint : bool;
  checkpoint_file : string;
  best_file_parent : string;   (* Path(args.best_file).parent *)
  best_file_name : string;     (* Path(args.best_file).name *)
  history_file : string;
  samples_dir : string;
  valid_equals_test : bool;
  evaluate_on_best : bool;
  joint_evaluate_and_enhance : bool;
  log_results : bool
}.

End Args.
Import Args.

(** Attributes that [Solver.__init__] derives from the configuration. *)
Definition adversarial_mode (a : args_t) : bool := adversarial (experiment a).
Definition multiple_discriminators_mode (a : args_t) : bool :=
  multiple_discriminators (experiment a).
Definition joint_disc_optimizers_mode (a : args_t) : bool :=
  joint_disc_optimizers (experiment a).

Definition opt_str_eqb (o : option string) (s : string) : bool :=
  match o with Some x => String.eqb x s | None => false end.

(** [self.melspec_transform] is only assigned on three conditions
    (lines 102-116). *)
Definition has_melspec_transform (a : args_t) : bool :=
  str_in "mbd" (losses a)
  || mel_spec_transform (experiment a)
  || opt_str_eqb (discriminator_model (experiment a)) "hifi"
  || opt_str_eqb (discriminator_model (experiment a)) "mbd".

(* ===================================================================== *)
(** * Tensor back end and collaborators *)
(* ===================================================================== *)

(** What the solver needs from [torch]: tensors, zero-dimensional loss
    values and the handful of operations applied to them. *)
Class Torch : Type := {
  tensor : Type;
  scalar : Type;
  detach : tensor -> tensor;
  contiguous : tensor -> tensor;
  squeeze1 : tensor -> tensor;             (* t.squeeze(dim=1), t.squeeze(1) *)
  view_as_real : tensor -> tensor;
  permute_0312 : tensor -> tensor;         (* t.permute(0, 3, 1, 2) *)
  l1_loss : tensor -> tensor -> scalar;    (* F.l1_loss(input, target) *)
  mse_loss : tensor -> tensor -> scalar;   (* F.mse_loss(input, target) *)
  relu_one_plus_mean : tensor -> scalar;   (* F.relu(1 + t).mean() *)
  relu_one_minus_mean : tensor -> scalar;  (* F.relu(1 - t).mean() *)
  s_of_float : Q -> scalar;                (* a Python number promoted *)
  s_add : scalar -> scalar -> scalar;
  s_mul_float : Q -> scalar -> scalar;     (* float * tensor *)
  s_div_int : scalar -> Z -> scalar        (* tensor / int *)
}.

(** A Python number or a loss tensor: accumulators start as the integer
    [0] and become tensors on the first [+=]. *)
Inductive pynum (S : Type) : Type :=
| PyInt (z : Z)
| PyFloat (q : Q)
| PyTensor (s : S).
Arguments PyInt {S} z.
Arguments PyFloat {S} q.
Arguments PyTensor {S} s.

(** The output of a two-argument discriminator [d(hr, pr)]:
    [(y_d_rs, y_d_gs, fmap_rs, fmap_gs)]. *)
Record pair_out (L F : Type) : Type := {
  y_hat_r : L;
  y_hat_g : L;
  fmap_r : F;
  fmap_g : F
}.
Arguments y_hat_r {L F} p.
Arguments y_hat_g {L F} p.
Arguments fmap_r {L F} p.
Arguments fmap_g {L F} p.

(** The collaborators of the loss composer: the wrapped discriminators
    ([self.dmodels]), the loss helpers imported from
    [src.models.discriminators], the mel transform and the multi-resolution
    STFT loss. *)
Class Collaborators (T : Torch) : Type := {
  logits : Type;
  fmaps : Type;
  dmodel_names : list string;              (* keys of self.dmodels *)
  multi_scale_forward : string -> tensor -> list (list tensor);
  single_scale_forward : string -> tensor -> list tensor;
  pair_forward : string -> tensor -> tensor -> pair_out logits fmaps;
  discriminator_loss : logits -> logits -> scalar;
  feature_loss : fmaps -> fmaps -> scalar;
  generator_loss : logits -> scalar;
  melspec : tensor -> tensor;
  mrstftloss : tensor -> tensor -> scalar * scalar
}.

Section LossComposer.
Context {T : Torch} {C : Collaborators T}.
Variable args : args_t.

#[local] Abbreviation exp := (experiment args).

(** ** Arithmetic on loss values *)

Definition to_scalar (a : pynum scalar) : scalar :=
  match a with
  | PyInt z => s_of_float (inject_Z z)
  | PyFloat q => s_of_float q
  | PyTensor s => s
  end.

Definition py_add (a b : pynum scalar) : pynum scalar :=
  match a, b with
  | PyInt x, PyInt y => PyInt (x + y)
  | PyInt x, PyFloat y => PyFloat (inject_Z x + y)
  | PyFloat x, PyInt y => PyFloat (x + inject_Z y)
  | PyFloat x, PyFloat y => PyFloat (x + y)
  | _, _ => PyTensor (s_add (to_scalar a) (to_scalar b))
  end.

(** [q * a] for a float [q]. *)
Definition py_mul_float (q : Q) (a : pynum scalar) : pynum scalar :=
  match a with
  | PyInt z => PyFloat (q * inject_Z z)
  | PyFloat x => PyFloat (q * x)
  | PyTensor s => PyTensor (s_mul_float q s)
  end.

(** [a / n] for an integer [n]: Python numbers raise on [n = 0]. *)
Definition py_div_int (a : pynum scalar) (n : Z) : result (pynum scalar) :=
  match a with
  | PyInt z =>
      if Z.eqb n 0 then Raise ZeroDivisionError
      else Ok (PyFloat (inject_Z z / inject_Z n))
  | PyFloat x =>
      if Z.eqb n 0 then Raise ZeroDivisionError
      else Ok (PyFloat (x / inject_Z n))
  | PyTensor s => Ok (PyTensor (s_div_int s n))
  end.

(** [x / y] for a float [x] and an integer [y]. *)
Definition float_div_int (x : Q) (y : Z) : result Q :=
  if Z.eqb y 0 then Raise ZeroDivisionError else Ok (x / inject_Z y)%Q.

(** ** Sequences *)

(** [l[i]] for [i >= 0]. *)
Definition getitem {A} (l : list A) (i : nat) : result A :=
  match nth_error l i with
  | Some x => Ok x
  | None => Raise IndexError
  end.

(** [l[-1]]. *)
Definition last_item {A} (l : list A) : result A :=
  match rev l with
  | x :: _ => Ok x
  | [] => Raise IndexError
  end.

(** [range(n)] for an integer [n]: empty when [n <= 0]. *)
Definition py_range (n : Z) : list nat := seq 0 (Z.to_nat n).

(** [for x in xs: body], threading the loop-carried variables. *)
Fixpoint for_in {A S} (xs : list A) (body : A -> S -> result S) (s : S)
  : result S :=
  match xs with
  | [] => Ok s
  | x :: r => let? s' := body x s in for_in r body s'
  end.

(** [self.dmodels[name]]. *)
Definition get_dmodel (name : string) : result unit :=
  if str_in name dmodel_names then Ok tt else Raise (KeyError name).

(** [self.melspec_transform]. *)
Definition get_melspec_transform : result (tensor -> tensor) :=
  if has_melspec_transform args then Ok melspec
  else Raise (AttributeError "melspec_transform").

(** ** [_get_stft_loss] *)
Definition _get_stft_loss (pr hr : tensor) : scalar :=
  let '(sc_loss, mag_loss) := mrstftloss (squeeze1 pr) (squeeze1 hr) in
  let stft_loss := s_add sc_loss mag_loss in
  stft_loss.

(** ** The melgan (multi-scale hinge) variant *)

Definition _get_melgan_discriminator_loss
    (discriminator_fake discriminator_real : list (list tensor))
  : result (pynum scalar) :=
  let discriminator_loss := PyInt 0 in
  let? discriminator_loss :=
    for_in discriminator_fake (fun scale discriminator_loss =>
      let? top := last_item scale in
      Ok (py_add discriminator_loss (PyTensor (relu_one_plus_mean top))))
      discriminator_loss in
  let? discriminator_loss :=
    for_in discriminator_real (fun scale discriminator_loss =>
      let? top := last_item scale in
      Ok (py_add discriminator_loss (PyTensor (relu_one_minus_mean top))))
      discriminator_loss in
  Ok discriminator_loss.

(** Lines 645-652 of [_get_melgan_generator_loss]: the value of
    [features_loss] after the double loop. *)
Definition melgan_features_loss
    (discriminator_fake discriminator_real : list (list tensor))
  : result (pynum scalar) :=
  let features_loss := PyInt 0 in
  let? features_weights := float_div_int 4 (melgan_n_layers exp + 1) in
  let? discriminator_weights := float_div_int 1 (melgan_num_D exp) in
  let weights := (discriminator_weights * features_weights)%Q in
  for_in (py_range (melgan_num_D exp)) (fun i features_loss =>
    let? fake_i := getitem discriminator_fake i in
    for_in (py_range (Z.of_nat (length fake_i) - 1)) (fun j features_loss =>
      let? fake_i := getitem discriminator_fake i in
      let? fake_ij := getitem fake_i j in
      let? real_i := getitem discriminator_real i in
      let? real_ij := getitem real_i j in
      Ok (py_add features_loss
            (PyTensor (s_mul_float weights
                         (l1_loss fake_ij (detach real_ij))))))
      features_loss)
    features_loss.

Definition _get_melgan_generator_loss
    (discriminator_fake discriminator_real : list (list tensor))
  : result (pydict (pynum scalar)) :=
  let? features_loss :=
    melgan_features_loss discriminator_fake discriminator_real in
  let adversarial_loss := PyInt 0 in
  let? adversarial_loss :=
    for_in discriminator_fake (fun scale adversarial_loss =>
      let? top := last_item scale in
      Ok (py_add adversarial_loss (PyTensor (relu_one_minus_mean top))))
      adversarial_loss in
  if only_adversarial_loss exp then
    Ok [("adversarial", adversarial_loss)]
  else if only_features_loss exp then
    Ok [("features", py_mul_float (features_loss_lambda exp) features_loss)]
  else
    Ok [("adversarial", adversarial_loss);
        ("features", py_mul_float (features_loss_lambda exp) features_loss)].

Definition _get_melgan_adversarial_loss (pr hr : tensor)
  : result (pydict (pynum scalar) * pynum scalar) :=
  let? _ := get_dmodel "melgan" in
  let discriminator := multi_scale_forward "melgan" in
  let discriminator_fake_detached := discriminator (detach pr) in
  let discriminator_real := discriminator hr in
  let discriminator_fake := discriminator pr in
  let? total_loss_discriminator :=
    _get_melgan_discriminator_loss discriminator_fake_detached
      discriminator_real in
  let? generator_losses :=
    _get_melgan_generator_loss discriminator_fake discriminator_real in
  Ok (generator_losses, total_loss_discriminator).

(** ** The vocoder-style variants: hifi, msd, mpd, spec, mbd *)

Definition _get_hifi_adversarial_loss (pr hr : tensor)
  : result (pynum scalar * pynum scalar) :=
  let? _ := get_dmodel "mpd" in
  let mpd := pair_forward "mpd" in
  let? _ := get_dmodel "msd" in
  let msd := pair_forward "msd" in
  (* MPD *)
  let o := mpd hr (detach pr) in
  let loss_disc_f := discriminator_loss (y_hat_r o) (y_hat_g o) in
  (* MSD *)
  let o := msd hr (detach pr) in
  let loss_disc_s := discriminator_loss (y_hat_r o) (y_hat_g o) in
  let total_loss_discriminator := s_add loss_disc_s loss_disc_f in
  (* L1 Mel-Spectrogram Loss *)
  let? melspec_transform := get_melspec_transform in
  let pr_mel := melspec_transform pr in
  let hr_mel := melspec_transform hr in
  let loss_mel :=
    s_mul_float (mel_spec_loss_lambda exp) (l1_loss hr_mel pr_mel) in
  let o_f := mpd hr pr in
  let o_s := msd hr pr in
  let loss_fm_f := feature_loss (fmap_r o_f) (fmap_g o_f) in
  let loss_fm_s := feature_loss (fmap_r o_s) (fmap_g o_s) in
  let loss_gen_f := generator_loss (y_hat_g o_f) in
  let loss_gen_s := generator_loss (y_hat_g o_s) in
  let total_loss_generator :=
    if only_features_loss exp then
      s_add loss_fm_s loss_fm_f
    else
      s_add (s_add (s_add (s_add loss_gen_s loss_gen_f) loss_fm_s) loss_fm_f)
        loss_mel in
  Ok (PyTensor total_loss_generator, PyTensor total_loss_discriminator).

(** The shared tail of [_get_msd_adversarial_loss],
    [_get_mpd_adversarial_loss] and [_get_spec_adversarial_loss]. *)
Definition split_generator_losses (g_adv_loss g_feat_loss : scalar)
  : pydict (pynum scalar) :=
  if only_adversarial_loss exp then
    [("adversarial", PyTensor g_adv_loss)]
  else if only_features_loss exp then
    [("features",
      py_mul_float (features_loss_lambda exp) (PyTensor g_feat_loss))]
  else
    [("adversarial", PyTensor g_adv_loss);
     ("features",
      py_mul_float (features_loss_lambda exp) (PyTensor g_feat_loss))].

Definition _get_msd_adversarial_loss (pr hr : tensor)
  : result (pydict (pynum scalar) * pynum scalar) :=
  let? _ := get_dmodel "msd" in
  let msd := pair_forward "msd" in
  (* discriminator loss *)
  let o := msd hr (detach pr) in
  let d_loss := discriminator_loss (y_hat_r o) (y_hat_g o) in
  (* generator loss *)
  let o := msd hr pr in
  let g_feat_loss := feature_loss (fmap_r o) (fmap_g o) in
  let g_adv_loss := generator_loss (y_hat_g o) in
  Ok (split_generator_losses g_adv_loss g_feat_loss, PyTensor d_loss).

Definition _get_mpd_adversarial_loss (pr hr : tensor)
  : result (pydict (pynum scalar) * pynum scalar) :=
  let? _ := get_dmodel "mpd" in
  let mpd := pair_forward "mpd" in
  (* discriminator loss *)
  let o := mpd hr (detach pr) in
  let d_loss := discriminator_loss (y_hat_r o) (y_hat_g o) in
  (* generator loss *)
  let o := mpd hr pr in
  let g_feat_loss := feature_loss (fmap_r o) (fmap_g o) in
  let g_adv_loss := generator_loss (y_hat_g o) in
  Ok (split_generator_losses g_adv_loss g_feat_loss, PyTensor d_loss).

Definition _get_spec_adversarial_loss (pr_spec hr_spec : tensor)
  : result (pydict (pynum scalar) * pynum scalar) :=
  let? _ := get_dmodel "spec" in
  let spec_disc := pair_forward "spec" in
  (* discriminator loss *)
  let o := spec_disc hr_spec (detach pr_spec) in
  let d_loss := discriminator_loss (y_hat_r o) (y_hat_g o) in
  (* generator loss *)
  let o := spec_disc hr_spec pr_spec in
  let g_feat_loss := feature_loss (fmap_r o) (fmap_g o) in
  let g_adv_loss := generator_loss (y_hat_g o) in
  Ok (split_generator_losses g_adv_loss g_feat_loss, PyTensor d_loss).

Definition _get_mbd_adversarial_loss (pr hr : tensor)
  : result (pynum scalar * pynum scalar) :=
  let? _ := get_dmodel "mbd" in
  let mbd := pair_forward "mbd" in
  (* MBD *)
  let o := mbd hr (detach pr) in
  let loss_discriminator := discriminator_loss (y_hat_r o) (y_hat_g o) in
  (* L1 Mel-Spectrogram Loss *)
  let? melspec_transform := get_melspec_transform in
  let pr_mel := melspec_transform pr in
  let hr_mel := melspec_transform hr in
  let loss_mel :=
    s_mul_float (mel_spec_loss_lambda exp) (l1_loss hr_mel pr_mel) in
  let o := mbd hr pr in
  let loss_fm_s := feature_loss (fmap_r o) (fmap_g o) in
  let loss_gen_s := generator_loss (y_hat_g o) in
  let total_loss_generator := s_add (s_add loss_gen_s loss_fm_s) loss_mel in
  Ok (PyTensor total_loss_generator, PyTensor loss_discriminator).

(** ** The stft (single-scale hinge) variant *)

Definition _get_stft_discriminator_loss
    (discriminator_fake discriminator_real : list tensor)
  : result (pynum scalar) :=
  let? fake_top := last_item discriminator_fake in
  let? real_top := last_item discriminator_real in
  let discriminator_loss :=
    s_add (relu_one_plus_mean fake_top) (relu_one_minus_mean real_top) in
  Ok (PyTensor discriminator_loss).

Definition stft_feature_loss
    (discriminator_real discriminator_fake : list tensor)
  : result (pynum scalar) :=
  let feature_loss := PyInt 0 in
  let n_internal_layers := (Z.of_nat (length discriminator_fake) - 1)%Z in
  let? feature_loss :=
    for_in (py_range n_internal_layers) (fun i feature_loss =>
      let? fake_i := getitem discriminator_fake i in
      let? real_i := getitem discriminator_real i in
      Ok (py_add feature_loss (PyTensor (l1_loss fake_i (detach real_i)))))
      feature_loss in
  py_div_int feature_loss n_internal_layers.

Definition _get_stft_generator_loss
    (discriminator_fake discriminator_real : list tensor)
  : result (pynum scalar) :=
  let generator_loss := PyInt 0 in
  let? fake_top := last_item discriminator_fake in
  let generator_loss :=
    py_add generator_loss (PyTensor (relu_one_minus_mean fake_top)) in
  let? fl := stft_feature_loss discriminator_real discriminator_fake in
  let generator_loss :=
    py_add generator_loss (py_mul_float (features_loss_lambda exp) fl) in
  Ok generator_loss.

Definition _get_stft_adversarial_loss (pr_spec hr_spec : tensor)
  : result (pynum scalar * pynum scalar) :=
  let? _ := get_dmodel "stft_disc" in
  let discriminator := single_scale_forward "stft_disc" in
  let discriminator_fake_detached :=
    discriminator (contiguous (detach pr_spec)) in
  let discriminator_real := discriminator hr_spec in
  let discriminator_fake := discriminator pr_spec in
  let? discriminator_loss :=
    _get_stft_discriminator_loss discriminator_fake_detached
      discriminator_real in
  let? generator_loss :=
    _get_stft_generator_loss discriminator_fake discriminator_real in
  Ok (generator_loss, discriminator_loss).

(** ** [_get_losses] *)

Record losses_t : Type := {
  generator : pydict (pynum scalar);
  discriminator : pydict (pynum scalar)
}.

(** [losses['generator'].update({k: v})] and
    [losses['discriminator'].update({k: v})]. *)
Definition gen_update (L : losses_t) (k : string) (v : pynum scalar)
  : losses_t :=
  {| generator := dict_set k v (generator L);
     discriminator := discriminator L |}.

Definition disc_update (L : losses_t) (k : string) (v : pynum scalar)
  : losses_t :=
  {| generator := generator L;
     discriminator := dict_set k v (discriminator L) |}.

(** The three updates that follow a melgan, msd, mpd or spec loss
    computation (the same statements for each variant, with the
    variant's name in the keys). *)
Definition add_split_losses (name : string)
    (generator_losses : pydict (pynum scalar))
    (discriminator_loss : pynum scalar) (L : losses_t) : result losses_t :=
  let? L :=
    if negb (only_features_loss exp) then
      let? v := dict_getitem "adversarial" generator_losses in
      Ok (gen_update L ("adversarial_" +:+ name) v)
    else Ok L in
  let? L :=
    if negb (only_adversarial_loss exp) then
      let? v := dict_getitem "features" generator_losses in
      Ok (gen_update L ("features_" +:+ name) v)
    else Ok L in
  Ok (disc_update L name discriminator_loss).

(** The two updates that follow a hifi, mbd or stft loss computation. *)
Definition add_joint_losses (name : string)
    (generator_loss discriminator_loss : pynum scalar) (L : losses_t)
  : losses_t :=
  disc_update (gen_update L ("adversarial_" +:+ name) generator_loss)
    name discriminator_loss.

(** The body run for each discriminator variant; the multiple- and the
    single-discriminator branches of [_get_losses] run the same bodies
    and differ in the tests that select them. *)
Section Variants.
Variables (hr pr : pydict tensor) (hr_time pr_time : tensor).

Definition melgan_losses (L : losses_t) : result losses_t :=
  let? (generator_losses, discriminator_loss) :=
    _get_melgan_adversarial_loss pr_time hr_time in
  add_split_losses "melgan" generator_losses discriminator_loss L.

Definition msd_losses (L : losses_t) : result losses_t :=
  let? (generator_losses, discriminator_loss) :=
    _get_msd_adversarial_loss pr_time hr_time in
  add_split_losses "msd" generator_losses discriminator_loss L.

Definition mpd_losses (L : losses_t) : result losses_t :=
  let? (generator_losses, discriminator_loss) :=
    _get_mpd_adversarial_loss pr_time hr_time in
  add_split_losses "mpd" generator_losses discriminator_loss L.

Definition hifi_losses (L : losses_t) : result losses_t :=
  let? (generator_loss, discriminator_loss) :=
    _get_hifi_adversarial_loss pr_time hr_time in
  Ok (add_joint_losses "hifi" generator_loss discriminator_loss L).

Definition mbd_losses (L : losses_t) : result losses_t :=
  let? (generator_loss, discriminator_loss) :=
    _get_mbd_adversarial_loss pr_time hr_time in
  Ok (add_joint_losses "mbd" generator_loss discriminator_loss L).

Definition spec_losses (L : losses_t) : result losses_t :=
  let? (hr_spec, pr_spec) :=
    if mel_spec_transform exp then
      let? melspec_transform := get_melspec_transform in
      Ok (squeeze1 (melspec_transform hr_time),
          squeeze1 (melspec_transform pr_time))
    else
      let? hs := dict_getitem "spec" hr in
      let? ps := dict_getitem "spec" pr in
      Ok (squeeze1 hs, squeeze1 ps) in
  let? (generator_losses, discriminator_loss) :=
    _get_spec_adversarial_loss pr_spec hr_spec in
  add_split_losses "spec" generator_losses discriminator_loss L.

Definition stft_losses (L : losses_t) : result losses_t :=
  let? hs := dict_getitem "spec" hr in
  let hr_spec := permute_0312 (view_as_real (squeeze1 hs)) in
  let? ps := dict_getitem "spec" pr in
  let pr_spec := permute_0312 (view_as_real (squeeze1 ps)) in
  let? (generator_loss, discriminator_loss) :=
    _get_stft_adversarial_loss pr_spec hr_spec in
  Ok (add_joint_losses "stft" generator_loss discriminator_loss L).
End Variants.

(** [if cond: losses = step(losses)]. *)
Definition when (cond : bool) (step : losses_t -> result losses_t)
    (L : losses_t) : result losses_t :=
  if cond then step L else Ok L.

Definition _get_losses (hr pr : pydict tensor) : result losses_t :=
  let? hr_time := dict_getitem "time" hr in
  let? pr_time := dict_getitem "time" pr in
  let L := {| generator := []; discriminator := [] |} in
  let? L := when (str_in "l1" (losses args)) (fun L =>
    Ok (gen_update L "l1" (PyTensor (l1_loss pr_time hr_time)))) L in
  let? L := when (str_in "l2" (losses args)) (fun L =>
    Ok (gen_update L "l2" (PyTensor (mse_loss pr_time hr_time)))) L in
  let? L := when (str_in "stft" (losses args)) (fun L =>
    let stft_loss := _get_stft_loss pr_time hr_time in
    Ok (gen_update L "stft" (PyTensor stft_loss))) L in
  let? L := when (str_in "perceptual" (losses args)) (fun L =>
    (* [self.perceptual_loss] is assigned nowhere in the class *)
    Raise (AttributeError "perceptual_loss")) L in
  let? L := when (str_in "mel" (losses args)) (fun L =>
    let? melspec_transform := get_melspec_transform in
    let hr_mel := melspec_transform hr_time in
    let pr_mel := melspec_transform pr_time in
    Ok (gen_update L "mel"
          (PyTensor (s_mul_float (mel_spec_loss_lambda exp)
                       (l1_loss hr_mel pr_mel))))) L in
  let? L := when (str_in "spectral_l1" (losses args)) (fun L =>
    let? ps := dict_getitem "spec" pr in
    let? hs := dict_getitem "spec" hr in
    Ok (gen_update L "spectral_l1" (PyTensor (l1_loss ps hs)))) L in
  let? L := when (str_in "spectral_l2" (losses args)) (fun L =>
    let? hs := dict_getitem "spec" hr in
    let hr_spec := view_as_real hs in
    let? ps := dict_getitem "spec" pr in
    let pr_spec := view_as_real ps in
    Ok (gen_update L "spectral_l2" (PyTensor (mse_loss pr_spec hr_spec))))
    L in
  if adversarial_mode args then
    if multiple_discriminators_mode args then
      let models := discriminator_models exp in
      let? L := when (str_in "melgan" models)
                  (melgan_losses hr_time pr_time) L in
      let? L := when (str_in "msd" models) (msd_losses hr_time pr_time) L in
      let? L := when (str_in "mpd" models) (mpd_losses hr_time pr_time) L in
      let? L := when (str_in "hifi" models)
                  (hifi_losses hr_time pr_time) L in
      let? L := when (str_in "mbd" models) (mbd_losses hr_time pr_time) L in
      let? L := when (str_in "spec" models)
                  (spec_losses hr pr hr_time pr_time) L in
      let? L := when (str_in "stft" models) (stft_losses hr pr) L in
      Ok L
    else
      let model := discriminator_model exp in
      let? L := when (opt_str_eqb model "melgan")
                  (melgan_losses hr_time pr_time) L in
      let? L := when (opt_str_eqb model "msd")
                  (msd_losses hr_time pr_time) L in
      let? L := when (opt_str_eqb model "mpd")
                  (mpd_losses hr_time pr_time) L in
      let? L := when (opt_str_eqb model "hifi")
                  (hifi_losses hr_time pr_time) L in
      let? L := when (opt_str_eqb model "mbd")
                  (mbd_losses hr_time pr_time) L in
      let? L := when (opt_str_eqb model "spec")
                  (spec_losses hr pr hr_time pr_time) L in
      let? L := when (opt_str_eqb model "stft") (stft_losses hr pr) L in
      Ok L
  else Ok L.

End LossComposer.

(* ===================================================================== *)
(** * Stateful code: a state-and-exception monad *)
(* ===================================================================== *)

(** A computation that reads and writes a state [St] and either returns
    or raises; the state reached when it raises is kept, since what was
    done before the exception stays done. *)
Definition prog (St A : Type) : Type := St -> result A * St.

Definition pret {St A} (a : A) : prog St A := fun st => (Ok a, st).
Definition praise {St A} (e : exn) : prog St A := fun st => (Raise e, st).
Definition plift {St A} (r : result A) : prog St A := fun st => (r, st).
Definition pbind {St A B} (m : prog St A) (k : A -> prog St B) : prog St B :=
  fun st =>
    match m st with
    | (Ok a, st') => k a st'
    | (Raise e, st') => (Raise e, st')
    end.
Definition pget {St} : prog St St := fun st => (Ok st, st).
Definition pmodify {St} (f : St -> St) : prog St unit :=
  fun st => (Ok tt, f st).

Notation "'do!' x ':=' m 'in' k" := (pbind m (fun x => k))
  (at level 10, x pattern, m at level 100, k at level 200) : py_scope.
Notation "m ';;' k" := (pbind m (fun _ => k))
  (at level 100, k at level 200, right associativity) : py_scope.

(** [for x in xs: body], with loop-carried variables [s]. *)
Fixpoint pfor_in {St A S} (xs : list A) (body : A -> S -> prog St S) (s : S)
  : prog St S :=
  match xs with
  | [] => pret s
  | x :: r => do! s' := body x s in pfor_in r body s'
  end.

(* ===================================================================== *)
(** * The adversarial optimisation step *)
(* ===================================================================== *)

(** Calls made on optimisers and on loss tensors, in program order. *)
Inductive opt_event (S : Type) : Type :=
| ZeroGrad (optimizer : string)
| Backward (loss : S)
| Step (optimizer : string).
Arguments ZeroGrad {S} optimizer.
Arguments Backward {S} loss.
Arguments Step {S} optimizer.

Section Scheduler.
Context {T : Torch}.
Variable args : args_t.
(** The keys of [optimizers['discriminator']], when that entry exists. *)
Variable separate_optimizer_names : list string.

Definition emit (e : opt_event scalar) : prog (list (opt_event scalar)) unit :=
  pmodify (fun trace => trace ++ [e]).

(** [self.disc_optimizers], as assigned by [__init__] (lines 68-72): the
    attribute only exists in adversarial mode. *)
Definition disc_optimizers : option (list string) :=
  if adversarial_mode args then
    if multiple_discriminators_mode args
       && negb (joint_disc_optimizers_mode args)
    then Some separate_optimizer_names
    else Some ["disc_optimizer"]
  else None.

(** [self.disc_optimizers[name]]. *)
Definition get_disc_optimizer (name : string)
  : prog (list (opt_event scalar)) string :=
  match disc_optimizers with
  | Some optimizers =>
      if str_in name optimizers then pret name
      else praise (KeyError name)
  | None => praise (AttributeError "disc_optimizers")
  end.

(** [x.backward()]: only tensors have the method. *)
Definition backward (x : pynum scalar)
  : prog (list (opt_event scalar)) unit :=
  match x with
  | PyTensor s => emit (Backward s)
  | PyInt _ | PyFloat _ => praise (AttributeError "backward")
  end.

(** [sum(xs)]: starts from the integer [0]. *)
Definition py_sum (xs : list (pynum scalar)) : pynum scalar :=
  fold_left py_add xs (PyInt 0).

Definition _optimize (loss : pynum scalar)
  : prog (list (opt_event scalar)) unit :=
  emit (ZeroGrad "optimizer");;
  backward loss;;
  emit (Step "optimizer").

Definition _optimize_adversarial
    (discriminator_losses : pydict (pynum scalar))
  : prog (list (opt_event scalar)) unit :=
  if multiple_discriminators_mode args then
    if joint_disc_optimizers_mode args then
      let total_disc_loss := py_sum (dict_values discriminator_losses) in
      do! disc_optimizer := get_disc_optimizer "disc_optimizer" in
      emit (ZeroGrad disc_optimizer);;
      backward total_disc_loss;;
      emit (Step disc_optimizer)
    else
      pfor_in discriminator_losses (fun item _ =>
        let '(discriminator_name, discriminator_loss) := item in
        do! o := get_disc_optimizer discriminator_name in
        emit (ZeroGrad o);;
        backward discriminator_loss;;
        do! o := get_disc_optimizer discriminator_name in
        emit (Step o)) tt
  else
    do! disc_optimizer := get_disc_optimizer "disc_optimizer" in
    emit (ZeroGrad disc_optimizer);;
    do! first := plift (getitem (dict_values discriminator_losses) 0) in
    backward first;;
    emit (Step disc_optimizer).

End Scheduler.

(* ===================================================================== *)
(** * Models, optimisers and the solver object *)
(* ===================================================================== *)

(** A [state_dict]: named parameter (or optimiser) tensors. *)
Definition state_dict : Type := pydict (list Q).

(** A model: what is needed to rebuild it, and its parameters. *)
Record model_t : Type := {
  model_class : string;
  model_state : state_dict      (* model.state_dict() *)
}.

(** An entry of [self.optimizers]: an optimiser, or (under the key
    ['discriminator']) a dictionary of optimisers. *)
Inductive opt_entry : Type :=
| Optimizer (state : state_dict)
| OptimizerGroup (group : pydict state_dict).

(** One epoch's metrics, and the history. *)
Definition metrics_t : Type := pydict Q.
Definition history_t : Type := list metrics_t.

(** The live, trainable part of the solver. *)
Record live_t : Type := {
  models : pydict model_t;
  optimizers : pydict opt_entry
}.

(** The attributes of [self] that change after construction.
    [best_states] is [None] until [_reset] or [train] assigns it. *)
Record solver_t : Type := {
  live : live_t;
  history : history_t;
  best_states : option (pydict state_dict)
}.

Definition set_live (s : solver_t) (w : live_t) : solver_t :=
  {| live := w; history := history s; best_states := best_states s |}.
Definition set_history (s : solver_t) (h : history_t) : solver_t :=
  {| live := live s; history := h; best_states := best_states s |}.
Definition set_best_states (s : solver_t) (b : option (pydict state_dict))
  : solver_t :=
  {| live := live s; history := history s; best_states := b |}.

(** Modelled from the spec: [copy_state] of [src/utils.py], which is not
    part of the sources at hand.  The spec's [snapshot] "produces an
    independent copy": a deep copy, equal in value to its argument, that
    later training does not mutate.  Values of the embedding are immutable,
    so the copy is the value itself. *)
Definition copy_state (state : state_dict) : state_dict := state.

(** A serialised model: a dictionary with the key [SERIALIZE_KEY_STATE]. *)
Record model_package : Type := {
  mp_class : string;
  mp_state : state_dict
}.

(** Modelled from the spec: [serialize_model] of [src/utils.py], which is
    not part of the sources at hand.  [_serialize] and [_load] use its
    result as a dictionary whose ['state'] entry holds the parameters. *)
Definition serialize_model (m : model_t) : model_package :=
  {| mp_class := model_class m; mp_state := copy_state (model_state m) |}.

(** Modelled from the spec: [pull_metric] of [src/utils.py], which is not
    part of the sources at hand.  The spec's best-loss tracking ranges over
    "all prior evaluation losses": the values recorded under [name] in the
    history, in epoch order, skipping the epochs that did not record it. *)
Fixpoint pull_metric (history : history_t) (name : string) : list Q :=
  match history with
  | [] => []
  | metrics :: rest =>
      match dict_get name metrics with
      | Some v => v :: pull_metric rest name
      | None => pull_metric rest name
      end
  end.

(** [_copy_models_states] *)
Definition _copy_models_states (s : solver_t) : pydict state_dict :=
  fold_left (fun states item =>
               let '(name, model) := item in
               dict_set name (copy_state (model_state model)) states)
    (models (live s)) [].

(** [_serialize_models] *)
Definition _serialize_models (s : solver_t) : pydict model_package :=
  fold_left (fun serialized_models item =>
               let '(name, model) := item in
               dict_set name (serialize_model model) serialized_models)
    (models (live s)) [].

(** [optimizer.state_dict()]: a dictionary of optimisers has no such
    method. *)
Definition opt_state_dict (o : opt_entry) : result state_dict :=
  match o with
  | Optimizer st => Ok st
  | OptimizerGroup _ => Raise (AttributeError "state_dict")
  end.

(** [d.items()] where [d] should be a dictionary of optimisers. *)
Definition opt_group_items (o : opt_entry) : result (pydict state_dict) :=
  match o with
  | OptimizerGroup g => Ok g
  | Optimizer _ => Raise (AttributeError "items")
  end.

(** [_serialize_optimizers] *)
Definition _serialize_optimizers (a : args_t) (s : solver_t)
  : result (pydict opt_entry) :=
  let serialized_optimizers := [] in
  if multiple_discriminators_mode a && negb (joint_disc_optimizers_mode a) then
    let? o := dict_getitem "optimizer" (optimizers (live s)) in
    let? st := opt_state_dict o in
    let serialized_optimizers :=
      dict_set "optimizer" (Optimizer st) serialized_optimizers in
    let serialized_optimizers :=
      dict_update serialized_optimizers [("discriminator", OptimizerGroup [])] in
    let? d := dict_getitem "discriminator" (optimizers (live s)) in
    let? group := opt_group_items d in
    for_in group (fun item serialized_optimizers =>
      let '(name, optimizer) := item in
      let? g := dict_getitem "discriminator" serialized_optimizers in
      let? g := opt_group_items g in
      Ok (dict_set "discriminator"
            (OptimizerGroup (dict_set name optimizer g))
            serialized_optimizers))
      serialized_optimizers
  else
    for_in (optimizers (live s)) (fun item serialized_optimizers =>
      let '(name, optimizer) := item in
      let? st := opt_state_dict optimizer in
      Ok (dict_set name (Optimizer st) serialized_optimizers))
      serialized_optimizers.

(* ===================================================================== *)
(** * Files *)
(* ===================================================================== *)

(** The checkpoint: what [_serialize] packs under the five
    [SERIALIZE_KEY_*] keys. *)
Record package_t : Type := {
  pkg_models : pydict model_package;
  pkg_optimizers : pydict opt_entry;
  pkg_history : history_t;
  pkg_best_states : option (pydict state_dict);
  pkg_args : args_t
}.

Inductive payload : Type :=
| PackagePayload (p : package_t)
| ModelPayload (m : model_package).

(** The content of a file: a complete [torch.save] or [json.dump], or
    what a write leaves behind when it fails part-way. *)
Inductive file : Type :=
| TorchFile (content : payload)
| JsonFile (content : history_t)
| Truncated.

(** The file system, and the fault that the environment will inject:
    [fault = Some (n, dirty)] makes the operation after the next [n]
    fail; a failing write leaves a truncated file when [dirty] holds and
    nothing otherwise; a failing rename changes nothing. *)
Record world : Type := {
  files : gmap string file;
  fault : option (nat * bool)
}.

Definition with_files (w : world) (f : gmap string file) : world :=
  {| files := f; fault := fault w |}.

(** Account for one file-system operation: [Ok] when it may proceed. *)
Definition tick : prog world (option bool) :=
  fun w =>
    match fault w with
    | Some (O, dirty) => (Ok (Some dirty), {| files := files w; fault := None |})
    | Some (S n, dirty) =>
        (Ok None, {| files := files w; fault := Some (n, dirty) |})
    | None => (Ok None, w)
    end.

Definition write_file (path : string) (content : file) : prog world unit :=
  do! failing := tick in
  match failing with
  | None => pmodify (fun w => with_files w (<[path := content]> (files w)))
  | Some dirty =>
      (if dirty
       then pmodify (fun w => with_files w (<[path := Truncated]> (files w)))
       else pret tt);;
      praise OSError
  end.

(** [torch.save(obj, path)] *)
Definition torch_save (obj : payload) (path : string) : prog world unit :=
  write_file path (TorchFile obj).

(** [json.dump(history, open(path, "w"), indent=2)] *)
Definition json_dump (h : history_t) (path : string) : prog world unit :=
  write_file path (JsonFile h).

(** [os.rename(src, dst)]: atomic; [dst] is replaced. *)
Definition os_rename (src dst : string) : prog world unit :=
  do! failing := tick in
  match failing with
  | Some _ => praise OSError
  | None =>
      do! w := pget in
      match files w !! src with
      | None => praise OSError
      | Some f =>
          pmodify (fun w => with_files w (<[dst := f]> (delete src (files w))))
      end
  end.

(** [torch.load(path, 'cpu')] *)
Definition torch_load (path : string) : prog world payload :=
  do! w := pget in
  match files w !! path with
  | Some (TorchFile content) => pret content
  | Some (JsonFile _) | Some Truncated => praise ValueError
  | None => praise OSError
  end.

(** [Path(path).exists()] *)
Definition path_exists (w : world) (path : string) : bool :=
  match files w !! path with Some _ => true | None => false end.

(** The directory entry [name] of [parent]: [os.path.join(parent, name)]
    and [parent / name] name the same entry. *)
Definition path_join (parent name : string) : string :=
  parent +:+ "/" +:+ name.

(* ===================================================================== *)
(** * Checkpoints: [_serialize], [_load], [_reset] *)
(* ===================================================================== *)

Section Checkpoint.
Variable args : args_t.

(** What [_serialize] saves under the canonical checkpoint path. *)
Definition make_package (s : solver_t) : result package_t :=
  let serialized_models := _serialize_models s in
  let? serialized_optimizers := _serialize_optimizers args s in
  Ok {| pkg_models := serialized_models;
        pkg_optimizers := serialized_optimizers;
        pkg_history := history s;
        pkg_best_states := best_states s;
        pkg_args := args |}.

(** [models[model_name][SERIALIZE_KEY_STATE] = best_state] *)
Definition set_package_state (model_name : string) (best_state : state_dict)
    (models : pydict model_package) : result (pydict model_package) :=
  let? m := dict_getitem model_name models in
  Ok (dict_set model_name
        {| mp_class := mp_class m; mp_state := best_state |} models).

(** [package[SERIALIZE_KEY_BEST_STATES].items()] *)
Definition best_states_items (b : option (pydict state_dict))
  : result (pydict state_dict) :=
  match b with
  | Some d => Ok d
  | None => Raise (AttributeError "items")
  end.

Definition best_model_filename (model_name : string) : string :=
  model_name +:+ "_" +:+ best_file_name args.

(** [torch.save(obj, tmp_path)] followed by [os.rename(tmp_path, path)]:
    the two statements of lines 152-155 and of lines 163-165. *)
Definition save_then_rename (obj : payload) (tmp_path path : string)
  : prog world unit :=
  torch_save obj tmp_path;;
  (* renaming is sort of atomic on UNIX (not really true on NFS)
     but still less chances of leaving a half written checkpoint behind. *)
  os_rename tmp_path path.

(** The body of the loop of lines 159-165. *)
Definition serialize_best_model (model_name : string) (best_state : state_dict)
    (models : pydict model_package) : prog world (pydict model_package) :=
  do! models := plift (set_package_state model_name best_state models) in
  let model_filename := best_model_filename model_name in
  let tmp_path := path_join (best_file_parent args) model_filename +:+ ".tmp" in
  do! m := plift (dict_getitem model_name models) in
  let model_path := path_join (best_file_parent args) model_filename in
  save_then_rename (ModelPayload m) tmp_path model_path;;
  pret models.

Definition _serialize (s : solver_t) : prog world unit :=
  do! package := plift (make_package s) in
  let tmp_path := checkpoint_file args +:+ ".tmp" in
  save_then_rename (PackagePayload package) tmp_path (checkpoint_file args);;
  (* Saving only the latest best model. *)
  let models := pkg_models package in
  do! best := plift (best_states_items (pkg_best_states package)) in
  do! _ :=
    pfor_in best (fun item models =>
      let '(model_name, best_state) := item in
      serialize_best_model model_name best_state models) models in
  pret tt.

(** [self.models[name].load_state_dict(state)] *)
Definition load_model_state (name : string) (state : state_dict)
    (w : live_t) : result live_t :=
  let? m := dict_getitem name (models w) in
  Ok {| models :=
          dict_set name
            {| model_class := model_class m; model_state := state |}
            (models w);
        optimizers := optimizers w |}.

(** [self.optimizers[name].load_state_dict(opt_package)] *)
Definition load_optimizer_state (name : string) (opt_package : opt_entry)
    (w : live_t) : result live_t :=
  let? o := dict_getitem name (optimizers w) in
  match o, opt_package with
  | Optimizer _, Optimizer st =>
      Ok {| models := models w;
            optimizers := dict_set name (Optimizer st) (optimizers w) |}
  | Optimizer _, OptimizerGroup _ => Raise TypeError
  | OptimizerGroup _, _ => Raise (AttributeError "load_state_dict")
  end.

(** [self.optimizers['discriminator'][name].load_state_dict(opt_package)] *)
Definition load_group_optimizer_state (name : string)
    (opt_package : state_dict) (w : live_t) : result live_t :=
  let? d := dict_getitem "discriminator" (optimizers w) in
  match d with
  | OptimizerGroup g =>
      let? _ := dict_getitem name g in
      Ok {| models := models w;
            optimizers :=
              dict_set "discriminator"
                (OptimizerGroup (dict_set name opt_package g))
                (optimizers w) |}
  | Optimizer _ => Raise TypeError
  end.

Definition _load (package : package_t) (load_best : bool) (w : live_t)
  : result live_t :=
  if load_best then
    (* package[SERIALIZE_KEY_BEST_STATES][SERIALIZE_KEY_MODELS].items():
       the entry of the model named 'models', read as a dictionary of
       model packages; its values are parameter tensors, and indexing a
       tensor with SERIALIZE_KEY_STATE raises *)
    let? best :=
      match pkg_best_states package with
      | Some d => Ok d
      | None => Raise TypeError
      end in
    let? entry := dict_getitem SERIALIZE_KEY_MODELS best in
    for_in entry (fun item w =>
      let '(name, _) := item in
      let? _ := dict_getitem name (models w) in
      Raise IndexError) w
  else
    let? w :=
      for_in (pkg_models package) (fun item w =>
        let '(name, model_package) := item in
        load_model_state name (mp_state model_package) w) w in
    if multiple_discriminators_mode args
       && negb (joint_disc_optimizers_mode args) then
      let? o := dict_getitem "optimizer" (pkg_optimizers package) in
      let? w := load_optimizer_state "optimizer" o w in
      let? d := dict_getitem "discriminator" (pkg_optimizers package) in
      let? group := opt_group_items d in
      for_in group (fun item w =>
        let '(name, opt_package) := item in
        load_group_optimizer_state name opt_package w) w
    else
      for_in (pkg_optimizers package) (fun item w =>
        let '(name, opt_package) := item in
        load_optimizer_state name opt_package w) w.

(** Where [_reset] decided to load from. *)
Inductive load_source : Type :=
| FromCheckpoint (path : string)     (* self.checkpoint_file, a Path *)
| FromContinue (path : string).      (* self.continue_from, a string *)

Definition source_path (src : load_source) : string :=
  match src with FromCheckpoint p | FromContinue p => p end.

(** Truthiness of [load_from]: a [Path] is always true, a string is true
    when it is not empty. *)
Definition truthy_load_from (load_from : option load_source) : bool :=
  match load_from with
  | None => false
  | Some (FromCheckpoint _) => true
  | Some (FromContinue p) => truthy_str p
  end.

(** Lines 185-194 of [_reset]: the values of [load_from], [load_best]
    and [keep_history] that reach the test [if load_from]. *)
Definition _reset_choice (w : world) : option load_source * bool * bool :=
  let load_from := None in
  let load_best := false in
  let keep_history := true in
  (* Reset *)
  if checkpoint args && path_exists w (checkpoint_file args)
     && negb (restart args) then
    (Some (FromCheckpoint (checkpoint_file args)), load_best, keep_history)
  else if truthy_str (continue_from args) then
    (Some (FromContinue (continue_from args)),
     Args.continue_best args, Args.keep_history args)
  else (load_from, load_best, keep_history).

(** [package[key]] on what [torch.load] returned. *)
Definition as_package (content : payload) (key : string) : result package_t :=
  match content with
  | PackagePayload p => Ok p
  | ModelPayload _ => Raise (KeyError key)
  end.

Definition _reset (s : solver_t) : prog world solver_t :=
  do! w := pget in
  let '(load_from, load_best, keep_history) := _reset_choice w in
  if truthy_load_from load_from then
    match load_from with
    | Some src =>
        do! content := torch_load (source_path src) in
        do! package :=
          plift (as_package content
                   (if load_best then SERIALIZE_KEY_BEST_STATES
                    else SERIALIZE_KEY_MODELS)) in
        do! w' := plift (_load package load_best (live s)) in
        let s := set_live s w' in
        let s :=
          if keep_history then set_history s (pkg_history package) else s in
        let s := set_best_states s (pkg_best_states package) in
        pret s
    | None => pret s
    end
  else pret s.

(** [Solver.__init__], as far as the mutable attributes go: no best
    states, an empty history, then [_reset]. *)
Definition solver_init (w0 : live_t) : prog world solver_t :=
  _reset {| live := w0; history := []; best_states := None |}.

End Checkpoint.

(* ===================================================================== *)
(** * The epoch loop *)
(* ===================================================================== *)

(** ** Paths and strings *)

Fixpoint chars (s : string) : list ascii :=
  match s with
  | EmptyString => []
  | String c r => c :: chars r
  end.

Fixpoint of_chars (l : list ascii) : string :=
  match l with
  | [] => EmptyString
  | c :: r => String c (of_chars r)
  end.

(** [l += s] for a list [l] and a string [s]: the list is extended with
    the items of the iterable [s], which are its characters, each a string
    of length one. *)
Definition list_iadd_str (l : list string) (s : string) : list string :=
  l ++ map (fun c => String c EmptyString) (chars s).

(** Split at the last occurrence of [sep]: [Some (before, after)]. *)
Fixpoint rsplit_rev (sep : ascii) (rev_after rev_s : list ascii)
  : option (list ascii * list ascii) :=
  match rev_s with
  | [] => None
  | c :: r =>
      if Ascii.eqb c sep then Some (rev r, rev_after)
      else rsplit_rev sep (c :: rev_after) r
  end.

Fixpoint drop_while_slash (l : list ascii) : list ascii :=
  match l with
  | c :: r => if Ascii.eqb c "/" then drop_while_slash r else l
  | [] => []
  end.

(** [Path(p).name]: the last component. *)
Definition path_name (p : string) : list ascii :=
  let trimmed := drop_while_slash (rev (chars p)) in
  match rsplit_rev "/" [] trimmed with
  | Some (_, name) => name
  | None => rev trimmed
  end.

(** [Path(p).stem]: the last component without its last suffix. *)
Definition path_stem (p : string) : string :=
  let name := path_name p in
  match rsplit_rev "." [] (rev name) with
  | Some (before, after) =>
      match before, after with
      | _ :: _, _ :: _ => of_chars before
      | _, _ => of_chars name
      end
  | None => of_chars name
  end.

(** ** Collaborators of the loop *)

(** What the loop needs from the generator, the data and the evaluation
    helpers.  The discriminators and loss helpers depend on the live
    parameters, hence [collaborators]. *)
Class Trainer (T : Torch) : Type := {
  batch : Type;                    (* an item of tr_loader, cv_loader *)
  batch_lr : batch -> tensor;
  batch_hr : batch -> tensor;
  path_batch : Type;               (* an item of tt_loader *)
  pb_lr : path_batch -> tensor;
  pb_hr : path_batch -> tensor;
  pb_hr_path : path_batch -> list string;
  collaborators : live_t -> Collaborators T;
  dmodel : live_t -> tensor -> tensor;
  dmodel_return_spec : live_t -> tensor -> tensor * tensor;
  dmodel_return_lr_spec : live_t -> tensor -> tensor * tensor * tensor;
  model_spec : live_t -> tensor -> tensor;      (* _spec(hr, scale=True) *)
  match_signal : tensor -> tensor -> tensor;
  item : scalar -> Q;                           (* t.item() *)
  apply_event : opt_event scalar -> live_t -> live_t;
  evaluate : state_dict -> nat -> Q * Q * list string;
  enhance : state_dict -> list string;
  evaluate_on_saved_data : option (list string) -> nat -> Q * Q
}.

(** A loader: [None], or the batches it yields once its [epoch] attribute
    is set.  A loader is true when it is not [None] and has batches. *)
Definition loader (B : Type) : Type := option (nat -> list B).

Definition truthy_loader {B} (l : loader B) : bool :=
  match l with
  | Some batches => truthy_list (batches O)
  | None => false
  end.

(** What the loop logs and hands to its collaborators, in program order. *)
Inductive log_event : Type :=
| LogReplay (epoch : nat) (metrics : metrics_t)
| LogTrainSummary (epoch : nat)
| LogValidationSummary (epoch : nat)
| LogNewBest (evaluation_loss : Q)       (* 'New best valid loss' *)
| LogLoadingBestState                    (* 'Loading best state.' *)
| LogUsingLastState                      (* 'Using last state.' *)
| SwapState (state : state_dict)         (* with swap_state(model, state) *)
| LogAlreadyEvaluated
| LogJointlyEvaluating
| SaveSamples (filename : string)        (* save_wavs, save_specs *)
| LogResults (filenames : option (list string)) (epoch : nat)
| WandbLog (metrics : metrics_t) (step : nat)
| LogOverallSummary (epoch : nat)
| LogCheckpointSaved.

(** The state that [train] runs in. *)
Record machine : Type := {
  m_world : world;
  m_solver : solver_t;
  m_log : list log_event
}.

Definition log (e : log_event) : prog machine unit :=
  pmodify (fun m => {| m_world := m_world m; m_solver := m_solver m;
                       m_log := m_log m ++ [e] |}).

Definition get_solver : prog machine solver_t :=
  fun m => (Ok (m_solver m), m).

Definition put_solver (s : solver_t) : prog machine unit :=
  pmodify (fun m => {| m_world := m_world m; m_solver := s;
                       m_log := m_log m |}).

(** Run file-system code inside [train]. *)
Definition in_world {A} (p : prog world A) : prog machine A :=
  fun m =>
    let '(r, w) := p (m_world m) in
    (r, {| m_world := w; m_solver := m_solver m; m_log := m_log m |}).

(** Model snapshots for [swap_state]. *)
Definition generator_state (w : live_t) : result state_dict :=
  let? m := dict_getitem GENERATOR_KEY (models w) in
  Ok (model_state m).

(** The keys of the two dictionary comprehensions of [train]:
    [k + '_loss'] (line 235) and ['valid_' + k + '_loss'] (line 260). *)
Definition loss_key (k : string) : string := k +:+ "_loss".
Definition valid_loss_key (k : string) : string := "valid_" +:+ k +:+ "_loss".

Section Train.
Context {T : Torch} {Tr : Trainer T}.
Variable args : args_t.
Variable tr_loader : loader batch.
Variable cv_loader : loader batch.
Variable tt_loader : loader path_batch.
Variable separate_optimizer_names : list string.
Variable rank : nat.                      (* distrib.rank *)

#[local] Abbreviation exp := (experiment args).

(** [loss.item()] *)
Definition item_of (x : pynum scalar) : result Q :=
  match x with
  | PyTensor s => Ok (item s)
  | PyInt _ | PyFloat _ => Raise (AttributeError "item")
  end.

(** The two accumulation loops shared by [_run_one_epoch] and
    [_get_valid_losses_on_test_data]:
    [for loss_name, loss in d.items(): total_losses[prefix + loss_name]
    (+)= loss.item()]. *)
Definition accumulate (prefix : string) (d : pydict (pynum scalar))
    (total_losses : pydict Q) : result (pydict Q) :=
  for_in d (fun entry total_losses =>
    let '(loss_name, loss) := entry in
    let total_loss_name := prefix +:+ loss_name in
    let? x := item_of loss in
    match dict_get total_loss_name total_losses with
    | Some old => Ok (dict_set total_loss_name (old + x)%Q total_losses)
    | None => Ok (dict_set total_loss_name x total_losses)
    end) total_losses.

(** The lines after the batch loop: the averages over [i + 1] batches. *)
Definition average_losses (last_i : option nat) (total_loss : Q)
    (total_losses : pydict Q) : result (pydict Q) :=
  match last_i with
  | None => Raise (UnboundLocalError "i")
  | Some i =>
      let n := inject_Z (Z.of_nat (i + 1)) in
      let avg_losses := [("total", (total_loss / n)%Q)] in
      let avg_losses :=
        dict_update avg_losses [("evaluation", (total_loss / n)%Q)] in
      Ok (fold_left (fun avg_losses entry =>
                       let '(loss_name, loss) := entry in
                       dict_update avg_losses [(loss_name, (loss / n)%Q)])
            total_losses avg_losses)
  end.

(** Run optimiser calls on the live parameters. *)
Definition run_optimizer (p : prog (list (opt_event scalar)) unit)
  : prog live_t unit :=
  fun w =>
    let '(r, trace) := p [] in
    (r, fold_left (fun w e => apply_event e w) trace w).

(** [data_loader.epoch = epoch], then the batches. *)
Definition loader_batches {B} (l : loader B) (epoch : nat)
  : result (list B) :=
  match l with
  | Some batches => Ok (batches epoch)
  | None => Raise (AttributeError "epoch")
  end.

(** Loop-carried variables of the two batch loops. *)
Record totals : Type := {
  t_last_i : option nat;              (* i, unbound before the first batch *)
  t_total_losses : pydict Q;
  t_total_loss : Q;
  t_total_filenames : list string
}.

Definition _run_one_epoch (epoch : nat) (cross_valid : bool)
  : prog live_t (pydict Q) :=
  let total_losses := [] in
  let total_loss := 0%Q in
  let data_loader := if negb cross_valid then tr_loader else cv_loader in
  (* get a different order for distributed training *)
  do! batches := plift (loader_batches data_loader epoch) in
  let return_spec := return_spec exp in
  do! acc :=
    pfor_in (combine (seq 0 (length batches)) batches) (fun step acc =>
      let '(i, data) := step in
      let lr := batch_lr data in
      let hr := batch_hr data in
      do! w := pget in
      let '(hr_reprs, pr_reprs) :=
        if return_spec then
          let '(pr_time, pr_spec) := dmodel_return_spec w lr in
          let hr_spec := model_spec w hr in
          ([("time", hr); ("spec", hr_spec)],
           [("time", pr_time); ("spec", pr_spec)])
        else
          let pr_time := dmodel w lr in
          ([("time", hr)], [("time", pr_time)]) in
      do! losses :=
        plift (_get_losses (C := collaborators w) args hr_reprs pr_reprs) in
      let total_generator_loss := py_sum (dict_values (generator losses)) in
      (* optimize model in training mode *)
      (if negb cross_valid then
         run_optimizer (_optimize total_generator_loss);;
         if adversarial_mode args then
           run_optimizer
             (_optimize_adversarial args separate_optimizer_names
                (discriminator losses))
         else pret tt
       else pret tt);;
      do! x := plift (item_of total_generator_loss) in
      let total_loss := (t_total_loss acc + x)%Q in
      do! total_losses :=
        plift (accumulate "generator_" (generator losses)
                 (t_total_losses acc)) in
      do! total_losses :=
        plift (accumulate "discriminator_" (discriminator losses)
                 total_losses) in
      pret {| t_last_i := Some i; t_total_losses := total_losses;
              t_total_loss := total_loss;
              t_total_filenames := t_total_filenames acc |})
      {| t_last_i := None; t_total_losses := total_losses;
         t_total_loss := total_loss; t_total_filenames := [] |} in
  plift (average_losses (t_last_i acc) (t_total_loss acc)
           (t_total_losses acc)).

(** [hr_path[0]] *)
Definition first_path (hr_path : list string) : result string :=
  getitem hr_path 0.

Definition _get_valid_losses_on_test_data (epoch : nat) (enhance : bool)
  : prog machine (pydict Q * option (list string)) :=
  let total_losses := [] in
  let total_loss := 0%Q in
  let data_loader := tt_loader in
  (* get a different order for distributed training *)
  do! batches := plift (loader_batches data_loader epoch) in
  let total_filenames := [] in
  do! acc :=
    pfor_in (combine (seq 0 (length batches)) batches) (fun step acc =>
      let '(i, data) := step in
      let lr := pb_lr data in
      let hr := pb_hr data in
      do! hr_path_0 := plift (first_path (pb_hr_path data)) in
      let filename := path_stem hr_path_0 in
      let total_filenames :=
        list_iadd_str (t_total_filenames acc) filename in
      do! s := get_solver in
      let w := live s in
      let hr_spec := detach (model_spec w hr) in
      let '(pr_time, pr_spec, lr_spec) := dmodel_return_lr_spec w lr in
      let pr_spec := detach pr_spec in
      let lr_spec := detach lr_spec in
      let pr_time := match_signal pr_time hr in
      (if enhance then
         log (SaveSamples (path_join (samples_dir args) filename))
       else pret tt);;
      let hr_reprs := [("time", hr); ("spec", hr_spec)] in
      let pr_reprs := [("time", pr_time); ("spec", pr_spec)] in
      do! losses :=
        plift (_get_losses (C := collaborators w) args hr_reprs pr_reprs) in
      let total_generator_loss := py_sum (dict_values (generator losses)) in
      do! x := plift (item_of total_generator_loss) in
      let total_loss := (t_total_loss acc + x)%Q in
      do! total_losses :=
        plift (accumulate "generator_" (generator losses)
                 (t_total_losses acc)) in
      do! total_losses :=
        plift (accumulate "discriminator_" (discriminator losses)
                 total_losses) in
      pret {| t_last_i := Some i; t_total_losses := total_losses;
              t_total_loss := total_loss;
              t_total_filenames := total_filenames |})
      {| t_last_i := None; t_total_losses := total_losses;
         t_total_loss := total_loss; t_total_filenames := total_filenames |} in
  do! avg_losses :=
    plift (average_losses (t_last_i acc) (t_total_loss acc)
             (t_total_losses acc)) in
  pret (avg_losses,
        if enhance then Some (t_total_filenames acc) else None).

(** ** [train] *)

(** Run code that acts on the live parameters inside [train]. *)
Definition in_live {A} (p : prog live_t A) : prog machine A :=
  fun m =>
    let '(r, w) := p (live (m_solver m)) in
    (r, {| m_world := m_world m; m_solver := set_live (m_solver m) w;
           m_log := m_log m |}).

(** Local variables of [train] that outlive an iteration of the epoch
    loop.  [None] in the last two is an unbound name. *)
Record locals : Type := {
  best_loss : option Q;
  enhanced_filenames : option (option (list string));
  enhanced_dataloader : option (option (list string))
}.

Definition set_best_loss (loc : locals) (b : option Q) : locals :=
  {| best_loss := b; enhanced_filenames := enhanced_filenames loc;
     enhanced_dataloader := enhanced_dataloader loc |}.
Definition set_enhanced_filenames (loc : locals)
    (f : option (list string)) : locals :=
  {| best_loss := best_loss loc; enhanced_filenames := Some f;
     enhanced_dataloader := enhanced_dataloader loc |}.
Definition set_enhanced_dataloader (loc : locals)
    (f : option (list string)) : locals :=
  {| best_loss := best_loss loc;
     enhanced_filenames := enhanced_filenames loc;
     enhanced_dataloader := Some f |}.

(** [epoch == self.epochs - 1] *)
Definition is_last_epoch (epoch : nat) : bool :=
  (Z.of_nat epoch =? Z.of_nat (epochs args) - 1)%Z.

(** [(epoch + 1) % every == 0 or epoch == self.epochs - 1] *)
Definition every_or_last (epoch every : nat) : result bool :=
  let? r := py_mod (epoch + 1) every in
  Ok (Nat.eqb r 0 || is_last_epoch epoch).

(** The test of line 241. *)
Definition cross_valid_gate (epoch : nat) : result bool :=
  if cross_valid args then
    let? due := every_or_last epoch (cross_valid_every args) in
    Ok (due && truthy_loader cv_loader)
  else Ok false.

(** Line 250: [A or B and C] is [A or (B and C)]. *)
Definition evaluate_on_test_data_flag (epoch : nat) : result bool :=
  let? r := py_mod (epoch + 1) (eval_every args) in
  Ok (Nat.eqb r 0 || (is_last_epoch epoch && truthy_loader tt_loader)).

(** The test of line 280. *)
Definition evaluate_gate (epoch : nat) : result bool :=
  let? due := every_or_last epoch (eval_every args) in
  Ok (due && truthy_loader tt_loader).

(** Truthiness of [self.best_states]. *)
Definition truthy_best_states (b : option (pydict state_dict)) : bool :=
  match b with
  | Some d => truthy_list d
  | None => false
  end.

(** Lines 241-266: cross validation and best-loss tracking.  Returns
    [valid_losses], [evaluation_loss], [evaluated_on_test_data] and the
    updated locals. *)
Definition cross_validate (epoch : nat) (loc : locals)
  : prog machine (pydict Q * option Q * bool * locals) :=
  let valid_losses := [] in
  let evaluation_loss := None in
  let evaluated_on_test_data := false in
  do! gate := plift (cross_valid_gate epoch) in
  if gate then
    (* Cross validation *)
    do! (valid_losses, evaluated_on_test_data, loc) :=
      (if valid_equals_test args then
         do! evaluate_on_test_data :=
           plift (evaluate_on_test_data_flag epoch) in
         do! (valid_losses, enhanced_filenames) :=
           _get_valid_losses_on_test_data epoch evaluate_on_test_data in
         pret (valid_losses, true,
               set_enhanced_filenames loc enhanced_filenames)
       else
         do! valid_losses := in_live (_run_one_epoch epoch true) in
         pret (valid_losses, evaluated_on_test_data, loc)) in
    do! evaluation_loss := plift (dict_getitem "evaluation" valid_losses) in
    log (LogValidationSummary epoch);;
    let valid_losses :=
      dict_rekey valid_loss_key valid_losses in
    do! s := get_solver in
    do! best_loss :=
      plift (py_min (pull_metric (history s) "valid_evaluation_loss"
                       ++ [evaluation_loss])) in
    (* Save the best model *)
    (if Qeq_bool evaluation_loss best_loss then
       log (LogNewBest evaluation_loss);;
       put_solver (set_best_states s (Some (_copy_models_states s)))
     else pret tt);;
    pret (valid_losses, Some evaluation_loss, evaluated_on_test_data,
          set_best_loss loc (Some best_loss))
  else
    pret (valid_losses, evaluation_loss, evaluated_on_test_data, loc).

(** Lines 270-276. *)
Definition build_metrics (losses valid_losses : pydict Q)
    (evaluation_loss best_loss : option Q) : metrics_t :=
  let metrics := dict_update losses valid_losses in
  let metrics :=
    match evaluation_loss with
    | Some v =>
        if truthy_float v
        then dict_update metrics [(METRICS_KEY_EVALUATION_LOSS, v)]
        else metrics
    | None => metrics
    end in
  let metrics :=
    match best_loss with
    | Some v =>
        if truthy_float v
        then dict_update metrics [(METRICS_KEY_BEST_LOSS, v)]
        else metrics
    | None => metrics
    end in
  metrics.

(** Lines 287-292: the parameters that the test-set evaluation runs
    with. *)
Definition choose_eval_state (s : solver_t) : prog machine state_dict :=
  if evaluate_on_best args && truthy_best_states (best_states s) then
    log LogLoadingBestState;;
    do! b := plift (best_states_items (best_states s)) in
    plift (dict_getitem GENERATOR_KEY b)
  else
    log LogUsingLastState;;
    plift (generator_state (live s)).

(** A name that may be unbound. *)
Definition read_local {A} (name : string) (v : option A) : result A :=
  match v with
  | Some x => Ok x
  | None => Raise (UnboundLocalError name)
  end.

(** Lines 280-324: evaluation on the test set.  Returns the updated
    [metrics] and locals. *)
Definition evaluate_on_test_set (epoch : nat) (evaluated_on_test_data : bool)
    (metrics : metrics_t) (loc : locals)
  : prog machine (metrics_t * locals) :=
  do! gate := plift (evaluate_gate epoch) in
  if gate then
    (* Evaluate on the testset *)
    do! s := get_solver in
    do! best_state := choose_eval_state s in
    log (SwapState best_state);;
    do! (lsd, visqol, loc) :=
      (if evaluated_on_test_data then
         log LogAlreadyEvaluated;;
         do! filenames :=
           plift (read_local "enhanced_filenames"
                    (enhanced_filenames loc)) in
         let loc := set_enhanced_dataloader loc filenames in
         let '(lsd, visqol) := evaluate_on_saved_data filenames epoch in
         pret (lsd, visqol, loc)
       else if joint_evaluate_and_enhance args then
         log LogJointlyEvaluating;;
         let '(lsd, visqol, filenames) := evaluate best_state epoch in
         pret (lsd, visqol, set_enhanced_filenames loc (Some filenames))
       else
         let filenames := enhance best_state in
         let loc := set_enhanced_filenames loc (Some filenames) in
         let loc := set_enhanced_dataloader loc (Some filenames) in
         let '(lsd, visqol) :=
           evaluate_on_saved_data (Some filenames) epoch in
         pret (lsd, visqol, loc)) in
    do! loc :=
      (if is_last_epoch epoch && log_results args then
         (* log results at last epoch *)
         do! loc :=
           match enhanced_dataloader loc with
           | Some _ => pret loc
           | None =>
               do! filenames :=
                 plift (read_local "enhanced_filenames"
                          (enhanced_filenames loc)) in
               pret (set_enhanced_dataloader loc filenames)
           end in
         do! loader_files :=
           plift (read_local "enhanced_dataloader"
                    (enhanced_dataloader loc)) in
         log (LogResults loader_files epoch);;
         pret loc
       else pret loc) in
    let metrics :=
      dict_update metrics
        [(METRICS_KEY_LSD, lsd); (METRICS_KEY_VISQOL, visqol)] in
    pret (metrics, loc)
  else pret (metrics, loc).

(** Lines 328-339: record the epoch and persist. *)
Definition record_and_persist (epoch : nat) (metrics : metrics_t)
  : prog machine unit :=
  log (WandbLog metrics epoch);;
  do! s := get_solver in
  put_solver (set_history s (history s ++ [metrics]));;
  log (LogOverallSummary epoch);;
  if Nat.eqb rank 0 then
    do! s := get_solver in
    in_world (json_dump (history s) (history_file args));;
    (* Save model each epoch *)
    if checkpoint args then
      in_world (_serialize args s);;
      log LogCheckpointSaved
    else pret tt
  else pret tt.

(** The body of the epoch loop (lines 226-339). *)
Definition train_epoch (epoch : nat) (loc : locals) : prog machine locals :=
  (* Train one epoch *)
  do! losses := in_live (_run_one_epoch epoch false) in
  log (LogTrainSummary epoch);;
  let losses := dict_rekey loss_key losses in
  do! (valid_losses, evaluation_loss, evaluated_on_test_data, loc) :=
    cross_validate epoch loc in
  let metrics :=
    build_metrics losses valid_losses evaluation_loss (best_loss loc) in
  (* evaluate and enhance samples every 'eval_every' argument number of
     epochs, also evaluate on last epoch *)
  do! (metrics, loc) :=
    evaluate_on_test_set epoch evaluated_on_test_data metrics loc in
  record_and_persist epoch metrics;;
  pret loc.

(** The locals with which the epoch loop starts ([best_loss = None],
    line 222; the other two names are not bound yet). *)
Definition initial_locals : locals :=
  {| best_loss := None; enhanced_filenames := None;
     enhanced_dataloader := None |}.

(** [range(len(self.history), self.epochs)] *)
Definition epoch_range (s : solver_t) : list nat :=
  seq (length (history s)) (epochs args - length (history s)).

(** Lines 207-223: what [train] does before the epoch loop. *)
Definition train_prologue : prog machine unit :=
  do! s := get_solver in
  (* Optimizing the model *)
  pfor_in (combine (seq 0 (length (history s))) (history s))
    (fun item _ =>
       let '(epoch, metrics) := item in
       log (LogReplay epoch metrics)) tt;;
  (* best_loss = None: see [initial_locals] *)
  put_solver (set_best_states s (Some [])).

Definition train : prog machine locals :=
  train_prologue;;
  do! s := get_solver in
  pfor_in (epoch_range s) train_epoch initial_locals.

End Train.

(* ===================================================================== *)
(** * A symbolic back end: which forward pass feeds which loss *)
(* ===================================================================== *)

(** Tensors as the expressions that built them.  [Input Prediction r] is
    the generator's output in representation [r] (it carries the
    generator's graph), [Input Target r] the ground truth. *)
Inductive origin : Type := Target | Prediction.

Inductive sym : Type :=
| Input (o : origin) (repr : string)
| Detach (t : sym)
| Contiguous (t : sym)
| Squeeze (t : sym)
| ViewAsReal (t : sym)
| Permute (t : sym)
| MelSpec (t : sym)
| ScaleLayer (disc : string) (x : sym) (i j : nat)   (* disc(x)[i][j] *)
| Layer (disc : string) (x : sym) (j : nat).         (* disc(x)[j] *)

Inductive pair_part : Type := YHatR | YHatG | FmapR | FmapG.

(** One of the four outputs of [disc(real, fake)]. *)
Record sym_out : Type := {
  so_disc : string;
  so_real : sym;
  so_fake : sym;
  so_part : pair_part
}.

Inductive sscalar : Type :=
| SNum (q : Q)
| SAdd (a b : sscalar)
| SMulF (q : Q) (a : sscalar)
| SDivI (a : sscalar) (n : Z)
| SL1 (input target : sym)
| SMse (input target : sym)
| SHingePlus (t : sym)
| SHingeMinus (t : sym)
| SDiscLoss (r g : sym_out)
| SFeatLoss (r g : sym_out)
| SGenLoss (g : sym_out)
| SStftSc (a b : sym)
| SStftMag (a b : sym).

#[export] Instance SymTorch : Torch := {|
  tensor := sym;
  scalar := sscalar;
  detach := Detach;
  contiguous := Contiguous;
  squeeze1 := Squeeze;
  view_as_real := ViewAsReal;
  permute_0312 := Permute;
  l1_loss := SL1;
  mse_loss := SMse;
  relu_one_plus_mean := SHingePlus;
  relu_one_minus_mean := SHingeMinus;
  s_of_float := SNum;
  s_add := SAdd;
  s_mul_float := SMulF;
  s_div_int := SDivI
|}.

(** Symbolic discriminators: [shape] gives the number of layers that a
    multi-scale discriminator returns at each scale, [n_stft] the number
    of layers of a single-scale one, [names] the keys of [self.dmodels]. *)
Definition SymCollaborators (names : list string) (shape : list nat)
    (n_stft : nat) : Collaborators SymTorch := {|
  logits := sym_out;
  fmaps := sym_out;
  dmodel_names := names;
  multi_scale_forward := fun d x =>
    map (fun i => map (fun j => ScaleLayer d x i j)
                   (seq 0 (nth i shape O)))
      (seq 0 (length shape));
  single_scale_forward := fun d x => map (fun j => Layer d x j) (seq 0 n_stft);
  pair_forward := fun d real fake =>
    {| y_hat_r := {| so_disc := d; so_real := real; so_fake := fake;
                     so_part := YHatR |};
       y_hat_g := {| so_disc := d; so_real := real; so_fake := fake;
                     so_part := YHatG |};
       fmap_r := {| so_disc := d; so_real := real; so_fake := fake;
                    so_part := FmapR |};
       fmap_g := {| so_disc := d; so_real := real; so_fake := fake;
                    so_part := FmapG |} |};
  discriminator_loss := SDiscLoss;
  feature_loss := SFeatLoss;
  generator_loss := SGenLoss;
  melspec := MelSpec;
  mrstftloss := fun a b => (SStftSc a b, SStftMag a b)
|}.

(** A discriminator forward pass: the discriminator and its inputs. *)
Record pass : Type := {
  pass_disc : string;
  pass_inputs : list sym
}.

(** The forward passes whose output a tensor is computed from. *)
Fixpoint passes_of_tensor (t : sym) : list pass :=
  match t with
  | Input _ _ => []
  | Detach t | Contiguous t | Squeeze t | ViewAsReal t | Permute t
  | MelSpec t => passes_of_tensor t
  | ScaleLayer d x _ _ | Layer d x _ =>
      {| pass_disc := d; pass_inputs := [x] |} :: passes_of_tensor x
  end.

Definition passes_of_out (o : sym_out) : list pass :=
  {| pass_disc := so_disc o; pass_inputs := [so_real o; so_fake o] |}
    :: passes_of_tensor (so_real o) ++ passes_of_tensor (so_fake o).

(** The forward passes whose output a loss value is computed from. *)
Fixpoint passes_of_scalar (s : sscalar) : list pass :=
  match s with
  | SNum _ => []
  | SAdd a b => passes_of_scalar a ++ passes_of_scalar b
  | SMulF _ a | SDivI a _ => passes_of_scalar a
  | SL1 a b | SMse a b | SStftSc a b | SStftMag a b =>
      passes_of_tensor a ++ passes_of_tensor b
  | SHingePlus t | SHingeMinus t => passes_of_tensor t
  | SDiscLoss r g | SFeatLoss r g => passes_of_out r ++ passes_of_out g
  | SGenLoss g => passes_of_out g
  end.

Definition passes (v : pynum sscalar) : list pass :=
  match v with
  | PyTensor s => passes_of_scalar s
  | PyInt _ | PyFloat _ => []
  end.

(** Does the tensor depend on the generator's output at all? *)
Fixpoint mentions_prediction (t : sym) : bool :=
  match t with
  | Input Prediction _ => true
  | Input Target _ => false
  | Detach t | Contiguous t | Squeeze t | ViewAsReal t | Permute t
  | MelSpec t => mentions_prediction t
  | ScaleLayer _ x _ _ | Layer _ x _ => mentions_prediction x
  end.

(** Does a gradient flow from the tensor back into the generator?  It
    does along every operation except [detach]. *)
Fixpoint attached (t : sym) : bool :=
  match t with
  | Input Prediction _ => true
  | Input Target _ => false
  | Detach _ => false
  | Contiguous t | Squeeze t | ViewAsReal t | Permute t | MelSpec t =>
      attached t
  | ScaleLayer _ x _ _ | Layer _ x _ => attached x
  end.

(** Every input of the pass that depends on the prediction is detached:
    no gradient flows from the pass back into the generator. *)
Definition consumes_detached (p : pass) : bool :=
  forallb (fun x => implb (mentions_prediction x) (negb (attached x)))
    (pass_inputs p).

(** Every input of the pass that depends on the prediction is attached:
    the pass lets the gradient through to the generator. *)
Definition consumes_attached (p : pass) : bool :=
  forallb (fun x => implb (mentions_prediction x) (attached x))
    (pass_inputs p).

(** Some input of the pass depends on the prediction. *)
Definition consumes_prediction (p : pass) : bool :=
  existsb mentions_prediction (pass_inputs p).

(** The summands of a loss written as a sum. *)
Fixpoint summands (s : sscalar) : list sscalar :=
  match s with
  | SAdd a b => summands a ++ summands b
  | _ => [s]
  end.

(** The representations handed to [_get_losses]. *)
Definition sym_reprs (o : origin) (with_spec : bool) : pydict sym :=
  if with_spec then [("time", Input o "time"); ("spec", Input o "spec")]
  else [("time", Input o "time")].


(* ===================================================================== *)
(** * A numeric back end: what the losses evaluate to *)
(* ===================================================================== *)

(** Tensors are flat lists of rationals; a loss is a rational. *)
Definition qsum (l : list Q) : Q := fold_right Qplus 0%Q l.

Definition qmean (l : list Q) : Q :=
  (qsum l / inject_Z (Z.of_nat (length l)))%Q.

Definition q_l1_loss (input target : list Q) : Q :=
  qmean (map (fun p => Qabs (fst p - snd p)) (combine input target)).

Definition q_mse_loss (input target : list Q) : Q :=
  qmean (map (fun p => (fst p - snd p) * (fst p - snd p))%Q
           (combine input target)).

Definition q_relu (x : Q) : Q := Qmax 0 x.

#[export] Instance QTorch : Torch := {|
  tensor := list Q;
  scalar := Q;
  detach := fun t => t;
  contiguous := fun t => t;
  squeeze1 := fun t => t;
  view_as_real := fun t => t;
  permute_0312 := fun t => t;
  l1_loss := q_l1_loss;
  mse_loss := q_mse_loss;
  relu_one_plus_mean := fun t => qmean (map (fun x => q_relu (1 + x)) t);
  relu_one_minus_mean := fun t => qmean (map (fun x => q_relu (1 - x)) t);
  s_of_float := fun q => q;
  s_add := Qplus;
  s_mul_float := Qmult;
  s_div_int := fun s n => (s / inject_Z n)%Q
|}.

(** The number that a loss value stands for. *)
Definition num_value (v : pynum Q) : Q :=
  match v with
  | PyInt z => inject_Z z
  | PyFloat q => q
  | PyTensor s => s
  end.

(** ** The feature-matching loss as the specification words it

    A weighted sum of the L1 distances between the intermediate feature
    maps (all layers but the last) of the real and of the fake pass, one
    weight [w] applied to every layer term. *)

(** The L1 distance at every intermediate layer of one scale. *)
Definition layer_distances (fake real : list (list Q)) : list Q :=
  map (fun j => q_l1_loss (nth j fake []) (nth j real []))
    (seq 0 (length fake - 1)).

Definition weighted_layer_sum (w : Q) (fake real : list (list (list Q)))
    (num_scales : nat) : Q :=
  qsum (map (fun i =>
               qsum (map (fun d => (w * d)%Q)
                       (layer_distances (nth i fake []) (nth i real []))))
          (seq 0 num_scales)).

(** The weight that the specification states for the hinge-loss family. *)
Definition hinge_feature_weight (num_internal_layers num_scales : Z) : Q :=
  ((4 / inject_Z (num_internal_layers + 1)) * (1 / inject_Z num_scales))%Q.

(** ** Small concrete collaborators, to run the solver on *)

(** A discriminator over flat tensors: two scales of two layers each, or
    two layers; the two-argument form returns its inputs. *)
Definition ToyCollaborators (names : list string) : Collaborators QTorch := {|
  logits := list Q;
  fmaps := list Q;
  dmodel_names := names;
  multi_scale_forward := fun _ x => [[x; x]; [x; x]];
  single_scale_forward := fun _ x => [x; x];
  pair_forward := fun _ real fake =>
    {| y_hat_r := real; y_hat_g := fake; fmap_r := real; fmap_g := fake |};
  discriminator_loss := fun r g =>
    (qmean (map (fun x => (x - 1) * (x - 1)) r)
     + qmean (map (fun x => x * x) g))%Q;
  feature_loss := q_l1_loss;
  generator_loss := fun g => qmean (map (fun x => (x - 1) * (x - 1))%Q g);
  melspec := fun t => t;
  mrstftloss := fun a b => (q_l1_loss a b, q_mse_loss a b)
|}.

(** A generator that returns its input, optimisers that change nothing
    and an evaluation that reports fixed scores. *)
#[export] Instance ToyTrainer : Trainer QTorch := {|
  batch := list Q * list Q;
  batch_lr := fst;
  batch_hr := snd;
  path_batch := list Q * list Q * list string;
  pb_lr := fun b => fst (fst b);
  pb_hr := fun b => snd (fst b);
  pb_hr_path := snd;
  collaborators := fun _ => ToyCollaborators ["melgan"; "msd"; "mpd"];
  dmodel := fun _ lr => lr;
  dmodel_return_spec := fun _ lr => (lr, lr);
  dmodel_return_lr_spec := fun _ lr => (lr, lr, lr);
  model_spec := fun _ hr => hr;
  match_signal := fun pr _ => pr;
  item := fun s => s;
  apply_event := fun _ w => w;
  evaluate := fun _ _ => (1, 4, ["a"; "b"])%Q;
  enhance := fun _ => ["a"; "b"];
  evaluate_on_saved_data := fun _ _ => (1, 4)%Q
|}.

Definition toy_experiment : experiment_t := {|
  adversarial := false;
  multiple_discriminators := false;
  joint_disc_optimizers := false;
  discriminator_models := [];
  discriminator_model := None;
  only_features_loss := false;
  only_adversarial_loss := false;
  features_loss_lambda := 100;
  mel_spec_loss_lambda := 45;
  mel_spec_transform := false;
  return_spec := false;
  melgan_n_layers := 4;
  melgan_num_D := 3
|}.

Definition toy_args : args_t := {|
  experiment := toy_experiment;
  losses := ["l1"];
  epochs := 3;
  continue_from := "";
  continue_best := false;
  keep_history := true;
  restart := false;
  eval_every := 2;
  cross_valid := true;
  cross_valid_every := 1;
  checkpoint := true;
  checkpoint_file := "checkpoint.th";
  best_file_parent := ".";
  best_file_name := "best.th";
  history_file := "history.json";
  samples_dir := "samples";
  valid_equals_test := false;
  evaluate_on_best := true;
  joint_evaluate_and_enhance := true;
  log_results := false
|}.

Definition toy_live : live_t := {|
  models := [("generator",
              {| model_class := "Aero"; model_state := [("w", [1%Q; 2%Q])] |})];
  optimizers := [("optimizer", Optimizer [("step", [0%Q])])]
|}.

Definition toy_solver : solver_t :=
  {| live := toy_live; history := []; best_states := None |}.

Definition empty_world : world := {| files := ∅; fault := None |}.

Definition toy_machine : machine :=
  {| m_world := empty_world; m_solver := toy_solver; m_log := [] |}.

(** ** Notions used in the statements below *)

(** The one-character strings of a string, in order. *)
Definition char_strings (s : string) : list string :=
  map (fun c => String c EmptyString) (chars s).

(** The [filename] of a test batch: [Path(hr_path[0]).stem]. *)
Definition batch_stem {T : Torch} {Tr : Trainer T} (b : path_batch)
  : result string :=
  let? p := first_path (pb_hr_path b) in
  Ok (path_stem p).

(** A test loader of two batches, and one validation pass over it. *)
Definition toy_tt_loader : loader (path_batch (Trainer := ToyTrainer)) :=
  Some (fun _ => [([1%Q; 1%Q], [0%Q; 0%Q], ["data/hr/ab.wav"]);
                  ([1%Q; 0%Q], [0%Q; 0%Q], ["data/hr/c.wav"])]).

Definition toy_valid_run
  : result (pydict Q * option (list string)) * machine :=
  _get_valid_losses_on_test_data toy_args toy_tt_loader 0 true toy_machine.

Definition toy_valid_losses : pydict Q :=
  Eval vm_compute in
    match fst toy_valid_run with
    | Ok (avg_losses, _) => avg_losses
    | Raise _ => []
    end.

(** A dictionary proper: no key twice. *)
Definition dict_wf {V} (d : pydict V) : Prop := NoDup (dict_keys d).

(** Does the key start with one of the given characters? *)
Definition head_in (cs : list ascii) (k : string) : bool :=
  match k with
  | String c _ => existsb (Ascii.eqb c) cs
  | EmptyString => false
  end.

(** The events that record a new best model, and that the evaluation ran
    on the best model. *)
Definition is_new_best (e : log_event) : bool :=
  match e with LogNewBest _ => true | _ => false end.

Definition is_loading_best (e : log_event) : bool :=
  match e with LogLoadingBestState => true | _ => false end.

Definition count_events (p : log_event -> bool) (l : list log_event) : nat :=
  length (List.filter p l).

(** What both batch loops return: a dictionary with the average total loss
    under ['total'] and under ['evaluation'], and per-term averages under
    keys that start with ['generator_'] or ['discriminator_']. *)
Definition avg_losses_shape (avg : pydict Q) (x : Q) : Prop :=
  dict_wf avg /\
  dict_get "evaluation" avg = Some x /\
  dict_get "total" avg = Some x /\
  Forall (fun k => head_in ["t"; "e"; "g"; "d"]%char k = true) (dict_keys avg).

(** Events other than the two above. *)
Definition quiet (e : log_event) : bool :=
  negb (is_new_best e || is_loading_best e).

(** From [m] to [m'] the log grew, and only by events that satisfy [p]. *)
Definition log_step (p : log_event -> bool) (m m' : machine) : Prop :=
  exists evs, m_log m' = m_log m ++ evs /\ forallb p evs = true.

Definition quiet_step (m m' : machine) : Prop := log_step quiet m m'.

Definition not_new_best (e : log_event) : bool := negb (is_new_best e).
Definition not_loading_best (e : log_event) : bool := negb (is_loading_best e).
Definition any_event (e : log_event) : bool := true.

(** ** Concrete runs *)

Definition toy_tr_loader : loader (batch (Trainer := ToyTrainer)) :=
  Some (fun _ => [([1%Q; 1%Q], [0%Q; 0%Q])]).

(** A validation set that the identity generator reproduces exactly. *)
Definition toy_cv_loader : loader (batch (Trainer := ToyTrainer)) :=
  Some (fun _ => [([0%Q; 0%Q], [0%Q; 0%Q])]).

(** One epoch whose validation loss equals its training loss. *)
Definition toy_epoch_run : result locals * machine :=
  train_epoch toy_args toy_tr_loader toy_tr_loader None [] 0 0
    initial_locals toy_machine.

Definition toy_epoch_locals : locals :=
  Eval vm_compute in
    match fst toy_epoch_run with
    | Ok loc => loc
    | Raise _ => initial_locals
    end.

(** One epoch whose validation loss is exactly zero. *)
Definition toy_zero_run : result locals * machine :=
  train_epoch toy_args toy_tr_loader toy_cv_loader None [] 0 0
    initial_locals toy_machine.

Definition toy_zero_locals : locals :=
  Eval vm_compute in
    match fst toy_zero_run with
    | Ok loc => loc
    | Raise _ => initial_locals
    end.

(** A run resumed with best states restored from a checkpoint, without
    cross validation and with an evaluation on the best model asked for
    at every epoch. *)
Definition toy_args_resume : args_t := {|
  experiment := toy_experiment;
  losses := ["l1"];
  epochs := 2;
  continue_from := "";
  continue_best := false;
  keep_history := true;
  restart := false;
  eval_every := 1;
  cross_valid := false;
  cross_valid_every := 1;
  checkpoint := true;
  checkpoint_file := "checkpoint.th";
  best_file_parent := ".";
  best_file_name := "best.th";
  history_file := "history.json";
  samples_dir := "samples";
  valid_equals_test := false;
  evaluate_on_best := true;
  joint_evaluate_and_enhance := true;
  log_results := false
|}.

Definition toy_resumed_machine : machine :=
  {| m_world := empty_world;
     m_solver := {| live := toy_live; history := [];
                    best_states :=
                      Some [("generator", [("w", [9%Q; 9%Q])])] |};
     m_log := [] |}.

Definition toy_resumed_run : result locals * machine :=
  train toy_args_resume toy_tr_loader None toy_tt_loader [] 0
    toy_resumed_machine.

Definition toy_resumed_locals : locals :=
  Eval vm_compute in
    match fst toy_resumed_run with
    | Ok loc => loc
    | Raise _ => initial_locals
    end.

(** ** The resume policy as the specification words it

    "Precedence is (1) an existing canonical checkpoint unless a restart
    was explicitly requested, else (2) an externally specified checkpoint
    to continue from (optionally best-only, optionally discarding
    history), else (3) fresh start." *)
Inductive resume_decision : Type :=
| ResumeCanonical
| ResumeExternal (path : string)
| FreshStart.

Definition resume_policy (existing_checkpoint_present : bool)
    (continue_from_path : option string) (restart_flag : bool)
  : resume_decision :=
  if existing_checkpoint_present && negb restart_flag then ResumeCanonical
  else match continue_from_path with
       | Some path => ResumeExternal path
       | None => FreshStart
       end.

(** A continue-from path is given when the string is not empty. *)
Definition given_path (s : string) : option string :=
  match s with
  | EmptyString => None
  | String _ _ => Some s
  end.

(** Adversarial training with several discriminators, each with its own
    optimiser. *)
Definition separate_experiment : experiment_t := {|
  adversarial := true;
  multiple_discriminators := true;
  joint_disc_optimizers := false;
  discriminator_models := ["melgan"; "msd"];
  discriminator_model := None;
  only_features_loss := false;
  only_adversarial_loss := false;
  features_loss_lambda := 100;
  mel_spec_loss_lambda := 45;
  mel_spec_transform := false;
  return_spec := false;
  melgan_n_layers := 4;
  melgan_num_D := 3
|}.

Definition with_experiment (a : args_t) (e : experiment_t) : args_t := {|
  experiment := e;
  losses := losses a;
  epochs := epochs a;
  continue_from := continue_from a;
  continue_best := continue_best a;
  keep_history := keep_history a;
  restart := restart a;
  eval_every := eval_every a;
  cross_valid := cross_valid a;
  cross_valid_every := cross_valid_every a;
  checkpoint := checkpoint a;
  checkpoint_file := checkpoint_file a;
  best_file_parent := best_file_parent a;
  best_file_name := best_file_name a;
  history_file := history_file a;
  samples_dir := samples_dir a;
  valid_equals_test := valid_equals_test a;
  evaluate_on_best := evaluate_on_best a;
  joint_evaluate_and_enhance := joint_evaluate_and_enhance a;
  log_results := log_results a
|}.

Definition separate_args : args_t := with_experiment toy_args separate_experiment.

(** ** The paths that [_serialize] touches *)

Definition checkpoint_tmp (args : args_t) : string :=
  checkpoint_file args +:+ ".tmp".

(** The canonical path of the best artifact of a model, and the temporary
    path it is first written to. *)
Definition best_path (args : args_t) (model_name : string) : string :=
  path_join (best_file_parent args) (best_model_filename args model_name).

Definition best_tmp (args : args_t) (model_name : string) : string :=
  best_path args model_name +:+ ".tmp".

(** No temporary path is a canonical path, and the checkpoint is not a
    best artifact. *)
Definition paths_separate (args : args_t) (names : list string) : bool :=
  forallb (fun n =>
             negb (String.eqb (checkpoint_file args) (best_tmp args n))
             && negb (String.eqb (checkpoint_file args) (best_path args n))
             && negb (String.eqb (best_path args n) (checkpoint_tmp args))
             && forallb (fun n' =>
                           negb (String.eqb (best_path args n)
                                   (best_tmp args n'))) names)
    names.

(** The model names that [_serialize] writes best artifacts for. *)
Definition best_names (s : solver_t) : list string :=
  match best_states s with
  | Some b => dict_keys b
  | None => []
  end.

(** A solver that has a best generator, and the world in which every
    operation succeeds but the third. *)
Definition toy_best_solver : solver_t :=
  {| live := toy_live; history := [];
     best_states := Some [("generator", [("w", [1%Q; 2%Q])])] |}.

Definition faulty_world : world := {| files := ∅; fault := Some (2%nat, true) |}.

Definition toy_faulty_run : result unit * world :=
  _serialize toy_args toy_best_solver faulty_world.

(** ** Notions for the symbolic reading of the losses *)

(** The mel-spectrogram L1 term of the vocoder-style variants:
    [F.l1_loss(hr_mel, pr_mel) * mel_spec_loss_lambda]. *)
Definition mel_term (args : args_t) (pr hr : sym) : sscalar :=
  SMulF (mel_spec_loss_lambda (experiment args))
    (SL1 (MelSpec hr) (MelSpec pr)).

(** The configuration with the two restricting flags set as given. *)
Definition with_only_flags (only_adversarial only_features : bool)
    (a : args_t) : args_t :=
  with_experiment a {|
    adversarial := adversarial (experiment a);
    multiple_discriminators := multiple_discriminators (experiment a);
    joint_disc_optimizers := joint_disc_optimizers (experiment a);
    discriminator_models := discriminator_models (experiment a);
    discriminator_model := discriminator_model (experiment a);
    only_features_loss := only_features;
    only_adversarial_loss := only_adversarial;
    features_loss_lambda := features_loss_lambda (experiment a);
    mel_spec_loss_lambda := mel_spec_loss_lambda (experiment a);
    mel_spec_transform := mel_spec_transform (experiment a);
    return_spec := return_spec (experiment a);
    melgan_n_layers := melgan_n_layers (experiment a);
    melgan_num_D := melgan_num_D (experiment a)
  |}.

(** Every forward pass behind the loss value satisfies [q]. *)
Definition all_passes (q : pass -> bool) (v : pynum sscalar) : bool :=
  forallb q (passes v).

Definition tensor_passes (q : pass -> bool) (t : sym) : bool :=
  forallb q (passes_of_tensor t).

(** A configuration with every discriminator variant active at once. *)
Definition all_variants_experiment : experiment_t := {|
  adversarial := true;
  multiple_discriminators := true;
  joint_disc_optimizers := false;
  discriminator_models :=
    ["melgan"; "msd"; "mpd"; "hifi"; "mbd"; "spec"; "stft"];
  discriminator_model := None;
  only_features_loss := false;
  only_adversarial_loss := false;
  features_loss_lambda := 100;
  mel_spec_loss_lambda := 45;
  mel_spec_transform := true;
  return_spec := true;
  melgan_n_layers := 4;
  melgan_num_D := 2
|}.

Definition all_variants_args : args_t :=
  with_experiment toy_args all_variants_experiment.

Definition all_dmodels : list string :=
  ["melgan"; "msd"; "mpd"; "mbd"; "spec"; "stft_disc"].

(** The symbolic losses of one batch under that configuration, with a
    melgan discriminator of two scales of three layers and an stft
    discriminator of three layers. *)
Definition all_variants_losses : result (losses_t (T := SymTorch)) :=
  _get_losses (C := SymCollaborators all_dmodels [3; 3]%nat 3) all_variants_args
    (sym_reprs Target true) (sym_reprs Prediction true).

Definition all_variants_L : losses_t (T := SymTorch) :=
  Eval vm_compute in
    match all_variants_losses with
    | Ok L => L
    | Raise _ => {| generator := []; discriminator := [] |}
    end.

(** The hifi variant restricted to its feature-matching loss. *)
Definition hifi_features_only_args : args_t :=
  with_only_flags false true all_variants_args.

(** A target tensor: it does not depend on the prediction and comes from
    no forward pass.  A prediction tensor: a gradient flows from it into
    the generator, and it comes from no forward pass. *)
Definition good_target (t : sym) : Prop :=
  mentions_prediction t = false /\ passes_of_tensor t = [].

Definition good_prediction (t : sym) : Prop :=
  attached t = true /\ mentions_prediction t = true /\ passes_of_tensor t = [].

(** The detachment discipline on a loss result: every pass behind a
    generator term consumes the prediction attached, every pass behind a
    discriminator term consumes it detached. *)
Definition losses_ok (L : losses_t (T := SymTorch)) : Prop :=
  Forall (fun kv => all_passes consumes_attached (snd kv) = true)
    (generator L) /\
  Forall (fun kv => all_passes consumes_detached (snd kv) = true)
    (discriminator L).

(** The weight that [stft_feature_loss] applies: the sum of the layer
    terms is divided by the number of internal layers. *)
Definition stft_feature_weight (num_internal_layers : Z) : Q :=
  (1 / inject_Z num_internal_layers)%Q.

(** A single-scale discriminator whose one internal layer is at distance
    one between the real and the fake pass. *)
Definition unit_distance_fake : list (list Q) := [[0%Q]; [0%Q]].
Definition unit_distance_real : list (list Q) := [[1%Q]; [0%Q]].

(** A multi-scale discriminator of two scales with two internal layers
    each, and a configuration with [n_layers = 1], [num_D = 2]. *)
Definition two_scale_fake : list (list (list Q)) :=
  [[[0%Q]; [0%Q]; [0%Q]]; [[0%Q]; [0%Q]; [0%Q]]].
Definition two_scale_real : list (list (list Q)) :=
  [[[1%Q]; [2%Q]; [0%Q]]; [[3%Q]; [4%Q]; [0%Q]]].

Definition two_scale_experiment : experiment_t := {|
  adversarial := true;
  multiple_discriminators := false;
  joint_disc_optimizers := false;
  discriminator_models := [];
  discriminator_model := Some "melgan";
  only_features_loss := false;
  only_adversarial_loss := false;
  features_loss_lambda := 100;
  mel_spec_loss_lambda := 45;
  mel_spec_transform := false;
  return_spec := false;
  melgan_n_layers := 1;
  melgan_num_D := 2
|}.

Definition two_scale_args : args_t :=
  with_experiment toy_args two_scale_experiment.

(** ** Loading as the specification words it

    "[load(path, load_best)] reads either the latest full state or, if
    [load_best] is set, only the best-known model states", and "loading a
    checkpoint must restore the exact parameter values of the requested
    variant (full or best)". *)

(** The model with other parameters. *)
Definition with_state (m : model_t) (state : state_dict) : model_t :=
  {| model_class := model_class m; model_state := state |}.

(** The models, each with the parameters that [saved] records under its
    name; a model that [saved] does not name keeps its parameters. *)
Definition restore_models (saved : pydict state_dict) (ms : pydict model_t)
  : pydict model_t :=
  map (fun item =>
         (fst item,
          match dict_get (fst item) saved with
          | Some state => with_state (snd item) state
          | None => snd item
          end)) ms.

(** The best-only variant: the models get the best-known states of the
    checkpoint, the optimisers are left alone.  A checkpoint without best
    states has no such variant. *)
Definition spec_load_best (package : package_t) (w : live_t)
  : option live_t :=
  match pkg_best_states package with
  | Some best =>
      Some {| models := restore_models best (models w);
              optimizers := optimizers w |}
  | None => None
  end.

(** A solver after one epoch whose best generator differs from the live
    one, and the files its checkpoint leaves. *)
Definition trained_solver : solver_t :=
  {| live := toy_live;
     history := [[("evaluation_loss", 1%Q)]];
     best_states := Some [("generator", [("w", [9%Q; 9%Q])])] |}.

Definition trained_world : world :=
  snd (_serialize toy_args trained_solver empty_world).

(** A second run that continues from that checkpoint, best-only. *)
Definition resume_best_args : args_t := {|
  experiment := toy_experiment;
  losses := ["l1"];
  epochs := 3;
  continue_from := "checkpoint.th";
  continue_best := true;
  keep_history := true;
  restart := false;
  eval_every := 2;
  cross_valid := true;
  cross_valid_every := 1;
  checkpoint := true;
  checkpoint_file := "run2/checkpoint.th";
  best_file_parent := "run2";
  best_file_name := "best.th";
  history_file := "run2/history.json";
  samples_dir := "run2/samples";
  valid_equals_test := false;
  evaluate_on_best := true;
  joint_evaluate_and_enhance := true;
  log_results := false
|}.

(** ** Notions for the stepping policies *)

(** Adversarial mode under the stepping policy given by the two flags. *)
Definition with_policy (multiple joint : bool) (a : args_t) : args_t :=
  with_experiment a {|
    adversarial := true;
    multiple_discriminators := multiple;
    joint_disc_optimizers := joint;
    discriminator_models := discriminator_models (experiment a);
    discriminator_model := discriminator_model (experiment a);
    only_features_loss := only_features_loss (experiment a);
    only_adversarial_loss := only_adversarial_loss (experiment a);
    features_loss_lambda := features_loss_lambda (experiment a);
    mel_spec_loss_lambda := mel_spec_loss_lambda (experiment a);
    mel_spec_transform := mel_spec_transform (experiment a);
    return_spec := return_spec (experiment a);
    melgan_n_layers := melgan_n_layers (experiment a);
    melgan_num_D := melgan_num_D (experiment a)
  |}.

(** One optimiser's round on one loss tensor. *)
Definition round {S} (optimizer : string) (loss : S) : list (opt_event S) :=
  [ZeroGrad optimizer; Backward loss; Step optimizer].

(** The rounds of the discriminators of a mapping of loss tensors, each on
    the optimiser of its own name, in the order of the mapping. *)
Definition own_rounds {S} (losses : pydict S) : list (opt_event S) :=
  flat_map (fun item => round (fst item) (snd item)) losses.

(** A mapping of loss tensors as the mapping of Python values it is. *)
Definition tensors {S} (losses : pydict S) : pydict (pynum S) :=
  map (fun item => (fst item, PyTensor (snd item))) losses.

(** Two discriminator losses, to run the policies on. *)
Definition two_losses : pydict Q := [("melgan", 1%Q); ("msd", 2%Q)].

(** ** Configurations for the edge cases of the loss composer *)

Definition with_losses (a : args_t) (names : list string) : args_t := {|
  experiment := experiment a;
  losses := names;
  epochs := epochs a;
  continue_from := continue_from a;
  continue_best := continue_best a;
  keep_history := Args.keep_history a;
  restart := restart a;
  eval_every := eval_every a;
  cross_valid := cross_valid a;
  cross_valid_every := cross_valid_every a;
  checkpoint := checkpoint a;
  checkpoint_file := checkpoint_file a;
  best_file_parent := best_file_parent a;
  best_file_name := best_file_name a;
  history_file := history_file a;
  samples_dir := samples_dir a;
  valid_equals_test := valid_equals_test a;
  evaluate_on_best := evaluate_on_best a;
  joint_evaluate_and_enhance := joint_evaluate_and_enhance a;
  log_results := Args.log_results a
|}.

(** The perceptual loss asked for besides the L1 loss. *)
Definition perceptual_args : args_t :=
  with_losses toy_args ["l1"; "perceptual"].

(** Several discriminators with hifi listed, and none of the three
    conditions under which [__init__] creates the mel transform. *)
Definition listed_hifi_experiment : experiment_t := {|
  adversarial := true;
  multiple_discriminators := true;
  joint_disc_optimizers := false;
  discriminator_models := ["msd"; "hifi"];
  discriminator_model := None;
  only_features_loss := false;
  only_adversarial_loss := false;
  features_loss_lambda := 100;
  mel_spec_loss_lambda := 45;
  mel_spec_transform := false;
  return_spec := false;
  melgan_n_layers := 4;
  melgan_num_D := 3
|}.

Definition listed_hifi_args : args_t :=
  with_experiment toy_args listed_hifi_experiment.

(** The names of [args.losses] that [_get_losses] knows besides
    ['perceptual'], in the order in which it looks for them. *)
Definition plain_loss_names : list string :=
  ["l1"; "l2"; "stft"; "mel"; "spectral_l1"; "spectral_l2"].

(** The keys under which a variant with separate adversarial and
    features terms files them. *)
Definition adversarial_key (variant : string) : string :=
  "adversarial_" +:+ variant.
Definition features_key (variant : string) : string :=
  "features_" +:+ variant.

(** ** Loaders and configurations for the edges of the epoch loop *)

(** A training loader that yields no batch. *)
Definition empty_tr_loader : loader (batch (Trainer := ToyTrainer)) :=
  Some (fun _ => []).

(** No loss configured at all. *)
Definition lossless_args : args_t := with_losses toy_args [].

(** Every name that [_get_losses] looks for in [args.losses]. *)
Definition known_loss_names : list string := "perceptual" :: plain_loss_names.

Definition with_cadence (a : args_t) (eval cv : nat) : args_t := {|
  experiment := experiment a;
  losses := losses a;
  epochs := epochs a;
  continue_from := continue_from a;
  continue_best := continue_best a;
  keep_history := Args.keep_history a;
  restart := restart a;
  eval_every := eval;
  cross_valid := cross_valid a;
  cross_valid_every := cv;
  checkpoint := checkpoint a;
  checkpoint_file := checkpoint_file a;
  best_file_parent := best_file_parent a;
  best_file_name := best_file_name a;
  history_file := history_file a;
  samples_dir := samples_dir a;
  valid_equals_test := valid_equals_test a;
  evaluate_on_best := evaluate_on_best a;
  joint_evaluate_and_enhance := joint_evaluate_and_enhance a;
  log_results := Args.log_results a
|}.

(** The machine of a run whose history already has its three epochs. *)
Definition finished_machine : machine :=
  {| m_world := empty_world;
     m_solver :=
       {| live := toy_live;
          history := [[("total_loss", 3%Q)]; [("total_loss", 2%Q)];
                      [("total_loss", 1%Q)]];
          best_states := Some [("generator", [("w", [9%Q; 9%Q])])] |};
     m_log := [] |}.

(** Three epochs of the toy run, from a fresh solver. *)
Definition toy_train_run : result locals * machine :=
  train toy_args toy_tr_loader toy_cv_loader None [] 0 toy_machine.

(** The parameters that a checkpoint records for each model. *)
Definition package_states (package : package_t) : pydict state_dict :=
  map (fun item => (fst item, mp_state (snd item))) (pkg_models package).

(** The optimisers, each with the state that [saved] records under its
    name; an optimiser that [saved] does not name keeps its state. *)
Definition restore_optimizers (saved os : pydict opt_entry)
  : pydict opt_entry :=
  map (fun item =>
         (fst item,
          match dict_get (fst item) saved with
          | Some state => state
          | None => snd item
          end)) os.

(** One optimiser per entry: no dictionary of optimisers among them. *)
Definition flat_optimizers (os : pydict opt_entry) : bool :=
  forallb (fun item => match snd item with
                       | Optimizer _ => true
                       | OptimizerGroup _ => false
                       end) os.

(** The first model (optimiser) of the checkpoint that the solver does
    not have. *)
Definition first_missing {V W} (saved : pydict V) (have : pydict W)
  : option string :=
  match List.find (fun item => negb (dict_mem (fst item) have)) saved with
  | Some item => Some (fst item)
  | None => None
  end.
(** Two solvers with the same models and optimisers up to their states:
    the same names in the same order, each model of the same class. *)
Definition same_models (a b : pydict model_t) : Prop :=
  map (fun item => (fst item, model_class (snd item))) a
  = map (fun item => (fst item, model_class (snd item))) b.

Definition same_structure (a b : live_t) : Prop :=
  same_models (models a) (models b) /\
  dict_keys (optimizers a) = dict_keys (optimizers b) /\
  flat_optimizers (optimizers a) = true.

(** One optimiser per entry is what [__init__] builds unless there are
    several discriminators with an optimiser each. *)
Definition separate_optimizers (a : args_t) : bool :=
  multiple_discriminators_mode a && negb (joint_disc_optimizers_mode a).

(** The solver constructed anew for the toy run, before it resumes: the
    same generator with other parameters, the same optimiser reset. *)
Definition fresh_toy_live : live_t := {|
  models := [("generator",
              {| model_class := "Aero"; model_state := [("w", [0%Q; 0%Q])] |})];
  optimizers := [("optimizer", Optimizer [("step", [7%Q])])]
|}.

(* ===================================================================== *)
(** * Properties *)
(* ===================================================================== *)

(** ** Reasoning about the two monads *)

Lemma rbind_ok {A B} (r : result A) (k : A -> result B) (b : B) :
  rbind r k = Ok b -> exists a, r = Ok a /\ k a = Ok b.
Proof.
  destruct r as [a|e]; simpl; intros H; [eauto | discriminate].
Qed.

Lemma pbind_ok {St A B} (m : prog St A) (k : A -> prog St B) st b st' :
  pbind m k st = (Ok b, st') ->
  exists a st1, m st = (Ok a, st1) /\ k a st1 = (Ok b, st').
Proof.
  unfold pbind. destruct (m st) as [[a|e] st1]; intros H.
  - eauto.
  - inversion H.
Qed.

Lemma plift_ok {St A} (r : result A) (st : St) a st' :
  plift r st = (Ok a, st') -> r = Ok a /\ st' = st.
Proof. unfold plift. intros H. inversion H. auto. Qed.

Lemma pret_ok {St A} (x : A) (st : St) a st' :
  pret x st = (Ok a, st') -> a = x /\ st' = st.
Proof. unfold pret. intros H. inversion H. auto. Qed.

(** Take a successful run apart, bind by bind. *)
Ltac prog_inv H :=
  repeat match type of H with
  | pbind _ _ _ = (Ok _, _) =>
      let a := fresh "a" in
      let st := fresh "st" in
      let H1 := fresh "Hrun" in
      apply pbind_ok in H; destruct H as (a & st & H1 & H)
  end.

Ltac result_inv H :=
  repeat match type of H with
  | rbind _ _ = Ok _ =>
      let a := fresh "a" in
      let H1 := fresh "Hres" in
      apply rbind_ok in H; destruct H as (a & H1 & H)
  end.

(** An invariant of the processed prefix, the loop-carried variables and
    the state holds at the end of a loop. *)
Lemma pfor_in_ind {St A S} (I : list A -> S -> St -> Prop)
    (body : A -> S -> prog St S) :
  (forall done x s st s' st',
      I done s st -> body x s st = (Ok s', st') -> I (done ++ [x]) s' st') ->
  forall xs done s st s' st',
    I done s st -> pfor_in xs body s st = (Ok s', st') -> I (done ++ xs) s' st'.
Proof.
  intros Hstep xs. induction xs as [|x xs IH]; intros done s st s' st' HI Hrun.
  - simpl in Hrun. apply pret_ok in Hrun as [-> ->]. now rewrite app_nil_r.
  - simpl in Hrun. apply pbind_ok in Hrun as (s1 & st1 & Hx & Hrest).
    replace (done ++ x :: xs) with ((done ++ [x]) ++ xs)
      by now rewrite <- app_assoc.
    eapply IH; [|exact Hrest]. eapply Hstep; eauto.
Qed.

Lemma for_in_ind {A S} (I : list A -> S -> Prop)
    (body : A -> S -> result S) :
  (forall done x s s', I done s -> body x s = Ok s' -> I (done ++ [x]) s') ->
  forall xs done s s',
    I done s -> for_in xs body s = Ok s' -> I (done ++ xs) s'.
Proof.
  intros Hstep xs. induction xs as [|x xs IH]; intros done s s' HI Hrun.
  - simpl in Hrun. inversion Hrun; subst. now rewrite app_nil_r.
  - simpl in Hrun. apply rbind_ok in Hrun as (s1 & Hx & Hrest).
    replace (done ++ x :: xs) with ((done ++ [x]) ++ xs)
      by now rewrite <- app_assoc.
    eapply IH; [|exact Hrest]. eapply Hstep; eauto.
Qed.

(** ** Dictionaries *)

Lemma dict_get_set_eq {V} (k : string) (v : V) (d : pydict V) :
  dict_get k (dict_set k v d) = Some v.
Proof.
  induction d as [|[k' v'] d IH]; simpl.
  - now rewrite String.eqb_refl.
  - destruct (String.eqb k k') eqn:E; simpl.
    + now rewrite String.eqb_refl.
    + now rewrite E.
Qed.

Lemma dict_get_set_ne {V} (k k' : string) (v : V) (d : pydict V) :
  k <> k' -> dict_get k (dict_set k' v d) = dict_get k d.
Proof.
  intros Hne. induction d as [|[k1 v1] d IH]; simpl.
  - apply String.eqb_neq in Hne. now rewrite Hne.
  - destruct (String.eqb k' k1) eqn:E; simpl.
    + apply String.eqb_eq in E. subst k1.
      apply String.eqb_neq in Hne. now rewrite Hne.
    + destruct (String.eqb k k1); [reflexivity | exact IH].
Qed.

Lemma dict_keys_set {V} (k : string) (v : V) (d : pydict V) :
  dict_keys (dict_set k v d)
  = if dict_mem k d then dict_keys d else dict_keys d ++ [k].
Proof.
  unfold dict_mem. induction d as [|[k1 v1] d IH]; simpl.
  - reflexivity.
  - destruct (String.eqb k k1) eqn:E; simpl.
    + apply String.eqb_eq in E. now subst.
    + rewrite IH. now destruct (dict_get k d).
Qed.

Lemma dict_get_none_keys {V} (k : string) (d : pydict V) :
  dict_get k d = None <-> ~ In k (dict_keys d).
Proof.
  induction d as [|[k1 v1] d IH]; simpl.
  - tauto.
  - destruct (String.eqb k k1) eqn:E.
    + apply String.eqb_eq in E. subst. split; [discriminate | tauto].
    + apply String.eqb_neq in E. rewrite IH. split.
      * intros H [H1 | H1]; [congruence | tauto].
      * tauto.
Qed.

Lemma dict_set_wf {V} (k : string) (v : V) (d : pydict V) :
  dict_wf d -> dict_wf (dict_set k v d).
Proof.
  unfold dict_wf. intros Hwf. rewrite dict_keys_set. unfold dict_mem.
  destruct (dict_get k d) eqn:E; [exact Hwf|].
  apply dict_get_none_keys in E.
  apply NoDup_app. split; [exact Hwf|]. split.
  - intros x Hx Hy. apply list_elem_of_In in Hx. apply list_elem_of_In in Hy.
    destruct Hy as [Hy | []]. subst x. now apply E.
  - constructor; [intros H; inversion H | constructor].
Qed.

(** The fold behind [dict_update] and [dict_rekey]. *)
Lemma fold_set_wf {V} (f : string -> string) (e acc : pydict V) :
  dict_wf acc ->
  dict_wf (fold_left (fun acc kv => dict_set (f (fst kv)) (snd kv) acc) e acc).
Proof.
  revert acc. induction e as [|[k v] e IH]; intros acc Hwf; simpl.
  - exact Hwf.
  - apply IH. now apply dict_set_wf.
Qed.

Lemma fold_set_get {V} (f : string -> string) (e acc : pydict V) (k : string) :
  (forall a b, f a = f b -> a = b) ->
  dict_wf e ->
  dict_get (f k)
    (fold_left (fun acc kv => dict_set (f (fst kv)) (snd kv) acc) e acc)
  = match dict_get k e with
    | Some v => Some v
    | None => dict_get (f k) acc
    end.
Proof.
  intros Hinj. revert acc.
  induction e as [|[k1 v1] e IH]; intros acc Hwf; simpl.
  - reflexivity.
  - inversion Hwf as [|? ? Hnot Hwf']; subst.
    rewrite IH by exact Hwf'. simpl.
    destruct (String.eqb k k1) eqn:E.
    + apply String.eqb_eq in E. subst k1.
      rewrite list_elem_of_In in Hnot.
      apply dict_get_none_keys in Hnot. rewrite Hnot.
      apply dict_get_set_eq.
    + apply String.eqb_neq in E.
      destruct (dict_get k e); [reflexivity|].
      apply dict_get_set_ne. intros Heq. apply E. now apply Hinj.
Qed.

(** A key that the fold cannot produce is left alone. *)
Lemma fold_set_get_other {V} (f : string -> string) (e acc : pydict V)
    (k : string) :
  (forall a, In a (dict_keys e) -> f a <> k) ->
  dict_get k
    (fold_left (fun acc kv => dict_set (f (fst kv)) (snd kv) acc) e acc)
  = dict_get k acc.
Proof.
  revert acc. induction e as [|[k1 v1] e IH]; intros acc Hk; simpl.
  - reflexivity.
  - rewrite IH by (intros a Ha; apply Hk; simpl; tauto).
    apply dict_get_set_ne. intros Heq. apply (Hk k1); simpl; auto.
Qed.

Lemma fold_set_keys {V} (f : string -> string) (e acc : pydict V) (k : string) :
  In k (dict_keys
          (fold_left (fun acc kv => dict_set (f (fst kv)) (snd kv) acc) e acc)) ->
  In k (dict_keys acc) \/ exists a, In a (dict_keys e) /\ k = f a.
Proof.
  revert acc. induction e as [|[k1 v1] e IH]; intros acc Hin; simpl in *.
  - now left.
  - apply IH in Hin as [Hin | (a & Ha & ->)].
    + rewrite dict_keys_set in Hin.
      destruct (dict_mem k1 acc).
      * destruct (dict_mem (f k1) acc); [now left|].
        apply in_app_or in Hin as [Hin | [<- | []]]; [now left|].
        right. exists k1. auto.
      * destruct (dict_mem (f k1) acc); [now left|].
        apply in_app_or in Hin as [Hin | [<- | []]]; [now left|].
        right. exists k1. auto.
    + right. exists a. auto.
Qed.

Lemma dict_update_wf {V} (d e : pydict V) : dict_wf d -> dict_wf (dict_update d e).
Proof. apply (fold_set_wf (fun k => k)). Qed.

Lemma dict_rekey_wf {V} (f : string -> string) (d : pydict V) :
  dict_wf (dict_rekey f d).
Proof. apply fold_set_wf. constructor. Qed.

Lemma dict_update_get {V} (d e : pydict V) (k : string) :
  dict_wf e ->
  dict_get k (dict_update d e)
  = match dict_get k e with Some v => Some v | None => dict_get k d end.
Proof. apply (fold_set_get (fun k => k)). auto. Qed.

Lemma dict_rekey_get {V} (f : string -> string) (d : pydict V) (k : string) :
  (forall a b, f a = f b -> a = b) -> dict_wf d ->
  dict_get (f k) (dict_rekey f d) = dict_get k d.
Proof.
  intros Hinj Hwf. unfold dict_rekey. rewrite fold_set_get by assumption.
  now destruct (dict_get k d).
Qed.

Lemma dict_rekey_keys {V} (f : string -> string) (d : pydict V) (k : string) :
  In k (dict_keys (dict_rekey f d)) -> exists a, In a (dict_keys d) /\ k = f a.
Proof.
  intros Hin. apply fold_set_keys in Hin as [[] | H]. exact H.
Qed.

Lemma dict_update_keys {V} (d e : pydict V) (k : string) :
  In k (dict_keys (dict_update d e)) ->
  In k (dict_keys d) \/ In k (dict_keys e).
Proof.
  intros Hin. apply (fold_set_keys (fun k => k)) in Hin as [H | (a & Ha & ->)];
    auto.
Qed.

(** ** The filename accumulator of [_get_valid_losses_on_test_data] *)

Lemma char_strings_length (s : string) :
  Forall (fun f => String.length f = 1%nat) (char_strings s).
Proof.
  unfold char_strings. apply List.Forall_forall. intros f Hf.
  apply List.in_map_iff in Hf as (c & <- & _). reflexivity.
Qed.

Lemma flat_map_char_strings_length (stems : list string) :
  Forall (fun f => String.length f = 1%nat) (flat_map char_strings stems).
Proof.
  induction stems as [|s stems IH]; simpl.
  - constructor.
  - apply List.Forall_app. split; [apply char_strings_length | exact IH].
Qed.

Lemma combine_seq_snd {A} (l : list A) (start : nat) :
  map snd (combine (seq start (length l)) l) = l.
Proof.
  revert start. induction l as [|x l IH]; intros start; simpl.
  - reflexivity.
  - now rewrite IH.
Qed.

(** C9.  In every batch [_get_valid_losses_on_test_data] runs
    [total_filenames += filename] with [filename] a string, which appends
    the characters of the filename one by one.  So, when the pass
    succeeds, the list it returns with [enhance] set is the concatenation,
    over the batches in order, of the one-character strings of each
    batch's filename stem: every element has length one, and no stem of
    two or more characters is an element. *)
Theorem valid_filenames_are_characters {T : Torch} {Tr : Trainer T}
    (args : args_t) (tt_loader : loader path_batch) (epoch : nat)
    (enhance : bool) (m m' : machine) (avg_losses : pydict Q)
    (filenames : option (list string)) :
  _get_valid_losses_on_test_data args tt_loader epoch enhance m
    = (Ok (avg_losses, filenames), m') ->
  exists batches stems,
    loader_batches tt_loader epoch = Ok batches /\
    Forall2 (fun b stem => batch_stem b = Ok stem) batches stems /\
    filenames = (if enhance then Some (flat_map char_strings stems) else None) /\
    Forall (fun f => String.length f = 1%nat) (flat_map char_strings stems) /\
    (forall stem, In stem stems -> (2 <= String.length stem)%nat ->
                  ~ In stem (flat_map char_strings stems)).
Proof.
  intros Hrun. unfold _get_valid_losses_on_test_data in Hrun.
  apply pbind_ok in Hrun as (batches & st1 & Hb & Hrun).
  apply plift_ok in Hb as [Hb ->].
  apply pbind_ok in Hrun as (acc & st2 & Hloop & Hrun).
  apply pbind_ok in Hrun as (avg & st3 & _ & Hrun).
  apply pret_ok in Hrun as [Heq _]. inversion Heq; subst; clear Heq.
  set (I := fun (done : list (nat * path_batch)) (acc : totals)
                (_ : machine) =>
              exists stems,
                Forall2 (fun b stem => batch_stem b = Ok stem)
                  (map snd done) stems /\
                t_total_filenames acc = flat_map char_strings stems).
  assert (HI : I ([] ++ combine (seq 0 (length batches)) batches) acc st2).
  { eapply (pfor_in_ind I); [| | exact Hloop].
    - clear. intros done [i data] acc st acc' st' (stems & Hst & Hfn) Hbody.
      apply pbind_ok in Hbody as (p & st1 & Hp & Hbody).
      apply plift_ok in Hp as [Hp ->].
      apply pbind_ok in Hbody as (s & st2 & _ & Hbody).
      destruct (dmodel_return_lr_spec (live s) (pb_lr data))
        as [[pr_time pr_spec] lr_spec].
      prog_inv Hbody.
      apply pret_ok in Hbody as [-> _].
      exists (stems ++ [path_stem p]). split.
      + rewrite map_app. apply Forall2_app; [exact Hst|].
        constructor; [|constructor]. simpl. unfold batch_stem. now rewrite Hp.
      + simpl. rewrite Hfn. unfold list_iadd_str.
        rewrite flat_map_app. simpl. now rewrite app_nil_r.
    - exists []. split; [constructor | reflexivity]. }
  destruct HI as (stems & Hst & Hfn). simpl in Hst.
  rewrite combine_seq_snd in Hst.
  exists batches, stems. split; [exact Hb|]. split; [exact Hst|].
  split; [now rewrite Hfn|]. split; [apply flat_map_char_strings_length|].
  intros stem _ Hlen Hin.
  pose proof (flat_map_char_strings_length stems) as Hall.
  rewrite List.Forall_forall in Hall. apply Hall in Hin. lia.
Qed.

(** The pass over two test files named [ab.wav] and [c.wav] returns the
    three letters. *)
Lemma valid_filenames_witness :
  toy_valid_run
    = (Ok (toy_valid_losses, Some ["a"; "b"; "c"]), snd toy_valid_run) /\
  exists batches stems,
    loader_batches toy_tt_loader 0 = Ok batches /\
    Forall2 (fun b stem => batch_stem b = Ok stem) batches stems /\
    Some ["a"; "b"; "c"] = Some (flat_map char_strings stems) /\
    Forall (fun f => String.length f = 1%nat) (flat_map char_strings stems) /\
    (forall stem, In stem stems -> (2 <= String.length stem)%nat ->
                  ~ In stem (flat_map char_strings stems)).
Proof.
  split; [vm_compute; reflexivity|].
  apply (valid_filenames_are_characters toy_args toy_tt_loader 0%nat true
           toy_machine (snd toy_valid_run) toy_valid_losses
           (Some ["a"; "b"; "c"])).
  vm_compute; reflexivity.
Defined.

(** ** Strings *)

Lemma string_length_append (a b : string) :
  String.length (a +:+ b) = (String.length a + String.length b)%nat.
Proof. induction a as [|c a IH]; simpl; [reflexivity | now rewrite IH]. Qed.

Lemma append_inj_r (s a b : string) : a +:+ s = b +:+ s -> a = b.
Proof.
  revert b. induction a as [|c a IH]; intros [|c' b] H; simpl in H.
  - reflexivity.
  - apply (f_equal String.length) in H. simpl in H.
    rewrite !string_length_append in H. simpl in H. lia.
  - apply (f_equal String.length) in H. simpl in H.
    rewrite !string_length_append in H. simpl in H. lia.
  - inversion H; subst. f_equal. now apply IH.
Qed.

Lemma head_in_append (cs : list ascii) (k s : string) :
  head_in cs k = true -> head_in cs (k +:+ s) = true.
Proof. destruct k; simpl; [discriminate | auto]. Qed.

(** ** The averaged losses of an epoch *)

Lemma accumulate_keys {T : Torch} {Tr : Trainer T} (prefix : string)
    (d : pydict (pynum scalar)) (tl tl' : pydict Q) (P : string -> Prop) :
  (forall n, P (prefix +:+ n)) ->
  accumulate prefix d tl = Ok tl' ->
  dict_wf tl /\ Forall P (dict_keys tl) ->
  dict_wf tl' /\ Forall P (dict_keys tl').
Proof.
  intros HP Hacc Htl. unfold accumulate in Hacc.
  change tl with ([] ++ tl) in Htl.
  revert Hacc.
  generalize dependent tl. revert tl'.
  induction d as [|[n v] d IH]; intros tl' tl Htl Hacc; simpl in Hacc.
  - inversion Hacc; subst. exact Htl.
  - apply rbind_ok in Hacc as (tl1 & Hstep & Hrest).
    apply rbind_ok in Hstep as (x & _ & Hstep).
    eapply (IH tl' tl1); [|exact Hrest]. simpl in *.
    assert (Hset : forall y, dict_wf (dict_set (prefix +:+ n) y tl) /\
                             Forall P (dict_keys (dict_set (prefix +:+ n) y tl))).
    { intros y. destruct Htl as [Hwf Hall]. split; [now apply dict_set_wf|].
      rewrite dict_keys_set. destruct (dict_mem (prefix +:+ n) tl); [exact Hall|].
      apply List.Forall_app. split; [exact Hall|]. constructor; [apply HP|constructor]. }
    destruct (dict_get (prefix +:+ n) tl); inversion Hstep; subst; apply Hset.
Qed.

Lemma average_losses_shape {T : Torch} {Tr : Trainer T}
    (i : option nat) (total : Q) (tl avg : pydict Q) :
  average_losses i total tl = Ok avg ->
  dict_wf tl ->
  Forall (fun k => head_in ["g"; "d"]%char k = true) (dict_keys tl) ->
  exists x, avg_losses_shape avg x.
Proof.
  unfold average_losses. destruct i as [i|]; [|discriminate].
  intros H Hwf Hall. inversion H; subst; clear H.
  set (n := inject_Z (Z.of_nat (i + 1))).
  set (x := (total / n)%Q).
  exists x.
  set (f := fun (avg_losses : pydict Q) (entry : string * Q) =>
              let '(loss_name, loss) := entry in
              dict_update avg_losses [(loss_name, (loss / n)%Q)]).
  assert (Hgen : forall tl acc,
             Forall (fun k => head_in ["g"; "d"]%char k = true) (dict_keys tl) ->
             avg_losses_shape acc x -> avg_losses_shape (fold_left f tl acc) x).
  { clear. induction tl as [|[k v] tl IH]; intros acc Hall Hacc; simpl.
    - exact Hacc.
    - inversion Hall as [|? ? Hk Hall']; subst. apply IH; [exact Hall'|].
      unfold dict_update. simpl.
      destruct Hacc as (Hwf & He & Ht & Hk').
      assert (k <> "evaluation" /\ k <> "total") as [Hne1 Hne2].
      { split; intros ->; discriminate Hk. }
      repeat split.
      + now apply dict_set_wf.
      + rewrite dict_get_set_ne by congruence. exact He.
      + rewrite dict_get_set_ne by congruence. exact Ht.
      + rewrite dict_keys_set. destruct (dict_mem k acc); [exact Hk'|].
        apply List.Forall_app. split; [exact Hk'|].
        constructor; [|constructor].
        destruct k as [|c k]; [discriminate|]. simpl in *.
        rewrite !orb_false_r in *. rewrite Hk. now rewrite !orb_true_r. }
  apply Hgen; [exact Hall|].
  repeat split.
  - apply (dict_update_wf [("total", x)] [("evaluation", x)]).
    constructor; [intros H; inversion H | constructor].
  - repeat constructor.
Qed.

(** ** Frame properties of the steps of an epoch *)

Lemma log_step_refl (p : log_event -> bool) (m : machine) : log_step p m m.
Proof. exists []. split; [now rewrite app_nil_r | reflexivity]. Qed.

Lemma log_step_trans (p : log_event -> bool) (m1 m2 m3 : machine) :
  log_step p m1 m2 -> log_step p m2 m3 -> log_step p m1 m3.
Proof.
  intros (e1 & H1 & Q1) (e2 & H2 & Q2). exists (e1 ++ e2). split.
  - now rewrite H2, H1, app_assoc.
  - rewrite forallb_app. now rewrite Q1, Q2.
Qed.

Lemma log_step_weaken (p q : log_event -> bool) (m m' : machine) :
  (forall e, p e = true -> q e = true) -> log_step p m m' -> log_step q m m'.
Proof.
  intros Hpq (evs & Hl & Hp). exists evs. split; [exact Hl|].
  rewrite forallb_forall in *. auto.
Qed.

Lemma log_step_eq (p : log_event -> bool) (m m' : machine) :
  m_log m' = m_log m -> log_step p m m'.
Proof. intros H. exists []. split; [now rewrite app_nil_r | reflexivity]. Qed.

Lemma log_run (e : log_event) (m : machine) (u : unit) (m' : machine) :
  log e m = (Ok u, m') ->
  m_world m' = m_world m /\ m_solver m' = m_solver m /\
  m_log m' = m_log m ++ [e].
Proof. unfold log, pmodify. intros H. inversion H; subst. simpl. auto. Qed.

Lemma log_step_log (p : log_event -> bool) (e : log_event) (m : machine)
    (u : unit) (m' : machine) :
  p e = true -> log e m = (Ok u, m') ->
  m_world m' = m_world m /\ m_solver m' = m_solver m /\ log_step p m m'.
Proof.
  intros Hq H. apply log_run in H as (Hw & Hs & Hl). repeat split; auto.
  exists [e]. split; [exact Hl | simpl; now rewrite Hq].
Qed.

(** Events that [p] admits and [q] rejects do not change the count of
    [q]. *)
Lemma log_step_count (p q : log_event -> bool) (m m' : machine) :
  (forall e, p e = true -> q e = false) ->
  log_step p m m' ->
  count_events q (m_log m') = count_events q (m_log m).
Proof.
  intros Hpq (evs & -> & Hp). unfold count_events.
  rewrite List.filter_app, length_app.
  assert (H : List.filter q evs = []).
  { induction evs as [|e evs IH]; simpl in *; [auto|].
    apply andb_true_iff in Hp as [He Hp]. rewrite (Hpq e He). auto. }
  rewrite H. simpl. lia.
Qed.

Lemma log_step_count_le (p q : log_event -> bool) (m m' : machine) :
  log_step p m m' ->
  (count_events q (m_log m) <= count_events q (m_log m'))%nat.
Proof.
  intros (evs & -> & _). unfold count_events.
  rewrite List.filter_app, length_app. lia.
Qed.

Lemma quiet_not_new_best (e : log_event) : quiet e = true -> is_new_best e = false.
Proof. unfold quiet. intros H. now apply negb_true_iff, orb_false_iff in H. Qed.

Lemma quiet_not_loading_best (e : log_event) :
  quiet e = true -> is_loading_best e = false.
Proof. unfold quiet. intros H. now apply negb_true_iff, orb_false_iff in H. Qed.

Lemma get_solver_run (m : machine) (s : solver_t) (m' : machine) :
  get_solver m = (Ok s, m') -> s = m_solver m /\ m' = m.
Proof. unfold get_solver. intros H. inversion H. auto. Qed.

Lemma put_solver_run (s : solver_t) (m : machine) (u : unit) (m' : machine) :
  put_solver s m = (Ok u, m') ->
  m_world m' = m_world m /\ m_solver m' = s /\ m_log m' = m_log m.
Proof. unfold put_solver, pmodify. intros H. inversion H. simpl. auto. Qed.

Lemma in_world_run {A} (p : prog world A) (m : machine) (a : A) (m' : machine) :
  in_world p m = (Ok a, m') ->
  p (m_world m) = (Ok a, m_world m') /\
  m_solver m' = m_solver m /\ m_log m' = m_log m.
Proof.
  unfold in_world. destruct (p (m_world m)) as [r w] eqn:E.
  intros H. inversion H; subst. simpl. auto.
Qed.

Lemma in_live_run {A} (p : prog live_t A) (m : machine) (a : A) (m' : machine) :
  in_live p m = (Ok a, m') ->
  p (live (m_solver m)) = (Ok a, live (m_solver m')) /\
  history (m_solver m') = history (m_solver m) /\
  best_states (m_solver m') = best_states (m_solver m) /\
  m_world m' = m_world m /\ m_log m' = m_log m.
Proof.
  unfold in_live. destruct (p (live (m_solver m))) as [r w] eqn:E.
  intros H. inversion H; subst. simpl. auto.
Qed.

(** Split the pair that a destructuring [let] binds. *)
Ltac split_let H :=
  match type of H with
  | context [match ?t with pair _ _ => _ end] => destruct t eqn:?
  end.

(** The averages that a pass over the training or validation loader
    returns; a validation pass leaves the live parameters alone. *)
Lemma run_one_epoch_shape {T : Torch} {Tr : Trainer T}
    (args : args_t) (tr_loader cv_loader : loader batch)
    (names : list string) (epoch : nat) (cross_valid : bool)
    (w w' : live_t) (avg : pydict Q) :
  _run_one_epoch args tr_loader cv_loader names epoch cross_valid w
    = (Ok avg, w') ->
  (exists x, avg_losses_shape avg x) /\ (cross_valid = true -> w' = w).
Proof.
  intros Hrun. unfold _run_one_epoch in Hrun.
  apply pbind_ok in Hrun as (batches & st1 & Hb & Hrun).
  apply plift_ok in Hb as [Hb ->].
  apply pbind_ok in Hrun as (acc & st2 & Hloop & Hrun).
  apply plift_ok in Hrun as [Havg ->].
  set (I := fun (done : list (nat * batch)) (acc : totals) (st : live_t) =>
              (dict_wf (t_total_losses acc) /\
               Forall (fun k => head_in ["g"; "d"]%char k = true)
                 (dict_keys (t_total_losses acc))) /\
              (cross_valid = true -> st = w)).
  assert (HI : I ([] ++ combine (seq 0 (length batches)) batches) acc st2).
  { eapply (pfor_in_ind I); [| | exact Hloop].
    - clear. intros done [i data] acc st acc' st' [Hacc Hst] Hbody.
      apply pbind_ok in Hbody as (w1 & st1 & Hget & Hbody).
      unfold pget in Hget. inversion Hget; subst; clear Hget.
      split_let Hbody.
      apply pbind_ok in Hbody as (losses & st2 & Hl & Hbody).
      apply plift_ok in Hl as [_ ->].
      apply pbind_ok in Hbody as (u & st3 & Hopt & Hbody).
      apply pbind_ok in Hbody as (x & st4 & Hx & Hbody).
      apply plift_ok in Hx as [_ ->].
      apply pbind_ok in Hbody as (tl1 & st5 & H1 & Hbody).
      apply plift_ok in H1 as [H1 ->].
      apply pbind_ok in Hbody as (tl2 & st6 & H2 & Hbody).
      apply plift_ok in H2 as [H2 ->].
      apply pret_ok in Hbody as [-> ->]. simpl. split.
      + eapply accumulate_keys; [|exact H2|].
        * intros n. reflexivity.
        * eapply accumulate_keys; [|exact H1|exact Hacc].
          intros n. reflexivity.
      + intros ->. simpl in Hopt. apply pret_ok in Hopt as [_ ->]. now apply Hst.
    - split; [split; [constructor | constructor] | reflexivity]. }
  destruct HI as [[Hwf Hall] Hst]. split; [|exact Hst].
  eapply average_losses_shape; eauto.
Qed.

(** The validation pass over the test loader: the same averages; the
    solver and the files are left alone, and only samples are logged. *)
Lemma valid_on_test_frame {T : Torch} {Tr : Trainer T}
    (args : args_t) (tt_loader : loader path_batch) (epoch : nat)
    (enhance : bool) (m m' : machine) (avg : pydict Q)
    (filenames : option (list string)) :
  _get_valid_losses_on_test_data args tt_loader epoch enhance m
    = (Ok (avg, filenames), m') ->
  (exists x, avg_losses_shape avg x) /\
  m_solver m' = m_solver m /\ m_world m' = m_world m /\ quiet_step m m'.
Proof.
  intros Hrun. unfold _get_valid_losses_on_test_data in Hrun.
  apply pbind_ok in Hrun as (batches & st1 & Hb & Hrun).
  apply plift_ok in Hb as [Hb ->].
  apply pbind_ok in Hrun as (acc & st2 & Hloop & Hrun).
  apply pbind_ok in Hrun as (avg' & st3 & Havg & Hrun).
  apply plift_ok in Havg as [Havg ->].
  apply pret_ok in Hrun as [Heq ->]. inversion Heq; subst; clear Heq.
  set (I := fun (done : list (nat * path_batch)) (acc : totals)
                (st : machine) =>
              (dict_wf (t_total_losses acc) /\
               Forall (fun k => head_in ["g"; "d"]%char k = true)
                 (dict_keys (t_total_losses acc))) /\
              m_solver st = m_solver m /\ m_world st = m_world m /\
              quiet_step m st).
  assert (HI : I ([] ++ combine (seq 0 (length batches)) batches) acc st2).
  { eapply (pfor_in_ind I); [| | exact Hloop].
    - clear. intros done [i data] acc st acc' st' [Hacc Hst] Hbody.
      apply pbind_ok in Hbody as (p & st1 & Hp & Hbody).
      apply plift_ok in Hp as [Hp ->].
      apply pbind_ok in Hbody as (s & st2 & Hs & Hbody).
      apply get_solver_run in Hs as [-> ->].
      split_let Hbody. split_let Hbody.
      apply pbind_ok in Hbody as (u & st3 & Hlog & Hbody).
      apply pbind_ok in Hbody as (losses & st4 & Hl & Hbody).
      apply plift_ok in Hl as [_ ->].
      apply pbind_ok in Hbody as (x & st5 & Hx & Hbody).
      apply plift_ok in Hx as [_ ->].
      apply pbind_ok in Hbody as (tl1 & st6 & H1 & Hbody).
      apply plift_ok in H1 as [H1 ->].
      apply pbind_ok in Hbody as (tl2 & st7 & H2 & Hbody).
      apply plift_ok in H2 as [H2 ->].
      apply pret_ok in Hbody as [-> ->]. simpl. split.
      + eapply accumulate_keys; [|exact H2|].
        * intros n. reflexivity.
        * eapply accumulate_keys; [|exact H1|exact Hacc].
          intros n. reflexivity.
      + destruct Hst as (Hsol & Hwo & Hq).
        destruct enhance.
        * apply (log_step_log quiet) in Hlog as (Hw' & Hs' & Hq');
            [|reflexivity].
          rewrite Hw', Hs'. repeat split; auto.
          eapply log_step_trans; eauto.
        * apply pret_ok in Hlog as [_ ->]. auto.
    - split; [split; constructor|].
      repeat split; auto. apply log_step_refl. }
  destruct HI as [[Hwf Hall] Hst]. split; [|exact Hst].
  eapply average_losses_shape; eauto.
Qed.

(** ** The steps of an epoch *)

Lemma py_min_from_spec (l : list Q) (cur : Q) :
  In (py_min_from cur l) (cur :: l) /\
  (forall x, In x (cur :: l) -> (py_min_from cur l <= x)%Q).
Proof.
  revert cur. induction l as [|y l IH]; intros cur; simpl.
  - split; [now left|]. intros x [<- | []]. apply Qle_refl.
  - destruct (IH (if Qltb y cur then y else cur)) as [Hin Hle].
    assert (Hc : ((if Qltb y cur then y else cur) <= cur)%Q /\
                 ((if Qltb y cur then y else cur) <= y)%Q).
    { unfold Qltb. destruct (Qle_bool cur y) eqn:E; simpl.
      - apply Qle_bool_iff in E. split; [apply Qle_refl | exact E].
      - split; [|apply Qle_refl].
        destruct (Qlt_le_dec y cur) as [H|H]; [now apply Qlt_le_weak|].
        apply Qle_bool_iff in H. congruence. }
    split.
    + simpl in Hin. destruct Hin as [Hin | Hin]; [|now right; right].
      rewrite <- Hin. destruct (Qltb y cur); [right; now left | now left].
    + intros x [<- | [<- | Hx]].
      * eapply Qle_trans; [apply Hle; now left | apply Hc].
      * eapply Qle_trans; [apply Hle; now left | apply Hc].
      * apply Hle. now right.
Qed.

(** [min] returns an element of the list that is below every element. *)
Lemma py_min_spec (l : list Q) (m : Q) :
  py_min l = Ok m -> In m l /\ (forall x, In x l -> (m <= x)%Q).
Proof.
  destruct l as [|x l]; simpl; [discriminate|].
  intros H. inversion H; subst. apply py_min_from_spec.
Qed.

Lemma copy_models_states_live (s s' : solver_t) :
  live s' = live s -> _copy_models_states s' = _copy_models_states s.
Proof. unfold _copy_models_states. now intros ->. Qed.

Section TrainSteps.
Context {T : Torch} {Tr : Trainer T}.
Variable args : args_t.
Variable tr_loader : loader batch.
Variable cv_loader : loader batch.
Variable tt_loader : loader path_batch.
Variable names : list string.
Variable rank : nat.

(** Cross validation leaves the files, the history and the live
    parameters alone.  When the test of line 241 fails it does nothing;
    when it holds, it measures an evaluation loss [lk], takes the least of
    the recorded ones and [lk], and replaces [best_states] by a snapshot
    exactly when [lk] equals that least value. *)
Lemma cross_validate_run (epoch : nat) (loc loc' : locals) (m m' : machine)
    (valid_losses : pydict Q) (evaluation_loss : option Q) (etd : bool) :
  cross_validate args tr_loader cv_loader tt_loader names epoch loc m
    = (Ok (valid_losses, evaluation_loss, etd, loc'), m') ->
  m_world m' = m_world m /\
  history (m_solver m') = history (m_solver m) /\
  live (m_solver m') = live (m_solver m) /\
  ((cross_valid_gate args cv_loader epoch = Ok false /\
    valid_losses = [] /\ evaluation_loss = None /\ loc' = loc /\
    m' = m)
   \/
   (cross_valid_gate args cv_loader epoch = Ok true /\
    exists lk mb avg m1,
      evaluation_loss = Some lk /\
      avg_losses_shape avg lk /\
      valid_losses = dict_rekey valid_loss_key avg /\
      best_loss loc' = Some mb /\
      py_min (pull_metric (history (m_solver m)) "valid_evaluation_loss"
                ++ [lk]) = Ok mb /\
      log_step quiet m m1 /\
      if Qeq_bool lk mb then
        best_states (m_solver m') = Some (_copy_models_states (m_solver m')) /\
        m_log m' = m_log m1 ++ [LogNewBest lk]
      else
        best_states (m_solver m') = best_states (m_solver m) /\
        m_log m' = m_log m1)).
Proof.
  intros Hrun. unfold cross_validate in Hrun.
  apply pbind_ok in Hrun as (gate & st0 & Hgate & Hrun).
  apply plift_ok in Hgate as [Hgate ->].
  destruct gate.
  2:{ apply pret_ok in Hrun as [Heq ->]. inversion Heq; subst.
      repeat split; auto. left. auto. }
  apply pbind_ok in Hrun as ([[vl etd'] loc1] & st1 & Hpass & Hrun).
  apply pbind_ok in Hrun as (lk & st2 & Hlk & Hrun).
  apply plift_ok in Hlk as [Hlk ->].
  apply pbind_ok in Hrun as (u & st3 & Hlog & Hrun).
  apply (log_step_log quiet) in Hlog as (Hw3 & Hs3 & Hq3); [|reflexivity].
  apply pbind_ok in Hrun as (s & st4 & Hs & Hrun).
  apply get_solver_run in Hs as [-> ->].
  apply pbind_ok in Hrun as (mb & st5 & Hmin & Hrun).
  apply plift_ok in Hmin as [Hmin ->].
  apply pbind_ok in Hrun as (u' & st6 & Hsnap & Hrun).
  apply pret_ok in Hrun as [Heq ->]. inversion Heq; subst; clear Heq.
  (* the validation pass *)
  assert (Hpass' : (exists x, avg_losses_shape vl x) /\
                   m_world st1 = m_world m /\
                   history (m_solver st1) = history (m_solver m) /\
                   live (m_solver st1) = live (m_solver m) /\
                   best_states (m_solver st1) = best_states (m_solver m) /\
                   log_step quiet m st1).
  { destruct (valid_equals_test args).
    - apply pbind_ok in Hpass as (flag & st7 & Hflag & Hpass).
      apply plift_ok in Hflag as [_ ->].
      apply pbind_ok in Hpass as ([avg fns] & st8 & Hv & Hpass).
      apply pret_ok in Hpass as [Heq ->]. inversion Heq; subst; clear Heq.
      apply valid_on_test_frame in Hv as (Hshape & Hsol & Hwo & Hq).
      rewrite Hsol. repeat split; auto.
    - apply pbind_ok in Hpass as (avg & st7 & Hv & Hpass).
      apply pret_ok in Hpass as [Heq ->]. inversion Heq; subst; clear Heq.
      apply in_live_run in Hv as (Hv & Hh & Hb & Hwo & Hl).
      apply run_one_epoch_shape in Hv as [Hshape Hlive].
      repeat split; auto. now apply log_step_eq. }
  destruct Hpass' as ((x & Hshape) & Hw1 & Hh1 & Hl1 & Hb1 & Hq1).
  assert (x = lk) as ->.
  { destruct Hshape as (_ & He & _). unfold dict_getitem in Hlk.
    rewrite He in Hlk. now inversion Hlk. }
  rewrite Hs3, Hh1 in Hmin.
  assert (Hq : log_step quiet m st3) by (eapply log_step_trans; eauto).
  destruct (Qeq_bool lk mb) eqn:E.
  - apply pbind_ok in Hsnap as (u2 & st7 & Hlog2 & Hput).
    apply log_run in Hlog2 as (Hw7 & Hs7 & Hl7).
    apply put_solver_run in Hput as (Hw6 & Hs6 & Hl6).
    assert (Hsol : m_solver st6
                   = set_best_states (m_solver st1)
                       (Some (_copy_models_states (m_solver st1))))
      by (rewrite Hs6, Hs3; reflexivity).
    split; [congruence|].
    split; [rewrite Hsol; exact Hh1|].
    split; [rewrite Hsol; exact Hl1|].
    right. split; [exact Hgate|].
    exists lk, mb, vl, st3. rewrite E.
    split; [reflexivity|]. split; [exact Hshape|]. split; [reflexivity|].
    split; [reflexivity|]. split; [exact Hmin|]. split; [exact Hq|]. split.
    + rewrite Hsol. reflexivity.
    + now rewrite Hl6, Hl7.
  - apply pret_ok in Hsnap as [_ ->].
    split; [congruence|].
    split; [rewrite Hs3; exact Hh1|].
    split; [rewrite Hs3; exact Hl1|].
    right. split; [exact Hgate|].
    exists lk, mb, vl, st3. rewrite E.
    split; [reflexivity|]. split; [exact Hshape|]. split; [reflexivity|].
    split; [reflexivity|]. split; [exact Hmin|]. split; [exact Hq|]. split.
    + rewrite Hs3. exact Hb1.
    + reflexivity.
Qed.


Lemma choose_eval_state_run (s : solver_t) (m m' : machine) (st : state_dict) :
  choose_eval_state args s m = (Ok st, m') ->
  m_world m' = m_world m /\ m_solver m' = m_solver m /\
  if evaluate_on_best args && truthy_best_states (best_states s) then
    m_log m' = m_log m ++ [LogLoadingBestState] /\
    exists b, best_states s = Some b /\ dict_get GENERATOR_KEY b = Some st
  else
    m_log m' = m_log m ++ [LogUsingLastState] /\
    generator_state (live s) = Ok st.
Proof.
  unfold choose_eval_state. intros Hrun.
  destruct (evaluate_on_best args && truthy_best_states (best_states s)).
  - apply pbind_ok in Hrun as (u & st1 & Hlog & Hrun).
    apply log_run in Hlog as (Hw & Hs & Hl).
    apply pbind_ok in Hrun as (b & st2 & Hb & Hrun).
    apply plift_ok in Hb as [Hb ->].
    apply plift_ok in Hrun as [Hg ->].
    repeat split; auto. exists b. split.
    + destruct (best_states s); [now inversion Hb | discriminate].
    + unfold dict_getitem in Hg.
      destruct (dict_get GENERATOR_KEY b); [now inversion Hg | discriminate].
  - apply pbind_ok in Hrun as (u & st1 & Hlog & Hrun).
    apply log_run in Hlog as (Hw & Hs & Hl).
    apply plift_ok in Hrun as [Hg ->].
    repeat split; auto.
Qed.

(** The evaluation on the test set changes neither the solver nor the
    files; it adds the two scores to the metrics, or nothing; it logs no
    new best, and with no best states at hand it does not log that it
    loads them. *)
Lemma evaluate_on_test_set_run (epoch : nat) (etd : bool)
    (metrics metrics' : metrics_t) (loc loc' : locals) (m m' : machine) :
  evaluate_on_test_set args tt_loader epoch etd metrics loc m
    = (Ok (metrics', loc'), m') ->
  m_world m' = m_world m /\ m_solver m' = m_solver m /\
  best_loss loc' = best_loss loc /\
  (metrics' = metrics \/
   exists lsd visqol,
     metrics' = dict_update metrics
                  [(METRICS_KEY_LSD, lsd); (METRICS_KEY_VISQOL, visqol)]) /\
  log_step not_new_best m m' /\
  (truthy_best_states (best_states (m_solver m)) = false ->
   log_step quiet m m').
Proof.
  unfold evaluate_on_test_set. intros Hrun.
  apply pbind_ok in Hrun as (gate & st0 & Hgate & Hrun).
  apply plift_ok in Hgate as [Hgate ->].
  destruct gate.
  2:{ apply pret_ok in Hrun as [Heq ->]. inversion Heq; subst.
      repeat split; auto using log_step_refl. }
  apply pbind_ok in Hrun as (s & st1 & Hs & Hrun).
  apply get_solver_run in Hs as [-> ->].
  apply pbind_ok in Hrun as (best_state & st2 & Hch & Hrun).
  apply choose_eval_state_run in Hch as (Hw2 & Hs2 & Hch).
  apply pbind_ok in Hrun as (u & st3 & Hsw & Hrun).
  apply log_run in Hsw as (Hw3 & Hs3 & Hl3).
  apply pbind_ok in Hrun as ([[lsd visqol] loc1] & st4 & Heval & Hrun).
  apply pbind_ok in Hrun as (loc2 & st5 & Hres & Hrun).
  apply pret_ok in Hrun as [Heq ->]. inversion Heq; subst; clear Heq.
  (* the three ways to evaluate *)
  assert (He : m_world st4 = m_world st3 /\ m_solver st4 = m_solver st3 /\
               best_loss loc1 = best_loss loc /\ log_step quiet st3 st4).
  { destruct etd.
    - apply pbind_ok in Heval as (u1 & st6 & Hlog & Heval).
      apply (log_step_log quiet) in Hlog as (Hw6 & Hs6 & Hq6); [|reflexivity].
      apply pbind_ok in Heval as (fns & st7 & Hf & Heval).
      apply plift_ok in Hf as [_ ->].
      split_let Heval.
      apply pret_ok in Heval as [Heq ->]. inversion Heq; subst.
      repeat split; auto.
    - destruct (joint_evaluate_and_enhance args).
      + apply pbind_ok in Heval as (u1 & st6 & Hlog & Heval).
        apply (log_step_log quiet) in Hlog as (Hw6 & Hs6 & Hq6); [|reflexivity].
        split_let Heval. split_let Heval.
        apply pret_ok in Heval as [Heq ->]. inversion Heq; subst.
        repeat split; auto.
      + split_let Heval.
        apply pret_ok in Heval as [Heq ->]. inversion Heq; subst.
        repeat split; auto using log_step_refl. }
  destruct He as (Hw4 & Hs4 & Hb4 & Hq4).
  assert (Hr : m_world st5 = m_world st4 /\ m_solver st5 = m_solver st4 /\
               best_loss loc2 = best_loss loc1 /\ log_step quiet st4 st5).
  { destruct (is_last_epoch args epoch && log_results args).
    - apply pbind_ok in Hres as (loc3 & st6 & Hdl & Hres).
      apply pbind_ok in Hres as (lf & st7 & Hlf & Hres).
      apply plift_ok in Hlf as [_ ->].
      apply pbind_ok in Hres as (u1 & st8 & Hlog & Hres).
      apply (log_step_log quiet) in Hlog as (Hw8 & Hs8 & Hq8); [|reflexivity].
      apply pret_ok in Hres as [-> ->].
      assert (st6 = st4 /\ best_loss loc3 = best_loss loc1) as [-> Hb3].
      { destruct (enhanced_dataloader loc1).
        - apply pret_ok in Hdl as [-> ->]. auto.
        - apply pbind_ok in Hdl as (fns & st9 & Hf & Hdl).
          apply plift_ok in Hf as [_ ->].
          apply pret_ok in Hdl as [-> ->]. auto. }
      repeat split; auto.
    - apply pret_ok in Hres as [-> ->]. repeat split; auto using log_step_refl. }
  destruct Hr as (Hw5 & Hs5 & Hb5 & Hq5).
  split; [congruence|]. split; [congruence|]. split; [congruence|].
  split; [right; eauto|].
  assert (Hq35 : log_step quiet st3 st5) by (eapply log_step_trans; eauto).
  assert (Hsw : log_step quiet st2 st3).
  { exists [SwapState best_state]. split; [exact Hl3 | reflexivity]. }
  assert (Hq25 : log_step quiet st2 st5) by (eapply log_step_trans; eauto).
  split.
  - eapply log_step_trans.
    + destruct (evaluate_on_best args
                && truthy_best_states (best_states (m_solver m))).
      * destruct Hch as [Hl _]. exists [LogLoadingBestState]. split; eauto.
      * destruct Hch as [Hl _]. exists [LogUsingLastState]. split; eauto.
    + eapply log_step_weaken; [|exact Hq25]. intros e He.
      unfold not_new_best. now rewrite quiet_not_new_best.
  - intros Hfalsy. rewrite Hfalsy, andb_false_r in Hch.
    destruct Hch as [Hl _].
    eapply log_step_trans; [|exact Hq25].
    exists [LogUsingLastState]. split; eauto.
Qed.

(** Recording the epoch appends its metrics to the history and changes
    nothing else of the solver. *)
Lemma record_and_persist_run (epoch : nat) (metrics : metrics_t)
    (m m' : machine) (u : unit) :
  record_and_persist args rank epoch metrics m = (Ok u, m') ->
  history (m_solver m') = history (m_solver m) ++ [metrics] /\
  live (m_solver m') = live (m_solver m) /\
  best_states (m_solver m') = best_states (m_solver m) /\
  log_step quiet m m'.
Proof.
  unfold record_and_persist. intros Hrun.
  apply pbind_ok in Hrun as (u1 & st1 & Hlog & Hrun).
  apply (log_step_log quiet) in Hlog as (Hw1 & Hs1 & Hq1); [|reflexivity].
  apply pbind_ok in Hrun as (s & st2 & Hs & Hrun).
  apply get_solver_run in Hs as [-> ->].
  apply pbind_ok in Hrun as (u2 & st3 & Hput & Hrun).
  apply put_solver_run in Hput as (Hw3 & Hs3 & Hl3).
  apply pbind_ok in Hrun as (u3 & st4 & Hlog2 & Hrun).
  apply (log_step_log quiet) in Hlog2 as (Hw4 & Hs4 & Hq4); [|reflexivity].
  assert (Hq14 : log_step quiet st1 st4).
  { eapply log_step_trans; [|exact Hq4]. now apply log_step_eq. }
  assert (Hq04 : log_step quiet m st4) by (eapply log_step_trans; eauto).
  assert (Hsol : m_solver st4
                 = set_history (m_solver m) (history (m_solver m) ++ [metrics]))
    by (rewrite Hs4, Hs3, Hs1; reflexivity).
  assert (Hend : m_solver m' = m_solver st4 /\ log_step quiet st4 m').
  { destruct (Nat.eqb rank 0).
    - apply pbind_ok in Hrun as (s' & st5 & Hs' & Hrun).
      apply get_solver_run in Hs' as [-> ->].
      apply pbind_ok in Hrun as (u4 & st6 & Hj & Hrun).
      apply in_world_run in Hj as (_ & Hs6 & Hl6).
      destruct (checkpoint args).
      + apply pbind_ok in Hrun as (u5 & st7 & Hser & Hrun).
        apply in_world_run in Hser as (_ & Hs7 & Hl7).
        apply (log_step_log quiet) in Hrun as (Hw8 & Hs8 & Hq8); [|reflexivity].
        split; [congruence|].
        eapply log_step_trans; [|exact Hq8]. apply log_step_eq. congruence.
      + apply pret_ok in Hrun as [_ ->]. split; [exact Hs6|].
        now apply log_step_eq.
    - apply pret_ok in Hrun as [_ ->]. split; [reflexivity|].
      apply log_step_refl. }
  destruct Hend as [Hs' Hq']. rewrite Hs', Hsol. simpl.
  repeat split; auto. eapply log_step_trans; eauto.
Qed.

End TrainSteps.

(** ** The keys of an epoch's metrics *)

Lemma loss_key_inj (a b : string) : loss_key a = loss_key b -> a = b.
Proof. apply append_inj_r. Qed.

Lemma valid_loss_key_inj (a b : string) :
  valid_loss_key a = valid_loss_key b -> a = b.
Proof.
  unfold valid_loss_key. intros H. apply String.app_inj in H.
  now apply append_inj_r in H.
Qed.

(** A training key is none of the keys that later lines write. *)
Lemma train_key_other (avg : pydict Q) (x : Q) (k : string) :
  avg_losses_shape avg x ->
  head_in ["t"; "e"; "g"; "d"]%char k = false ->
  dict_get k (dict_rekey loss_key avg) = None.
Proof.
  intros (_ & _ & _ & Hall) Hk. apply dict_get_none_keys. intros Hin.
  apply dict_rekey_keys in Hin as (a & Ha & ->).
  rewrite List.Forall_forall in Hall. apply Hall in Ha.
  unfold loss_key in Hk. rewrite head_in_append in Hk by exact Ha.
  discriminate.
Qed.

Lemma valid_key_head (avg : pydict Q) (k : string) :
  In k (dict_keys (dict_rekey valid_loss_key avg)) ->
  head_in ["v"]%char k = true.
Proof. intros Hin. apply dict_rekey_keys in Hin as (a & _ & ->). reflexivity. Qed.

Lemma dict_update_get_other {V} (d e : pydict V) (k : string) :
  ~ In k (dict_keys e) -> dict_get k (dict_update d e) = dict_get k d.
Proof.
  intros Hk. apply (fold_set_get_other (fun k => k)).
  intros a Ha ->. now apply Hk.
Qed.

(** The metrics of an epoch, before the evaluation scores are added:
    what is recorded under the keys that matter. *)
Lemma build_metrics_keys (avg_t : pydict Q) (x_t : Q)
    (valid_losses : pydict Q) (evaluation_loss best_loss : option Q) :
  avg_losses_shape avg_t x_t ->
  (valid_losses = [] \/
   exists avg_v lk, avg_losses_shape avg_v lk /\
                    valid_losses = dict_rekey valid_loss_key avg_v) ->
  let metrics :=
    build_metrics (dict_rekey loss_key avg_t) valid_losses evaluation_loss
      best_loss in
  dict_get "valid_evaluation_loss" metrics
    = dict_get "valid_evaluation_loss" valid_losses /\
  dict_get METRICS_KEY_EVALUATION_LOSS metrics
    = match evaluation_loss with
      | Some v => if truthy_float v then Some v else Some x_t
      | None => Some x_t
      end /\
  dict_get METRICS_KEY_BEST_LOSS metrics
    = match best_loss with
      | Some v => if truthy_float v then Some v else None
      | None => None
      end.
Proof.
  intros Ht Hv metrics.
  set (base := dict_update (dict_rekey loss_key avg_t) valid_losses).
  assert (Hwf : dict_wf valid_losses).
  { destruct Hv as [-> | (avg_v & lk & _ & ->)];
      [constructor | apply dict_rekey_wf]. }
  assert (Hhead : forall k, In k (dict_keys valid_losses) ->
                            head_in ["v"]%char k = true).
  { destruct Hv as [-> | (avg_v & lk & _ & ->)]; [intros k [] |].
    intros k. apply valid_key_head. }
  assert (B1 : dict_get "evaluation_loss" base = Some x_t).
  { unfold base. rewrite dict_update_get_other.
    - change "evaluation_loss" with (loss_key "evaluation").
      rewrite dict_rekey_get; [apply Ht | apply loss_key_inj | apply Ht].
    - intros Hin. apply Hhead in Hin. discriminate. }
  assert (B2 : dict_get "best_loss" base = None).
  { unfold base. rewrite dict_update_get_other.
    - eapply train_key_other; [exact Ht | reflexivity].
    - intros Hin. apply Hhead in Hin. discriminate. }
  assert (B3 : dict_get "valid_evaluation_loss" base
               = dict_get "valid_evaluation_loss" valid_losses).
  { unfold base. rewrite dict_update_get by exact Hwf.
    destruct (dict_get "valid_evaluation_loss" valid_losses); [reflexivity|].
    eapply train_key_other; [exact Ht | reflexivity]. }
  unfold metrics, build_metrics. fold base.
  unfold METRICS_KEY_EVALUATION_LOSS, METRICS_KEY_BEST_LOSS.
  set (m1 := match evaluation_loss with
             | Some v =>
                 if truthy_float v
                 then dict_update base [("evaluation_loss", v)]
                 else base
             | None => base
             end).
  assert (M1 : dict_get "valid_evaluation_loss" m1
               = dict_get "valid_evaluation_loss" valid_losses /\
               dict_get "evaluation_loss" m1
               = match evaluation_loss with
                 | Some v => if truthy_float v then Some v else Some x_t
                 | None => Some x_t
                 end /\
               dict_get "best_loss" m1 = None).
  { unfold m1. destruct evaluation_loss as [v|]; [|auto].
    destruct (truthy_float v); [|auto].
    unfold dict_update. simpl. repeat split.
    - rewrite dict_get_set_ne by discriminate. exact B3.
    - apply dict_get_set_eq.
    - rewrite dict_get_set_ne by discriminate. exact B2. }
  destruct M1 as (M1a & M1b & M1c).
  destruct best_loss as [v|]; [|auto].
  destruct (truthy_float v); [|auto].
  unfold dict_update. simpl. repeat split.
  - rewrite dict_get_set_ne by discriminate. exact M1a.
  - rewrite dict_get_set_ne by discriminate. exact M1b.
  - apply dict_get_set_eq.
Qed.

(** Adding the evaluation scores touches none of these keys. *)
Lemma scores_keep_keys (metrics : metrics_t) (lsd visqol : Q) (k : string) :
  head_in ["A"]%char k = false ->
  dict_get k
    (dict_update metrics
       [(METRICS_KEY_LSD, lsd); (METRICS_KEY_VISQOL, visqol)])
  = dict_get k metrics.
Proof.
  intros Hk. apply dict_update_get_other. simpl.
  intros [<- | [<- | []]]; discriminate.
Qed.

(** ** One epoch *)

Section TrainEpoch.
Context {T : Torch} {Tr : Trainer T}.
Variable args : args_t.
Variable tr_loader : loader batch.
Variable cv_loader : loader batch.
Variable tt_loader : loader path_batch.
Variable names : list string.
Variable rank : nat.

Lemma log_step_any (p : log_event -> bool) (m m' : machine) :
  log_step p m m' -> log_step any_event m m'.
Proof. apply log_step_weaken. reflexivity. Qed.

Lemma log_step_quiet_not_new_best (m m' : machine) :
  log_step quiet m m' -> log_step not_new_best m m'.
Proof.
  apply log_step_weaken. intros e He. unfold not_new_best.
  now rewrite quiet_not_new_best.
Qed.

(** What one successful iteration of the epoch loop does to the history,
    to the best-loss tracking and to the log.  [x_t] is the average total
    loss of the training pass. *)
Lemma train_epoch_run (epoch : nat) (loc loc' : locals) (m m' : machine) :
  train_epoch args tr_loader cv_loader tt_loader names rank epoch loc m
    = (Ok loc', m') ->
  exists (metrics : metrics_t) (avg_t : pydict Q) (x_t : Q) (w : live_t),
    _run_one_epoch args tr_loader cv_loader names epoch false
      (live (m_solver m)) = (Ok avg_t, w) /\
    avg_losses_shape avg_t x_t /\
    live (m_solver m') = w /\
    history (m_solver m') = history (m_solver m) ++ [metrics] /\
    dict_get METRICS_KEY_BEST_LOSS metrics
      = match best_loss loc' with
        | Some v => if truthy_float v then Some v else None
        | None => None
        end /\
    log_step any_event m m' /\
    ((cross_valid_gate args cv_loader epoch = Ok false /\
      best_loss loc' = best_loss loc /\
      best_states (m_solver m') = best_states (m_solver m) /\
      dict_get "valid_evaluation_loss" metrics = None /\
      dict_get METRICS_KEY_EVALUATION_LOSS metrics = Some x_t /\
      log_step not_new_best m m' /\
      (truthy_best_states (best_states (m_solver m)) = false ->
       log_step quiet m m'))
     \/
     (cross_valid_gate args cv_loader epoch = Ok true /\
      exists lk mb,
        dict_get "valid_evaluation_loss" metrics = Some lk /\
        best_loss loc' = Some mb /\
        py_min (pull_metric (history (m_solver m)) "valid_evaluation_loss"
                  ++ [lk]) = Ok mb /\
        dict_get METRICS_KEY_EVALUATION_LOSS metrics
          = (if truthy_float lk then Some lk else Some x_t) /\
        if Qeq_bool lk mb then
          best_states (m_solver m') = Some (_copy_models_states (m_solver m')) /\
          count_events is_new_best (m_log m')
            = S (count_events is_new_best (m_log m))
        else
          best_states (m_solver m') = best_states (m_solver m) /\
          log_step not_new_best m m' /\
          (truthy_best_states (best_states (m_solver m)) = false ->
           log_step quiet m m'))).
Proof.
  unfold train_epoch. intros Hrun.
  apply pbind_ok in Hrun as (avg_t & st1 & Htr & Hrun).
  apply in_live_run in Htr as (Htr & Hh1 & Hb1 & Hw1 & Hl1).
  pose proof (run_one_epoch_shape _ _ _ _ _ _ _ _ _ Htr) as [[x_t Hshape] _].
  apply pbind_ok in Hrun as (u & st2 & Hlog & Hrun).
  apply (log_step_log quiet) in Hlog as (Hw2 & Hs2 & Hq2); [|reflexivity].
  apply pbind_ok in Hrun as ([[[vl ev] etd] loc1] & st3 & Hcv & Hrun).
  apply cross_validate_run in Hcv as (Hw3 & Hh3 & Hl3 & Hcv).
  apply pbind_ok in Hrun as ([metrics loc2] & st4 & Hev & Hrun).
  apply evaluate_on_test_set_run in Hev
    as (Hw4 & Hs4 & Hbl4 & Hmet & Hq4 & Hq4').
  apply pbind_ok in Hrun as (u' & st5 & Hrec & Hrun).
  apply record_and_persist_run in Hrec as (Hh5 & Hl5 & Hb5 & Hq5).
  apply pret_ok in Hrun as [Hloc' Hm']. subst st5 loc2.
  exists metrics, avg_t, x_t, (live (m_solver st1)).
  assert (Hq02 : log_step quiet m st2).
  { eapply log_step_trans; [|exact Hq2]. now apply log_step_eq. }
  (* the keys of the metrics *)
  assert (Hv : vl = [] \/
               exists avg_v lk, avg_losses_shape avg_v lk /\
                                vl = dict_rekey valid_loss_key avg_v).
  { destruct Hcv as [(_ & -> & _) | (_ & lk & mb & avg & m1 & _ & Hs & -> & _)];
      [now left | right; eauto]. }
  pose proof (build_metrics_keys avg_t x_t vl ev (best_loss loc1) Hshape Hv)
    as (K1 & K2 & K3).
  set (metrics0 := build_metrics (dict_rekey loss_key avg_t) vl ev
                     (best_loss loc1)) in *.
  assert (Hk : forall k, head_in ["A"]%char k = false ->
                         dict_get k metrics = dict_get k metrics0).
  { intros k Hk. destruct Hmet as [-> | (lsd & visqol & ->)]; [reflexivity|].
    now apply scores_keep_keys. }
  split; [exact Htr|]. split; [exact Hshape|].
  split; [rewrite Hl5, Hs4, Hl3, Hs2; reflexivity|].
  split; [rewrite Hh5, Hs4, Hh3, Hs2, Hh1; reflexivity|].
  split; [rewrite Hk by reflexivity; rewrite K3, Hbl4; reflexivity|].
  assert (Hq45 : log_step any_event st3 m').
  { eapply log_step_trans; eapply log_step_any; eauto. }
  assert (Hbs : best_states (m_solver m') = best_states (m_solver st3))
    by (rewrite Hb5, Hs4; reflexivity).
  assert (Hnb35 : log_step not_new_best st3 m').
  { eapply log_step_trans; [exact Hq4|].
    now apply log_step_quiet_not_new_best. }
  destruct Hcv as [(Hgate & -> & -> & -> & ->)
                  | (Hgate & lk & mb & avg & m1 & -> & Hs & -> & Hbl & Hmin
                     & Hq1 & Hsnap)].
  - (* no cross validation *)
    assert (Hq03 : log_step quiet m st2) by exact Hq02.
    split.
    { eapply log_step_trans; [|exact Hq45].
      eapply log_step_any; exact Hq03. }
    left. split; [exact Hgate|]. split; [exact Hbl4|].
    split; [rewrite Hbs, Hs2; exact Hb1|].
    split; [rewrite Hk by reflexivity; exact K1|].
    split; [rewrite Hk by reflexivity; exact K2|].
    split.
    + eapply log_step_trans; [|exact Hnb35].
      now apply log_step_quiet_not_new_best.
    + intros Hfalsy. eapply log_step_trans; [exact Hq03|].
      eapply log_step_trans; [|exact Hq5]. apply Hq4'.
      rewrite Hs2, Hb1. exact Hfalsy.
  - (* cross validation *)
    assert (Hq01 : log_step quiet m m1) by (eapply log_step_trans; eauto).
    assert (Hget : dict_get "valid_evaluation_loss"
                     (dict_rekey valid_loss_key avg) = Some lk).
    { change "valid_evaluation_loss" with (valid_loss_key "evaluation").
      rewrite dict_rekey_get;
        [apply Hs | apply valid_loss_key_inj | apply Hs]. }
    rewrite Hs2, Hh1 in Hmin.
    split.
    { eapply log_step_trans; [|exact Hq45].
      eapply log_step_trans; [eapply log_step_any; exact Hq01|].
      destruct (Qeq_bool lk mb).
      - destruct Hsnap as [_ Hl]. exists [LogNewBest lk]. split; eauto.
      - destruct Hsnap as [_ Hl]. apply log_step_eq. exact Hl. }
    right. split; [exact Hgate|]. exists lk, mb.
    split; [rewrite Hk by reflexivity; rewrite K1; exact Hget|].
    split; [rewrite Hbl4; exact Hbl|].
    split; [exact Hmin|].
    split; [rewrite Hk by reflexivity; exact K2|].
    destruct (Qeq_bool lk mb).
    + destruct Hsnap as [Hsnap Hl]. split.
      * rewrite Hbs, Hsnap. f_equal. apply copy_models_states_live.
        rewrite Hl5, Hs4. reflexivity.
      * rewrite (log_step_count not_new_best is_new_best st3 m');
          [|intros e He; unfold not_new_best in He;
            now apply negb_true_iff in He | exact Hnb35].
        rewrite Hl. unfold count_events.
        rewrite List.filter_app, length_app. simpl.
        pose proof (log_step_count quiet is_new_best m m1
                      quiet_not_new_best Hq01) as Hc.
        unfold count_events in Hc. rewrite Hc. lia.
    + destruct Hsnap as [Hsnap Hl]. split; [|split].
      * rewrite Hbs, Hsnap, Hs2. exact Hb1.
      * eapply log_step_trans; [|exact Hnb35].
        apply (log_step_trans _ m m1 st3);
          [now apply log_step_quiet_not_new_best|].
        apply log_step_eq. exact Hl.
      * intros Hfalsy. eapply log_step_trans; [exact Hq01|].
        apply (log_step_trans _ m1 st3 m'); [apply log_step_eq; exact Hl|].
        eapply log_step_trans; [|exact Hq5]. apply Hq4'.
        rewrite Hsnap, Hs2, Hb1. exact Hfalsy.
Qed.

End TrainEpoch.

(** ** Best-loss tracking *)

Lemma pull_metric_app (h : history_t) (metrics : metrics_t) (name : string) :
  pull_metric (h ++ [metrics]) name
  = pull_metric h name
    ++ match dict_get name metrics with Some v => [v] | None => [] end.
Proof.
  induction h as [|m0 h IH]; simpl.
  - destruct (dict_get name metrics); reflexivity.
  - rewrite IH. destruct (dict_get name m0); reflexivity.
Qed.

(** The snapshot holds the parameters of every model. *)
Lemma copy_models_states_get (s : solver_t) (name : string) :
  dict_wf (models (live s)) ->
  dict_get name (_copy_models_states s)
  = option_map (fun m => copy_state (model_state m))
      (dict_get name (models (live s))).
Proof.
  intros Hwf. unfold _copy_models_states.
  assert (H : forall (d acc : pydict model_t) (acc' : pydict state_dict),
             dict_wf d ->
             dict_get name
               (fold_left (fun states item =>
                             let '(name, model) := item in
                             dict_set name (copy_state (model_state model))
                               states) d acc')
             = match dict_get name d with
               | Some m => Some (copy_state (model_state m))
               | None => dict_get name acc'
               end).
  { clear. induction d as [|[k v] d IH]; intros acc acc' Hwf; simpl.
    - reflexivity.
    - inversion Hwf as [|? ? Hnot Hwf']; subst.
      rewrite (IH acc) by exact Hwf'.
      destruct (String.eqb name k) eqn:E.
      + apply String.eqb_eq in E. subst k.
        rewrite list_elem_of_In in Hnot.
        apply dict_get_none_keys in Hnot. rewrite Hnot.
        apply dict_get_set_eq.
      + destruct (dict_get name d); [reflexivity|].
        apply dict_get_set_ne. now apply String.eqb_neq. }
  rewrite (H _ [] []) by exact Hwf.
  now destruct (dict_get name (models (live s))).
Qed.

(** C2.  Take a successful epoch [k] in which cross validation runs, and
    let [l0..lk] be the evaluation losses recorded in the history after
    it ([lk] is the one this epoch appends).  The tracked best loss is the
    minimum of [l0..lk]: it is one of them and lies below all of them.  A
    snapshot of the parameters of every model replaces [best_states], and
    'New best valid loss' is logged, if and only if [lk] equals that
    minimum; so when [lk] ties with an earlier loss the snapshot of epoch
    [k] wins.  Otherwise [best_states] is left as it was. *)
Theorem best_loss_tracking {T : Torch} {Tr : Trainer T}
    (args : args_t) (tr_loader cv_loader : loader batch)
    (tt_loader : loader path_batch) (names : list string) (rank epoch : nat)
    (loc loc' : locals) (m m' : machine) :
  train_epoch args tr_loader cv_loader tt_loader names rank epoch loc m
    = (Ok loc', m') ->
  cross_valid_gate args cv_loader epoch = Ok true ->
  exists lk mb,
    pull_metric (history (m_solver m')) "valid_evaluation_loss"
      = pull_metric (history (m_solver m)) "valid_evaluation_loss" ++ [lk] /\
    best_loss loc' = Some mb /\
    In mb (pull_metric (history (m_solver m')) "valid_evaluation_loss") /\
    (forall x,
        In x (pull_metric (history (m_solver m')) "valid_evaluation_loss") ->
        (mb <= x)%Q) /\
    ((lk == mb)%Q ->
     best_states (m_solver m') = Some (_copy_models_states (m_solver m')) /\
     (dict_wf (models (live (m_solver m'))) ->
      forall name,
        dict_get name (_copy_models_states (m_solver m'))
        = option_map model_state
            (dict_get name (models (live (m_solver m'))))) /\
     count_events is_new_best (m_log m')
       = S (count_events is_new_best (m_log m))) /\
    (~ (lk == mb)%Q ->
     best_states (m_solver m') = best_states (m_solver m) /\
     count_events is_new_best (m_log m')
       = count_events is_new_best (m_log m)).
Proof.
  intros Hrun Hgate.
  apply train_epoch_run in Hrun
    as (metrics & avg_t & x_t & w & _ & _ & _ & Hh & _ & _ & Hcase).
  destruct Hcase as [(Hg & _) | (_ & lk & mb & Hk & Hbl & Hmin & _ & Hsnap)];
    [congruence|].
  exists lk, mb.
  assert (Hrec : pull_metric (history (m_solver m')) "valid_evaluation_loss"
                 = pull_metric (history (m_solver m)) "valid_evaluation_loss"
                   ++ [lk]).
  { rewrite Hh, pull_metric_app, Hk. reflexivity. }
  apply py_min_spec in Hmin as [Hin Hle].
  rewrite Hrec.
  split; [reflexivity|]. split; [exact Hbl|]. split; [exact Hin|].
  split; [exact Hle|]. split.
  - intros Heq. apply Qeq_bool_iff in Heq. rewrite Heq in Hsnap.
    destruct Hsnap as [Hb Hc]. split; [exact Hb|]. split; [|exact Hc].
    intros Hwf name. now rewrite copy_models_states_get.
  - intros Hne. destruct (Qeq_bool lk mb) eqn:E.
    + apply Qeq_bool_iff in E. contradiction.
    + destruct Hsnap as (Hb & Hq & _). split; [exact Hb|].
      eapply log_step_count; [|exact Hq].
      intros e He. unfold not_new_best in He. now apply negb_true_iff in He.
Qed.

(** The first epoch of a run whose validation loss is 1: the best loss
    is 1 and the models are snapshotted. *)
Lemma best_loss_tracking_witness :
  toy_epoch_run = (Ok toy_epoch_locals, snd toy_epoch_run) /\
  cross_valid_gate toy_args toy_tr_loader 0 = Ok true /\
  exists lk mb,
    pull_metric (history (m_solver (snd toy_epoch_run)))
      "valid_evaluation_loss"
      = pull_metric (history (m_solver toy_machine)) "valid_evaluation_loss"
        ++ [lk] /\
    best_loss toy_epoch_locals = Some mb /\
    In mb (pull_metric (history (m_solver (snd toy_epoch_run)))
             "valid_evaluation_loss") /\
    (forall x,
        In x (pull_metric (history (m_solver (snd toy_epoch_run)))
                "valid_evaluation_loss") ->
        (mb <= x)%Q) /\
    ((lk == mb)%Q ->
     best_states (m_solver (snd toy_epoch_run))
       = Some (_copy_models_states (m_solver (snd toy_epoch_run))) /\
     (dict_wf (models (live (m_solver (snd toy_epoch_run)))) ->
      forall name,
        dict_get name (_copy_models_states (m_solver (snd toy_epoch_run)))
        = option_map model_state
            (dict_get name (models (live (m_solver (snd toy_epoch_run)))))) /\
     count_events is_new_best (m_log (snd toy_epoch_run))
       = S (count_events is_new_best (m_log toy_machine))) /\
    (~ (lk == mb)%Q ->
     best_states (m_solver (snd toy_epoch_run))
       = best_states (m_solver toy_machine) /\
     count_events is_new_best (m_log (snd toy_epoch_run))
       = count_events is_new_best (m_log toy_machine)).
Proof.
  assert (H1 : toy_epoch_run = (Ok toy_epoch_locals, snd toy_epoch_run))
    by (vm_compute; reflexivity).
  assert (H2 : cross_valid_gate toy_args toy_tr_loader 0 = Ok true)
    by (vm_compute; reflexivity).
  split; [exact H1|]. split; [exact H2|].
  exact (best_loss_tracking toy_args toy_tr_loader toy_tr_loader None []
           0%nat 0%nat initial_locals toy_epoch_locals toy_machine
           (snd toy_epoch_run) H1 H2).
Defined.

(** ** The keys [evaluation_loss] and [best_loss] of the metrics *)

(** C10, as amended.  In the metrics that a successful epoch appends to
    the history:
    - [best_loss] is present exactly when the tracked best loss is a
      number other than 0.0, and then holds it;
    - [evaluation_loss] is always present: it holds the validation loss
      when cross validation ran and that loss is not 0.0, and otherwise
      the average total loss of the training pass, which the renaming of
      the training averages ([k + '_loss'] on the key ['evaluation']) put
      under the same key. *)
Theorem zero_losses_in_metrics {T : Torch} {Tr : Trainer T}
    (args : args_t) (tr_loader cv_loader : loader batch)
    (tt_loader : loader path_batch) (names : list string) (rank epoch : nat)
    (loc loc' : locals) (m m' : machine) :
  train_epoch args tr_loader cv_loader tt_loader names rank epoch loc m
    = (Ok loc', m') ->
  exists (metrics : metrics_t) (avg_t : pydict Q) (x_t : Q) (w : live_t),
    _run_one_epoch args tr_loader cv_loader names epoch false
      (live (m_solver m)) = (Ok avg_t, w) /\
    dict_get "evaluation" avg_t = Some x_t /\
    history (m_solver m') = history (m_solver m) ++ [metrics] /\
    dict_get METRICS_KEY_BEST_LOSS metrics
      = match best_loss loc' with
        | Some v => if Qeq_bool v 0 then None else Some v
        | None => None
        end /\
    dict_get METRICS_KEY_EVALUATION_LOSS metrics
      = match dict_get "valid_evaluation_loss" metrics with
        | Some lk => if Qeq_bool lk 0 then Some x_t else Some lk
        | None => Some x_t
        end.
Proof.
  intros Hrun.
  apply train_epoch_run in Hrun
    as (metrics & avg_t & x_t & w & Htr & Hshape & _ & Hh & Hbest & _ & Hcase).
  exists metrics, avg_t, x_t, w.
  split; [exact Htr|]. split; [apply Hshape|]. split; [exact Hh|]. split.
  - rewrite Hbest. destruct (best_loss loc') as [v|]; [|reflexivity].
    unfold truthy_float. now destruct (Qeq_bool v 0).
  - destruct Hcase as [(_ & _ & _ & Hv & He & _)
                      | (_ & lk & mb & Hv & _ & _ & He & _)].
    + now rewrite Hv, He.
    + rewrite Hv, He. unfold truthy_float. now destruct (Qeq_bool lk 0).
Qed.

(** An epoch with training loss 1 and validation loss 0: both keys as
    the theorem says. *)
Lemma zero_losses_in_metrics_witness :
  toy_zero_run = (Ok toy_zero_locals, snd toy_zero_run) /\
  exists (metrics : metrics_t) (avg_t : pydict Q) (x_t : Q) (w : live_t),
    _run_one_epoch toy_args toy_tr_loader toy_cv_loader [] 0 false
      (live (m_solver toy_machine)) = (Ok avg_t, w) /\
    dict_get "evaluation" avg_t = Some x_t /\
    history (m_solver (snd toy_zero_run))
      = history (m_solver toy_machine) ++ [metrics] /\
    dict_get METRICS_KEY_BEST_LOSS metrics
      = match best_loss toy_zero_locals with
        | Some v => if Qeq_bool v 0 then None else Some v
        | None => None
        end /\
    dict_get METRICS_KEY_EVALUATION_LOSS metrics
      = match dict_get "valid_evaluation_loss" metrics with
        | Some lk => if Qeq_bool lk 0 then Some x_t else Some lk
        | None => Some x_t
        end.
Proof.
  assert (H1 : toy_zero_run = (Ok toy_zero_locals, snd toy_zero_run))
    by (vm_compute; reflexivity).
  split; [exact H1|].
  exact (zero_losses_in_metrics toy_args toy_tr_loader toy_cv_loader None []
           0%nat 0%nat initial_locals toy_zero_locals toy_machine
           (snd toy_zero_run) H1).
Defined.

(** C10 as stated fails: the epoch above has validation (evaluation) loss
    0.0, and the metrics it records still have the key [evaluation_loss],
    with the training loss 1 under it; only [best_loss] is left out. *)
Lemma evaluation_loss_key_not_omitted :
  exists metrics lk x,
    history (m_solver (snd toy_zero_run)) = [metrics] /\
    dict_get "valid_evaluation_loss" metrics = Some lk /\
    Qeq_bool lk 0 = true /\
    dict_get METRICS_KEY_EVALUATION_LOSS metrics = Some x /\
    Qeq_bool x 1 = true /\
    dict_mem METRICS_KEY_EVALUATION_LOSS metrics = true /\
    dict_mem METRICS_KEY_BEST_LOSS metrics = false.
Proof.
  eexists. eexists. eexists.
  split; [vm_compute; reflexivity|].
  split; [vm_compute; reflexivity|].
  split; [vm_compute; reflexivity|].
  split; [vm_compute; reflexivity|].
  split; [vm_compute; reflexivity|].
  split; vm_compute; reflexivity.
Qed.

(** ** [train] starts from no best states *)

Section TrainLoop.
Context {T : Torch} {Tr : Trainer T}.
Variable args : args_t.
Variable tr_loader : loader batch.
Variable cv_loader : loader batch.
Variable tt_loader : loader path_batch.
Variable names : list string.
Variable rank : nat.

Lemma train_prologue_run (m : machine) :
  exists m0,
    train_prologue m = (Ok tt, m0) /\
    m_solver m0 = set_best_states (m_solver m) (Some []) /\
    m_world m0 = m_world m /\
    log_step quiet m m0.
Proof.
  unfold train_prologue, pbind, get_solver.
  set (body := fun (item : nat * metrics_t) (_ : unit) =>
                 let '(epoch, metrics) := item in
                 log (LogReplay epoch metrics)).
  assert (H : forall xs m1,
             exists m2, pfor_in xs body tt m1 = (Ok tt, m2) /\
                        m_solver m2 = m_solver m1 /\
                        m_world m2 = m_world m1 /\ log_step quiet m1 m2).
  { clear. induction xs as [|[e x] xs IH]; intros m1.
    - exists m1. repeat split; auto using log_step_refl.
    - set (m1' := {| m_world := m_world m1; m_solver := m_solver m1;
                     m_log := m_log m1 ++ [LogReplay e x] |}).
      assert (El : log (LogReplay e x) m1 = (Ok tt, m1')) by reflexivity.
      change (pfor_in ((e, x) :: xs) body tt m1)
        with (pbind (body (e, x) tt) (fun s' => pfor_in xs body s') m1).
      unfold pbind. change (body (e, x) tt m1) with (log (LogReplay e x) m1).
      rewrite El.
      apply (log_step_log quiet) in El as (Hw & Hs & Hq); [|reflexivity].
      destruct (IH m1') as (m2 & Hrun & Hs2 & Hw2 & Hq2).
      exists m2. rewrite Hrun. repeat split; try congruence.
      eapply log_step_trans; eauto. }
  destruct (H (combine (seq 0 (length (history (m_solver m))))
                 (history (m_solver m))) m) as (m2 & Hrun & Hs2 & Hw2 & Hq2).
  fold body. rewrite Hrun.
  eexists. split; [reflexivity|]. simpl.
  split; [reflexivity|]. split; [exact Hw2|].
  eapply log_step_trans; [exact Hq2|]. now apply log_step_eq.
Qed.

(** As long as no new best is logged, the best states stay empty and the
    evaluation never loads them. *)
Lemma epochs_without_new_best (es : list nat) :
  forall (loc loc' : locals) (m m' : machine),
    truthy_best_states (best_states (m_solver m)) = false ->
    pfor_in es
      (train_epoch args tr_loader cv_loader tt_loader names rank) loc m
      = (Ok loc', m') ->
    count_events is_new_best (m_log m') = count_events is_new_best (m_log m) ->
    best_states (m_solver m') = best_states (m_solver m) /\
    count_events is_loading_best (m_log m')
      = count_events is_loading_best (m_log m).
Proof.
  induction es as [|e es IH]; intros loc loc' m m' Hfalsy Hrun Hcount.
  - simpl in Hrun. apply pret_ok in Hrun as [_ ->]. auto.
  - simpl in Hrun. apply pbind_ok in Hrun as (loc1 & m1 & Hep & Hrest).
    assert (Hmono : (count_events is_new_best (m_log m1)
                     <= count_events is_new_best (m_log m'))%nat).
    { clear - Hrest. revert loc1 m1 Hrest.
      induction es as [|e' es IH]; intros loc1 m1 Hrest; simpl in Hrest.
      - apply pret_ok in Hrest as [_ ->]. lia.
      - apply pbind_ok in Hrest as (loc2 & m2 & Hep & Hrest).
        apply IH in Hrest.
        apply train_epoch_run in Hep
          as (? & ? & ? & ? & _ & _ & _ & _ & _ & Hany & _).
        pose proof (log_step_count_le any_event is_new_best _ _ Hany). lia. }
    apply train_epoch_run in Hep
      as (metrics & avg_t & x_t & w & _ & _ & _ & _ & _ & Hany & Hcase).
    pose proof (log_step_count_le any_event is_new_best _ _ Hany) as Hle.
    assert (Hstep : best_states (m_solver m1) = best_states (m_solver m) /\
                    log_step quiet m m1).
    { destruct Hcase as [(_ & _ & Hb & _ & _ & _ & Hq)
                        | (_ & lk & mb & _ & _ & _ & _ & Hsnap)].
      - split; [exact Hb | now apply Hq].
      - destruct (Qeq_bool lk mb).
        + destruct Hsnap as [_ Hc]. lia.
        + destruct Hsnap as (Hb & _ & Hq). split; [exact Hb | now apply Hq]. }
    destruct Hstep as [Hb1 Hq1].
    pose proof (log_step_count quiet is_new_best m m1
                  quiet_not_new_best Hq1) as Hc1.
    pose proof (log_step_count quiet is_loading_best m m1
                  quiet_not_loading_best Hq1) as Hc2.
    destruct (IH loc1 loc' m1 m') as [Hb Hc]; [| exact Hrest | lia |].
    + now rewrite Hb1.
    + split; congruence.
Qed.

End TrainLoop.

(** C8.  [train] resets [best_states] to the empty dictionary (and starts
    the loop with [best_loss = None]) whatever [best_states] held before,
    for instance what [_reset] restored from a checkpoint; nothing else of
    the solver changes before the loop.  From there, over any number of
    epochs in which no new best is logged, [best_states] stays empty and
    the evaluation never logs 'Loading best state.'; and with empty (or
    absent) best states the evaluation runs on the live parameters of the
    generator and logs 'Using last state.'. *)
Theorem train_discards_restored_best_states {T : Torch} {Tr : Trainer T}
    (args : args_t) (tr_loader cv_loader : loader batch)
    (tt_loader : loader path_batch) (names : list string) (rank : nat)
    (m : machine) :
  exists m0,
    train_prologue m = (Ok tt, m0) /\
    m_solver m0 = set_best_states (m_solver m) (Some []) /\
    m_world m0 = m_world m /\
    best_loss initial_locals = None /\
    train args tr_loader cv_loader tt_loader names rank m
      = pfor_in (epoch_range args (m_solver m0))
          (train_epoch args tr_loader cv_loader tt_loader names rank)
          initial_locals m0 /\
    (forall es loc' m',
        pfor_in es (train_epoch args tr_loader cv_loader tt_loader names rank)
          initial_locals m0 = (Ok loc', m') ->
        count_events is_new_best (m_log m')
          = count_events is_new_best (m_log m) ->
        best_states (m_solver m') = Some [] /\
        count_events is_loading_best (m_log m')
          = count_events is_loading_best (m_log m)) /\
    (forall s mm,
        truthy_best_states (best_states s) = false ->
        choose_eval_state args s mm
        = (generator_state (live s),
           {| m_world := m_world mm; m_solver := m_solver mm;
              m_log := m_log mm ++ [LogUsingLastState] |})).
Proof.
  destruct (train_prologue_run m) as (m0 & Hpro & Hs & Hw & Hq).
  exists m0. split; [exact Hpro|]. split; [exact Hs|]. split; [exact Hw|].
  split; [reflexivity|]. split; [|split].
  - unfold train, pbind. rewrite Hpro. reflexivity.
  - intros es loc' m' Hrun Hcount.
    pose proof (log_step_count quiet is_new_best m m0 quiet_not_new_best Hq)
      as Hc1.
    pose proof (log_step_count quiet is_loading_best m m0
                  quiet_not_loading_best Hq) as Hc2.
    destruct (epochs_without_new_best args tr_loader cv_loader tt_loader
                names rank es initial_locals loc' m0 m') as [Hb Hc].
    + rewrite Hs. reflexivity.
    + exact Hrun.
    + congruence.
    + split; [rewrite Hb, Hs; reflexivity | congruence].
  - intros s mm Hfalsy. unfold choose_eval_state.
    rewrite Hfalsy, andb_false_r. reflexivity.
Qed.

(** A solver resumed with a restored best generator runs two epochs
    without cross validation: the evaluation of both uses the live
    parameters, and the restored best states are gone. *)
Lemma train_discards_restored_best_states_witness :
  truthy_best_states (best_states (m_solver toy_resumed_machine)) = true /\
  toy_resumed_run = (Ok toy_resumed_locals, snd toy_resumed_run) /\
  count_events is_new_best (m_log (snd toy_resumed_run))
    = count_events is_new_best (m_log toy_resumed_machine) /\
  best_states (m_solver (snd toy_resumed_run)) = Some [] /\
  count_events is_loading_best (m_log (snd toy_resumed_run))
    = count_events is_loading_best (m_log toy_resumed_machine).
Proof.
  assert (H1 : toy_resumed_run = (Ok toy_resumed_locals, snd toy_resumed_run))
    by (vm_compute; reflexivity).
  assert (H2 : count_events is_new_best (m_log (snd toy_resumed_run))
               = count_events is_new_best (m_log toy_resumed_machine))
    by (vm_compute; reflexivity).
  split; [reflexivity|]. split; [exact H1|]. split; [exact H2|].
  destruct (train_discards_restored_best_states toy_args_resume toy_tr_loader
              None toy_tt_loader [] 0%nat toy_resumed_machine)
    as (m0 & _ & _ & _ & _ & Htrain & Hloop & _).
  apply (Hloop (epoch_range toy_args_resume (m_solver m0))
           toy_resumed_locals (snd toy_resumed_run)).
  - rewrite <- Htrain. exact H1.
  - exact H2.
Defined.

(** ** The adversarial optimisation step on an empty mapping *)

(** C5, as amended.  Called in adversarial mode with an empty mapping of
    discriminator losses, [_optimize_adversarial]
    - with a single discriminator zeroes the gradients of the optimiser
      and then raises [IndexError] (there is no first loss);
    - with several discriminators and a joint optimiser zeroes its
      gradients and then raises [AttributeError] ([sum] of nothing is the
      integer 0, which has no [backward]);
    - with several discriminators and separate optimisers returns
      normally, having called no optimiser at all.
    Outside adversarial mode, where the solver does not call it, the
    attribute [disc_optimizers] does not exist: the first two policies
    raise [AttributeError] before any optimiser call, and the third
    returns normally all the same. *)
Theorem optimize_adversarial_empty {T : Torch} (args : args_t)
    (names : list string) (trace : list (opt_event scalar)) :
  _optimize_adversarial args names [] trace
  = if adversarial_mode args then
      if multiple_discriminators_mode args then
        if joint_disc_optimizers_mode args then
          (Raise (AttributeError "backward"),
           trace ++ [ZeroGrad "disc_optimizer"])
        else (Ok tt, trace)
      else (Raise IndexError, trace ++ [ZeroGrad "disc_optimizer"])
    else
      if multiple_discriminators_mode args
         && negb (joint_disc_optimizers_mode args)
      then (Ok tt, trace)
      else (Raise (AttributeError "disc_optimizers"), trace).
Proof.
  unfold _optimize_adversarial, get_disc_optimizer, disc_optimizers.
  destruct (adversarial_mode args);
    destruct (multiple_discriminators_mode args);
    destruct (joint_disc_optimizers_mode args); reflexivity.
Qed.

(** C5 as stated fails: in adversarial mode, with several discriminators
    and separate optimisers, the call returns normally and leaves the
    trace of optimiser calls empty. *)
Lemma optimize_adversarial_empty_is_silent :
  adversarial_mode separate_args = true /\
  multiple_discriminators_mode separate_args = true /\
  joint_disc_optimizers_mode separate_args = false /\
  _optimize_adversarial (T := QTorch) separate_args ["melgan"; "msd"] [] []
  = (Ok tt, []).
Proof. repeat split. Qed.

(** ** Resuming *)

#[local] Arguments _load : simpl never.

(** A best-only load never gives a model other parameters: the entry it
    reads, [package['best_states']['models']], is a state dictionary when
    it exists at all, and every item of it makes the loop raise. *)
Lemma load_best_loads_nothing (args : args_t) (package : package_t)
    (w w' : live_t) :
  _load args package true w = Ok w' -> w' = w.
Proof.
  unfold _load. intros H.
  apply rbind_ok in H as (best & _ & H).
  apply rbind_ok in H as (entry & _ & H).
  destruct entry as [|[name state] entry]; simpl in H.
  - now inversion H.
  - destruct (dict_getitem name (models w)); discriminate.
Qed.

Lemma load_best_key_error (args : args_t) (package : package_t)
    (best : pydict state_dict) (w : live_t) :
  pkg_best_states package = Some best ->
  dict_get SERIALIZE_KEY_MODELS best = None ->
  _load args package true w = Raise (KeyError SERIALIZE_KEY_MODELS).
Proof.
  unfold _load, dict_getitem. intros -> Hnone. simpl. now rewrite Hnone.
Qed.

Lemma resume_external_inv (args : args_t) (w : world) (path : string) :
  resume_policy (checkpoint args && path_exists w (checkpoint_file args))
    (given_path (continue_from args)) (restart args) = ResumeExternal path ->
  _reset_choice args w
  = (Some (FromContinue path), continue_best args, keep_history args) /\
  truthy_str path = true.
Proof.
  unfold resume_policy, _reset_choice, given_path.
  destruct (checkpoint args && path_exists w (checkpoint_file args)
            && negb (restart args)); [discriminate|].
  destruct (continue_from args) as [|c cf]; [discriminate|].
  intros H. inversion H; subst. simpl. auto.
Qed.

(** C6.  The precedence of the claim selects the continue-from file, and
    the best-only option is then not honoured.  Whenever the decision is
    to resume from an external checkpoint with [continue_best] set,
    [_reset] gives no model the parameters of the checkpoint: if it
    returns, the live models and optimisers are the ones the solver was
    constructed with.  On a checkpoint whose best states are keyed by
    model name, which are the ones [_serialize] writes, it raises
    [KeyError('models')] and reads nothing else. *)
Theorem best_only_resume_loads_nothing (args : args_t) (s : solver_t)
    (w : world) (path : string) (package : package_t) :
  resume_policy (checkpoint args && path_exists w (checkpoint_file args))
    (given_path (continue_from args)) (restart args) = ResumeExternal path ->
  continue_best args = true ->
  files w !! path = Some (TorchFile (PackagePayload package)) ->
  (forall s' w', _reset args s w = (Ok s', w') -> live s' = live s) /\
  (forall best,
      pkg_best_states package = Some best ->
      dict_get SERIALIZE_KEY_MODELS best = None ->
      _reset args s w = (Raise (KeyError SERIALIZE_KEY_MODELS), w)).
Proof.
  intros Hdec Hbest Hfile.
  apply resume_external_inv in Hdec as [Hchoice Hpath].
  assert (Hrun : _reset args s w
                 = match _load args package true (live s) with
                   | Ok l =>
                       (Ok (set_best_states
                              (if keep_history args
                               then set_history (set_live s l)
                                      (pkg_history package)
                               else set_live s l)
                              (pkg_best_states package)), w)
                   | Raise e => (Raise e, w)
                   end).
  { unfold _reset, pbind, pget. rewrite Hchoice, Hbest. simpl.
    rewrite Hpath. unfold torch_load, pbind, pget. rewrite Hfile. simpl.
    unfold plift. destruct (_load args package true (live s)); reflexivity. }
  split.
  - intros s' w' H. rewrite Hrun in H.
    destruct (_load args package true (live s)) as [l|e] eqn:El;
      [|discriminate].
    apply load_best_loads_nothing in El. subst l.
    inversion H; subst. destruct (keep_history args); reflexivity.
  - intros best Hb Hnone. rewrite Hrun.
    now rewrite (load_best_key_error args package best (live s) Hb Hnone).
Qed.

(** The failing input: a run that continues, best-only, from the
    checkpoint that [_serialize] wrote for a solver whose best generator
    has the parameters [9, 9].  The specification's best-only load gives
    the generator those parameters; the construction of the solver raises
    [KeyError('models')]. *)
Lemma best_only_resume_loads_nothing_witness :
  fst (_serialize toy_args trained_solver empty_world) = Ok tt /\
  resume_policy
    (checkpoint resume_best_args
     && path_exists trained_world (checkpoint_file resume_best_args))
    (given_path (continue_from resume_best_args)) (restart resume_best_args)
  = ResumeExternal "checkpoint.th" /\
  (exists package,
      files trained_world !! "checkpoint.th"
      = Some (TorchFile (PackagePayload package)) /\
      pkg_best_states package = best_states trained_solver /\
      option_map (fun l => dict_get GENERATOR_KEY (models l))
        (spec_load_best package toy_live)
      = Some (Some {| model_class := "Aero";
                      model_state := [("w", [9%Q; 9%Q])] |})) /\
  solver_init resume_best_args toy_live trained_world
  = (Raise (KeyError "models"), trained_world).
Proof.
  split; [vm_compute; reflexivity|].
  assert (Hdec : resume_policy
                   (checkpoint resume_best_args
                    && path_exists trained_world
                         (checkpoint_file resume_best_args))
                   (given_path (continue_from resume_best_args))
                   (restart resume_best_args)
                 = ResumeExternal "checkpoint.th")
    by (vm_compute; reflexivity).
  split; [exact Hdec|].
  destruct (make_package toy_args trained_solver) as [package|e] eqn:Hp;
    [|discriminate Hp].
  assert (Hfile : files trained_world !! "checkpoint.th"
                  = Some (TorchFile (PackagePayload package))).
  { vm_compute in Hp. inversion Hp; subst. vm_compute. reflexivity. }
  assert (Hb : pkg_best_states package = best_states trained_solver).
  { vm_compute in Hp. inversion Hp; subst. reflexivity. }
  split.
  - exists package. split; [exact Hfile|]. split; [exact Hb|].
    unfold spec_load_best. rewrite Hb. reflexivity.
  - exact (proj2 (best_only_resume_loads_nothing resume_best_args
                    {| live := toy_live; history := []; best_states := None |}
                    trained_world "checkpoint.th" package Hdec eq_refl Hfile)
             _ Hb eq_refl).
Defined.

(** ** Persistence *)

Lemma tmp_path_differs (p : string) : p <> p +:+ ".tmp".
Proof.
  intros H. apply (f_equal String.length) in H.
  rewrite string_length_append in H. simpl in H. lia.
Qed.

Lemma pbind_run {St A B} (m : prog St A) (k : A -> prog St B) st r st' :
  pbind m k st = (r, st') ->
  (exists e, m st = (Raise e, st') /\ r = Raise e) \/
  (exists a st1, m st = (Ok a, st1) /\ k a st1 = (r, st')).
Proof.
  unfold pbind. destruct (m st) as [[a|e] st1]; intros H.
  - right. eauto.
  - left. inversion H; subst. eauto.
Qed.

(** A write changes its own path only; when it returns, the path holds
    the whole content; without a fault it returns. *)
Lemma write_file_run (path : string) (content : file) (w : world)
    (r : result unit) (w' : world) :
  write_file path content w = (r, w') ->
  (forall p, p <> path -> files w' !! p = files w !! p) /\
  (forall u, r = Ok u -> files w' !! path = Some content) /\
  (fault w = None -> r = Ok tt /\ fault w' = None).
Proof.
  unfold write_file, pbind, tick, pmodify, praise, pret, with_files.
  destruct (fault w) as [[[|n] d]|] eqn:Ef; simpl.
  - destruct d; simpl; intros H; inversion H; subst; simpl.
    + split; [|split; [discriminate | discriminate]].
      intros p Hp. now rewrite lookup_insert_ne.
    + split; [|split; [discriminate | discriminate]]. auto.
  - intros H; inversion H; subst; simpl.
    split; [|split; [|discriminate]].
    + intros p Hp. now rewrite lookup_insert_ne.
    + intros _ _. apply lookup_insert_eq.
  - intros H; inversion H; subst; simpl.
    split; [|split].
    + intros p Hp. now rewrite lookup_insert_ne.
    + intros _ _. apply lookup_insert_eq.
    + auto.
Qed.

(** A rename either fails and changes no file, or returns and moves the
    whole source file to the destination; without a fault and with the
    source in place it returns. *)
Lemma os_rename_run (src dst : string) (w : world) (r : result unit)
    (w' : world) :
  os_rename src dst w = (r, w') ->
  ((exists e, r = Raise e) /\ files w' = files w
   \/ r = Ok tt /\ files w' !! dst = files w !! src /\
      (forall p, p <> src -> p <> dst -> files w' !! p = files w !! p)) /\
  (fault w = None -> fault w' = None /\
                     (forall f, files w !! src = Some f -> r = Ok tt)).
Proof.
  unfold os_rename, pbind, tick, pmodify, praise, pret, pget, with_files.
  destruct (fault w) as [[[|n] d]|] eqn:Ef; simpl.
  - intros H; inversion H; subst; simpl.
    split; [left; eauto | discriminate].
  - destruct (files w !! src) as [f|] eqn:Es; intros H; inversion H; subst;
      simpl.
    + split; [|discriminate]. right. split; [reflexivity|]. split.
      * now rewrite lookup_insert_eq.
      * intros p Hp1 Hp2. rewrite lookup_insert_ne by congruence.
        now rewrite lookup_delete_ne by congruence.
    + split; [left; eauto | discriminate].
  - destruct (files w !! src) as [f|] eqn:Es; intros H; inversion H; subst;
      simpl.
    + split; [|auto]. right. split; [reflexivity|]. split.
      * now rewrite lookup_insert_eq.
      * intros p Hp1 Hp2. rewrite lookup_insert_ne by congruence.
        now rewrite lookup_delete_ne by congruence.
    + split; [left; eauto|]. intros _. split; [exact Ef | discriminate].
Qed.

(** Writing to a temporary path and renaming: whatever happens, every
    other path is untouched, and the canonical path holds either what it
    held or the whole new content, the latter exactly when the pair
    returns. *)
Lemma save_then_rename_run (obj : payload) (tmp_path path : string)
    (w : world) (r : result unit) (w' : world) :
  tmp_path <> path ->
  save_then_rename obj tmp_path path w = (r, w') ->
  (forall p, p <> tmp_path -> p <> path -> files w' !! p = files w !! p) /\
  (r = Ok tt /\ files w' !! path = Some (TorchFile obj)
   \/ (exists e, r = Raise e) /\ files w' !! path = files w !! path) /\
  (fault w = None -> r = Ok tt /\ fault w' = None).
Proof.
  intros Hne Hrun. unfold save_then_rename, torch_save in Hrun.
  apply pbind_run in Hrun as [(e & Hsave & ->) | (u & w1 & Hsave & Hren)].
  - apply write_file_run in Hsave as (Hother & _ & Hnofault).
    split; [|split].
    + intros p Hp _. now apply Hother.
    + right. split; [eauto|]. apply Hother. congruence.
    + intros Hf. destruct (Hnofault Hf) as [Hr _]. discriminate.
  - apply write_file_run in Hsave as (Hother & Hdone & Hnofault).
    specialize (Hdone u eq_refl).
    apply os_rename_run in Hren as [Hren Hnofault2].
    split; [|split].
    + intros p Hp1 Hp2.
      destruct Hren as [[_ Hsame] | (_ & _ & Hother2)].
      * rewrite Hsame. now apply Hother.
      * rewrite Hother2 by assumption. now apply Hother.
    + destruct Hren as [[He Hsame] | (Hr & Hdst & _)].
      * right. split; [exact He|]. rewrite Hsame. apply Hother. congruence.
      * left. split; [exact Hr|]. now rewrite Hdst.
    + intros Hf. destruct (Hnofault Hf) as [_ Hf1].
      destruct (Hnofault2 Hf1) as [Hf2 Hok]. split; [|exact Hf2].
      eapply Hok. exact Hdone.
Qed.

(** An invariant of the state that every iteration over an element of
    [xs] keeps, however it ends, holds when the loop ends, however it
    ends. *)
Lemma pfor_in_state_inv_in {St A S} (I : St -> Prop)
    (body : A -> S -> prog St S) (xs : list A) :
  (forall x s st r st', In x xs -> I st -> body x s st = (r, st') -> I st') ->
  forall s st r st', I st -> pfor_in xs body s st = (r, st') -> I st'.
Proof.
  induction xs as [|x xs IH]; intros Hstep s st r st' HI Hrun.
  - simpl in Hrun. unfold pret in Hrun. inversion Hrun; subst. exact HI.
  - simpl in Hrun.
    apply pbind_run in Hrun as [(e & Hx & _) | (a & st1 & Hx & Hrest)].
    + eapply Hstep; eauto. now left.
    + eapply IH; [|eapply Hstep; eauto; now left|exact Hrest].
      intros x' s' st0 r' st0' Hin. apply Hstep. now right.
Qed.

Lemma paths_separate_spec (args : args_t) (names : list string) :
  paths_separate args names = true ->
  forall n, In n names ->
    checkpoint_file args <> best_tmp args n /\
    checkpoint_file args <> best_path args n /\
    best_path args n <> checkpoint_tmp args /\
    forall n', In n' names -> best_path args n <> best_tmp args n'.
Proof.
  unfold paths_separate. intros H n Hn.
  rewrite forallb_forall in H. specialize (H n Hn).
  apply andb_true_iff in H as [H H4].
  apply andb_true_iff in H as [H H3].
  apply andb_true_iff in H as [H1 H2].
  apply negb_true_iff, String.eqb_neq in H1, H2, H3.
  repeat split; auto.
  intros n' Hn'. rewrite forallb_forall in H4. specialize (H4 n' Hn').
  now apply negb_true_iff, String.eqb_neq in H4.
Qed.

(** C3.  Provided no temporary path is also a canonical path (and the
    checkpoint is not also a best artifact), [_serialize], however it
    ends and wherever a fault strikes:
    - leaves at the canonical checkpoint path either the file that was
      there or the whole new package, whose five entries are the
      serialised models and optimisers, the history, the best states and
      the configuration;
    - leaves at the canonical path of every best artifact either the file
      that was there or a whole model package that carries a best state;
    - proceeds by pairs of a write to a temporary path and a rename, and
      such a pair either returns with the whole content installed or
      fails with the canonical file unchanged;
    - installs the package when no fault strikes. *)
Theorem serialize_is_atomic (args : args_t) (s : solver_t) (w : world)
    (r : result unit) (w' : world) :
  paths_separate args (best_names s) = true ->
  _serialize args s w = (r, w') ->
  (files w' !! checkpoint_file args = files w !! checkpoint_file args \/
   exists package,
     make_package args s = Ok package /\
     files w' !! checkpoint_file args
       = Some (TorchFile (PackagePayload package)) /\
     pkg_models package = _serialize_models s /\
     _serialize_optimizers args s = Ok (pkg_optimizers package) /\
     pkg_history package = history s /\
     pkg_best_states package = best_states s /\
     pkg_args package = args) /\
  (forall name, In name (best_names s) ->
     files w' !! best_path args name = files w !! best_path args name \/
     exists m best_state,
       files w' !! best_path args name = Some (TorchFile (ModelPayload m)) /\
       mp_state m = best_state /\
       In best_state (match best_states s with
                      | Some b => dict_values b
                      | None => []
                      end)) /\
  (forall obj tmp_path path w1 r1 w1',
     tmp_path <> path ->
     save_then_rename obj tmp_path path w1 = (r1, w1') ->
     r1 = Ok tt /\ files w1' !! path = Some (TorchFile obj) \/
     (exists e, r1 = Raise e) /\ files w1' !! path = files w1 !! path) /\
  (fault w = None ->
   forall package, make_package args s = Ok package ->
     files w' !! checkpoint_file args
       = Some (TorchFile (PackagePayload package))).
Proof.
  intros Hsep Hrun.
  pose proof (paths_separate_spec args (best_names s) Hsep) as Hpaths.
  assert (Hunit : forall obj tmp_path path w1 r1 w1',
             tmp_path <> path ->
             save_then_rename obj tmp_path path w1 = (r1, w1') ->
             r1 = Ok tt /\ files w1' !! path = Some (TorchFile obj) \/
             (exists e, r1 = Raise e) /\ files w1' !! path = files w1 !! path).
  { intros obj tmp_path path w1 r1 w1' Hne H.
    now apply save_then_rename_run in H as (_ & H & _). }
  unfold _serialize in Hrun.
  apply pbind_run in Hrun as [(e & Hpkg & ->) | (package & w1 & Hpkg & Hrun)].
  { unfold plift in Hpkg. inversion Hpkg; subst.
    split; [now left|]. split; [now left|]. split; [exact Hunit|].
    intros _ package Hp. congruence. }
  apply plift_ok in Hpkg as [Hpkg ->].
  assert (Hfields : pkg_models package = _serialize_models s /\
                    _serialize_optimizers args s = Ok (pkg_optimizers package) /\
                    pkg_history package = history s /\
                    pkg_best_states package = best_states s /\
                    pkg_args package = args).
  { unfold make_package in Hpkg.
    apply rbind_ok in Hpkg as (so & Hso & Hpkg). inversion Hpkg; subst.
    simpl. auto. }
  (* the checkpoint *)
  apply pbind_run in Hrun as [(e & Hck & ->) | (u & w2 & Hck & Hrun)].
  { apply save_then_rename_run in Hck as (Hother & Hcanon & Hnofault);
      [|apply not_eq_sym, tmp_path_differs].
    split; [|split; [|split; [exact Hunit|]]].
    - destruct Hcanon as [[Hr _] | [_ Hsame]]; [discriminate | now left].
    - intros name Hname. left.
      destruct (Hpaths name Hname) as (_ & H2 & H4 & _).
      apply Hother; [exact H4 | congruence].
    - intros Hf. destruct (Hnofault Hf) as [Hr _]. discriminate. }
  apply save_then_rename_run in Hck as (Hother & Hcanon & _);
    [|apply not_eq_sym, tmp_path_differs].
  destruct Hcanon as [[_ Hnew] | [[e He] _]]; [|destruct u; discriminate].
  (* from here on the checkpoint is installed; the best artifacts follow *)
  set (I := fun st : world =>
              files st !! checkpoint_file args
                = Some (TorchFile (PackagePayload package)) /\
              forall name, In name (best_names s) ->
                files st !! best_path args name
                  = files w !! best_path args name \/
                exists m best_state,
                  files st !! best_path args name
                    = Some (TorchFile (ModelPayload m)) /\
                  mp_state m = best_state /\
                  In best_state (match best_states s with
                                 | Some b => dict_values b
                                 | None => []
                                 end)).
  assert (HI2 : I w2).
  { split; [exact Hnew|]. intros name Hname. left.
    destruct (Hpaths name Hname) as (_ & H2 & H4 & _).
    apply Hother; [exact H4 | congruence]. }
  assert (HIend : I w').
  { apply pbind_run in Hrun as [(e & Hb & ->) | (best & w3 & Hb & Hrun)].
    { unfold plift in Hb. inversion Hb; subst. exact HI2. }
    apply plift_ok in Hb as [Hb ->].
    assert (Hbest : best_states s = Some best).
    { destruct Hfields as (_ & _ & _ & Hbs & _). rewrite Hbs in Hb.
      destruct (best_states s); [now inversion Hb | discriminate]. }
    assert (Hstep : forall (x : string * state_dict) ms0 st r0 st',
               In x best -> I st ->
               (let '(model_name, best_state) := x in
                serialize_best_model args model_name best_state ms0) st
               = (r0, st') -> I st').
    { intros [name bs] ms0 st r0 st' Hin [Hck Hbp] Hbody.
      assert (Hname : In name (best_names s)).
      { unfold best_names. rewrite Hbest.
        apply (List.in_map fst) in Hin. exact Hin. }
      assert (Hbs : In bs (match best_states s with
                           | Some b => dict_values b
                           | None => []
                           end)).
      { rewrite Hbest. apply (List.in_map snd) in Hin. exact Hin. }
      unfold serialize_best_model in Hbody.
      apply pbind_run in Hbody as [(e & Hs & ->) | (ms1 & st1 & Hs & Hbody)].
      { unfold plift in Hs. inversion Hs; subst. now split. }
      apply plift_ok in Hs as [Hs ->].
      apply pbind_run in Hbody as [(e & Hg & ->) | (m & st2 & Hg & Hbody)].
      { unfold plift in Hg. inversion Hg; subst. now split. }
      apply plift_ok in Hg as [Hg ->].
      assert (Hm : mp_state m = bs).
      { unfold set_package_state in Hs.
        apply rbind_ok in Hs as (m0 & _ & Hs). inversion Hs; subst.
        unfold dict_getitem in Hg. rewrite dict_get_set_eq in Hg.
        now inversion Hg. }
      assert (Hsave : exists r1,
                 save_then_rename (ModelPayload m) (best_tmp args name)
                   (best_path args name) st = (r1, st')).
      { apply pbind_run in Hbody as [(e & Hsv & ->) | (u1 & st3 & Hsv & Hbody)].
        - exists (Raise e). exact Hsv.
        - unfold pret in Hbody. inversion Hbody; subst.
          exists (Ok u1). exact Hsv. }
      destruct Hsave as [r1 Hsave].
      apply save_then_rename_run in Hsave as (Hoth & Hcan & _);
        [|apply not_eq_sym, tmp_path_differs].
      destruct (Hpaths name Hname) as (H1 & H2 & _ & _).
      split.
      - rewrite Hoth by assumption. exact Hck.
      - intros n0 Hn0.
        destruct (Hpaths n0 Hn0) as (_ & _ & _ & H3).
        destruct (string_dec (best_path args n0) (best_path args name))
          as [Heq | Hneq].
        + rewrite Heq.
          destruct Hcan as [[_ Hnew'] | [_ Hsame]].
          * right. exists m, bs. auto.
          * rewrite Hsame, <- Heq. now apply Hbp.
        + rewrite Hoth; [now apply Hbp | now apply H3 | exact Hneq]. }
    apply pbind_run in Hrun as [(e & Hloop & ->) | (ms & w4 & Hloop & Hrun)].
    - revert Hloop. apply pfor_in_state_inv_in; [exact Hstep | exact HI2].
    - unfold pret in Hrun. inversion Hrun; subst. revert Hloop.
      apply pfor_in_state_inv_in; [exact Hstep | exact HI2]. }
  destruct HIend as [Hck Hbp].
  split; [right; exists package; auto|]. split; [exact Hbp|].
  split; [exact Hunit|].
  intros _ package' Hp'. congruence.
Qed.
(** The write of the best generator fails part-way: the truncated file is
    at the temporary path, the canonical checkpoint holds the whole new
    package and the canonical best artifact is as it was (absent). *)
Lemma serialize_is_atomic_witness :
  paths_separate toy_args (best_names toy_best_solver) = true /\
  toy_faulty_run = (Raise OSError, snd toy_faulty_run) /\
  files (snd toy_faulty_run) !! best_tmp toy_args "generator"
    = Some Truncated /\
  files (snd toy_faulty_run) !! best_path toy_args "generator" = None /\
  (files (snd toy_faulty_run) !! checkpoint_file toy_args
     = files faulty_world !! checkpoint_file toy_args \/
   exists package,
     make_package toy_args toy_best_solver = Ok package /\
     files (snd toy_faulty_run) !! checkpoint_file toy_args
       = Some (TorchFile (PackagePayload package)) /\
     pkg_models package = _serialize_models toy_best_solver /\
     _serialize_optimizers toy_args toy_best_solver
       = Ok (pkg_optimizers package) /\
     pkg_history package = history toy_best_solver /\
     pkg_best_states package = best_states toy_best_solver /\
     pkg_args package = toy_args).
Proof.
  assert (H1 : paths_separate toy_args (best_names toy_best_solver) = true)
    by (vm_compute; reflexivity).
  assert (H2 : toy_faulty_run = (Raise OSError, snd toy_faulty_run))
    by (vm_compute; reflexivity).
  split; [exact H1|]. split; [exact H2|].
  split; [vm_compute; reflexivity|]. split; [vm_compute; reflexivity|].
  exact (proj1 (serialize_is_atomic toy_args toy_best_solver faulty_world
                  (Raise OSError) (snd toy_faulty_run) H1 H2)).
Defined.

(** ** The mel term of the vocoder-style variants *)

(** C4, as amended.  The generator-side loss of the mbd variant always has
    the mel-spectrogram L1 term among its summands, and neither flag
    changes it.  The generator-side loss of the hifi variant has the mel
    term among its summands exactly when the only-features-loss flag is
    off (with the flag on it is the sum of the two feature-matching terms
    alone); the only-adversarial-loss flag does not change it. *)
Theorem mel_term_inclusion (args : args_t) (names : list string)
    (shape : list nat) (n_stft : nat) (pr hr : sym) :
  (forall g d,
      _get_mbd_adversarial_loss (C := SymCollaborators names shape n_stft)
        args pr hr = Ok (g, d) ->
      exists gs, g = PyTensor gs /\ In (mel_term args pr hr) (summands gs)) /\
  (forall a f,
      _get_mbd_adversarial_loss (C := SymCollaborators names shape n_stft)
        (with_only_flags a f args) pr hr
      = _get_mbd_adversarial_loss (C := SymCollaborators names shape n_stft)
          (with_only_flags false false args) pr hr) /\
  (forall g d,
      _get_hifi_adversarial_loss (C := SymCollaborators names shape n_stft)
        args pr hr = Ok (g, d) ->
      exists gs,
        g = PyTensor gs /\
        (In (mel_term args pr hr) (summands gs)
         <-> only_features_loss (experiment args) = false)) /\
  (forall a f,
      _get_hifi_adversarial_loss (C := SymCollaborators names shape n_stft)
        (with_only_flags a f args) pr hr
      = _get_hifi_adversarial_loss (C := SymCollaborators names shape n_stft)
          (with_only_flags false f args) pr hr).
Proof.
  split; [|split; [|split]].
  - intros g d H. unfold _get_mbd_adversarial_loss in H.
    apply rbind_ok in H as (u & _ & H).
    apply rbind_ok in H as (mt & Hmt & H).
    unfold get_melspec_transform in Hmt.
    destruct (has_melspec_transform args); [|discriminate].
    inversion Hmt; subst; clear Hmt. inversion H; subst; clear H.
    eexists. split; [reflexivity|]. simpl.
    right. right. left. reflexivity.
  - intros a f. reflexivity.
  - intros g d H. unfold _get_hifi_adversarial_loss in H.
    apply rbind_ok in H as (u1 & _ & H).
    apply rbind_ok in H as (u2 & _ & H).
    apply rbind_ok in H as (mt & Hmt & H).
    unfold get_melspec_transform in Hmt.
    destruct (has_melspec_transform args); [|discriminate].
    inversion Hmt; subst; clear Hmt. inversion H; subst; clear H.
    eexists. split; [reflexivity|].
    destruct (only_features_loss (experiment args)); simpl.
    + split; [|discriminate].
      intros [H | [H | []]]; discriminate.
    + split; [reflexivity|]. intros _.
      right. right. right. right. left. reflexivity.
  - intros a f. reflexivity.
Qed.

(** With every variant active, the mbd and the hifi computations return,
    and both generator losses carry the mel term. *)
Lemma mel_term_inclusion_witness :
  (exists g d gs,
      _get_mbd_adversarial_loss (C := SymCollaborators all_dmodels [3; 3]%nat 3)
        all_variants_args (Input Prediction "time") (Input Target "time")
      = Ok (g, d) /\
      g = PyTensor gs /\
      In (mel_term all_variants_args (Input Prediction "time")
            (Input Target "time")) (summands gs)) /\
  (exists g d gs,
      _get_hifi_adversarial_loss (C := SymCollaborators all_dmodels [3; 3]%nat 3)
        all_variants_args (Input Prediction "time") (Input Target "time")
      = Ok (g, d) /\
      g = PyTensor gs /\
      (In (mel_term all_variants_args (Input Prediction "time")
             (Input Target "time")) (summands gs)
       <-> only_features_loss (experiment all_variants_args) = false)).
Proof.
  pose proof (mel_term_inclusion all_variants_args all_dmodels [3; 3]%nat
                3%nat (Input Prediction "time") (Input Target "time"))
    as (Hmbd & _ & Hhifi & _).
  split.
  - eexists. eexists.
    destruct (Hmbd _ _ eq_refl) as (gs & Hg & Hin).
    exists gs. split; [reflexivity|]. split; [exact Hg | exact Hin].
  - eexists. eexists.
    destruct (Hhifi _ _ eq_refl) as (gs & Hg & Hin).
    exists gs. split; [reflexivity|]. split; [exact Hg | exact Hin].
Defined.

(** C4 as stated fails for hifi: with the only-features-loss flag set the
    variant returns the sum of its two feature-matching terms, and the mel
    term is not among the summands. *)
Lemma hifi_features_only_drops_mel :
  exists gs d,
    only_features_loss (experiment hifi_features_only_args) = true /\
    _get_hifi_adversarial_loss (C := SymCollaborators all_dmodels [3; 3]%nat 3)
      hifi_features_only_args (Input Prediction "time") (Input Target "time")
    = Ok (PyTensor gs, d) /\
    length (summands gs) = 2%nat /\
    ~ In (mel_term hifi_features_only_args (Input Prediction "time")
            (Input Target "time")) (summands gs).
Proof.
  eexists. eexists. split; [reflexivity|]. split; [reflexivity|].
  split; [reflexivity|].
  simpl. intros [H | [H | []]]; discriminate.
Qed.

(** ** Detachment *)

Section Detachment.
Variable q : pass -> bool.

Lemma all_passes_py_add (a : pynum sscalar) (s : sscalar) :
  all_passes q (py_add (T := SymTorch) a (PyTensor s))
  = all_passes q a && forallb q (passes_of_scalar s).
Proof.
  unfold all_passes. destruct a; simpl; try reflexivity.
  apply forallb_app.
Qed.

Lemma all_passes_py_add_l (a : pynum sscalar) (b : pynum sscalar) :
  all_passes q a = true -> all_passes q b = true ->
  all_passes q (py_add (T := SymTorch) a b) = true.
Proof.
  unfold all_passes. destruct a, b; simpl; intros Ha Hb; try reflexivity;
    try assumption; rewrite ?app_nil_r; try assumption.
  rewrite forallb_app. now rewrite Ha, Hb.
Qed.

Lemma all_passes_mul (x : Q) (a : pynum sscalar) :
  all_passes q (py_mul_float (T := SymTorch) x a) = all_passes q a.
Proof. destruct a; reflexivity. Qed.

Lemma all_passes_div (a v : pynum sscalar) (n : Z) :
  py_div_int (T := SymTorch) a n = Ok v -> all_passes q v = all_passes q a.
Proof.
  destruct a; simpl.
  - destruct (Z.eqb n 0); intros H; inversion H; reflexivity.
  - destruct (Z.eqb n 0); intros H; inversion H; reflexivity.
  - intros H; inversion H; reflexivity.
Qed.

Lemma last_item_in {A} (l : list A) (x : A) : last_item l = Ok x -> In x l.
Proof.
  unfold last_item. destruct (rev l) as [|y r] eqn:E; [discriminate|].
  intros H. inversion H; subst. apply in_rev. rewrite E. now left.
Qed.

Lemma getitem_in {A} (l : list A) (i : nat) (x : A) :
  getitem l i = Ok x -> In x l.
Proof.
  unfold getitem. destruct (nth_error l i) eqn:E; [|discriminate].
  intros H. inversion H; subst. eapply nth_error_In; eauto.
Qed.

(** The hinge loops: [for scale in outs: loss += f(scale[-1])]. *)
Lemma hinge_loop_passes (f : sym -> sscalar) (outs : list (list sym))
    (acc v : pynum sscalar) :
  (forall t, passes_of_scalar (f t) = passes_of_tensor t) ->
  Forall (Forall (fun t => tensor_passes q t = true)) outs ->
  all_passes q acc = true ->
  for_in outs (fun scale acc =>
                 let? top := last_item scale in
                 Ok (py_add (T := SymTorch) acc (PyTensor (f top)))) acc = Ok v ->
  all_passes q v = true.
Proof.
  intros Hf Houts. revert acc.
  induction Houts as [|scale outs Hscale Houts IH]; intros acc Hacc Hrun.
  - simpl in Hrun. inversion Hrun; subst. exact Hacc.
  - simpl in Hrun. apply rbind_ok in Hrun as (acc1 & Hstep & Hrest).
    apply rbind_ok in Hstep as (top & Htop & Hstep).
    inversion Hstep; subst; clear Hstep.
    apply (IH _) in Hrest; [exact Hrest|].
    rewrite all_passes_py_add, Hacc, Hf. simpl.
    apply last_item_in in Htop.
    rewrite List.Forall_forall in Hscale. now apply Hscale.
Qed.

(** The feature-matching double loop of the melgan variant. *)
Lemma melgan_features_passes (args : args_t) (fake real : list (list sym))
    (v : pynum sscalar) :
  Forall (Forall (fun t => tensor_passes q t = true)) fake ->
  Forall (Forall (fun t => tensor_passes q t = true)) real ->
  melgan_features_loss (T := SymTorch) args fake real = Ok v ->
  all_passes q v = true.
Proof.
  intros Hfake Hreal Hrun. unfold melgan_features_loss in Hrun.
  apply rbind_ok in Hrun as (fw & _ & Hrun).
  apply rbind_ok in Hrun as (dw & _ & Hrun).
  assert (Hpick : forall (outs : list (list sym)) i j l t,
             Forall (Forall (fun t => tensor_passes q t = true)) outs ->
             getitem outs i = Ok l -> getitem l j = Ok t ->
             tensor_passes q t = true).
  { intros outs i j l t Houts Hl Ht.
    apply getitem_in in Hl. apply getitem_in in Ht.
    rewrite List.Forall_forall in Houts. specialize (Houts l Hl).
    rewrite List.Forall_forall in Houts. now apply Houts. }
  set (I := fun (_ : list nat) (acc : pynum sscalar) =>
              all_passes q acc = true).
  apply (for_in_ind I) with (done := []) in Hrun; [exact Hrun| |reflexivity].
  intros done i acc acc' Hacc Hbody.
  apply rbind_ok in Hbody as (fake_i & Hfi & Hbody).
  apply (for_in_ind I) with (done := []) in Hbody; [exact Hbody| |exact Hacc].
  intros done' j acc0 acc0' Hacc0 Hbody0.
  apply rbind_ok in Hbody0 as (fake_i' & Hfi' & Hbody0).
  apply rbind_ok in Hbody0 as (fake_ij & Hfij & Hbody0).
  apply rbind_ok in Hbody0 as (real_i & Hri & Hbody0).
  apply rbind_ok in Hbody0 as (real_ij & Hrij & Hbody0).
  inversion Hbody0; subst; clear Hbody0.
  unfold I. rewrite all_passes_py_add. unfold I in Hacc0. rewrite Hacc0. simpl.
  rewrite forallb_app.
  pose proof (Hpick fake i j fake_i' fake_ij Hfake Hfi' Hfij) as H1.
  pose proof (Hpick real i j real_i real_ij Hreal Hri Hrij) as H2.
  unfold tensor_passes in H1, H2. now rewrite H1, H2.
Qed.

(** The feature-matching loop of the stft variant. *)
Lemma stft_feature_passes (real fake : list sym) (v : pynum sscalar) :
  Forall (fun t => tensor_passes q t = true) fake ->
  Forall (fun t => tensor_passes q t = true) real ->
  stft_feature_loss (T := SymTorch) real fake = Ok v ->
  all_passes q v = true.
Proof.
  intros Hfake Hreal Hrun. unfold stft_feature_loss in Hrun.
  apply rbind_ok in Hrun as (fl & Hloop & Hdiv).
  rewrite (all_passes_div _ _ _ Hdiv).
  set (I := fun (_ : list nat) (acc : pynum sscalar) =>
              all_passes q acc = true).
  apply (for_in_ind I) with (done := []) in Hloop; [exact Hloop| |reflexivity].
  intros done i acc acc' Hacc Hbody.
  apply rbind_ok in Hbody as (fake_i & Hfi & Hbody).
  apply rbind_ok in Hbody as (real_i & Hri & Hbody).
  inversion Hbody; subst; clear Hbody.
  unfold I. rewrite all_passes_py_add. unfold I in Hacc. rewrite Hacc. simpl.
  rewrite forallb_app.
  apply getitem_in in Hfi. apply getitem_in in Hri.
  rewrite List.Forall_forall in Hfake, Hreal.
  pose proof (Hfake _ Hfi) as H1. pose proof (Hreal _ Hri) as H2.
  unfold tensor_passes in H1, H2. now rewrite H1, H2.
Qed.

(** What a symbolic discriminator returns was computed by one forward
    pass on its input. *)
Lemma multi_scale_outputs (names : list string) (shape : list nat)
    (n_stft : nat) (d : string) (x : sym) :
  q {| pass_disc := d; pass_inputs := [x] |} = true ->
  tensor_passes q x = true ->
  Forall (Forall (fun t => tensor_passes q t = true))
    (multi_scale_forward (Collaborators := SymCollaborators names shape n_stft)
       d x).
Proof.
  intros Hq Hx. simpl. apply List.Forall_forall. intros scale Hscale.
  apply List.in_map_iff in Hscale as (i & <- & _).
  apply List.Forall_forall. intros t Ht.
  apply List.in_map_iff in Ht as (j & <- & _).
  unfold tensor_passes in *. simpl. now rewrite Hq, Hx.
Qed.

Lemma single_scale_outputs (names : list string) (shape : list nat)
    (n_stft : nat) (d : string) (x : sym) :
  q {| pass_disc := d; pass_inputs := [x] |} = true ->
  tensor_passes q x = true ->
  Forall (fun t => tensor_passes q t = true)
    (single_scale_forward (Collaborators := SymCollaborators names shape n_stft)
       d x).
Proof.
  intros Hq Hx. simpl. apply List.Forall_forall. intros t Ht.
  apply List.in_map_iff in Ht as (j & <- & _).
  unfold tensor_passes in *. simpl. now rewrite Hq, Hx.
Qed.

End Detachment.
Lemma dict_set_forall {V} (P : string * V -> Prop) (k : string) (v : V)
    (d : pydict V) :
  Forall P d -> P (k, v) -> Forall P (dict_set k v d).
Proof.
  intros Hd Hv. induction d as [|[k' v'] d IH]; simpl.
  - constructor; [exact Hv | constructor].
  - inversion Hd; subst. destruct (String.eqb k k').
    + constructor; assumption.
    + constructor; [assumption | now apply IH].
Qed.

Lemma gen_update_ok (L : losses_t (T := SymTorch)) (k : string)
    (v : pynum sscalar) :
  losses_ok L -> all_passes consumes_attached v = true ->
  losses_ok (gen_update L k v).
Proof.
  intros [Hg Hd] Hv. split; [|exact Hd]. simpl.
  now apply dict_set_forall.
Qed.

Lemma disc_update_ok (L : losses_t (T := SymTorch)) (k : string)
    (v : pynum sscalar) :
  losses_ok L -> all_passes consumes_detached v = true ->
  losses_ok (disc_update L k v).
Proof.
  intros [Hg Hd] Hv. split; [exact Hg|]. simpl.
  now apply dict_set_forall.
Qed.

Lemma dict_getitem_forall {V} (P : string * V -> Prop) (k : string) (v : V)
    (d : pydict V) :
  Forall P d -> dict_getitem k d = Ok v -> exists k', P (k', v).
Proof.
  unfold dict_getitem. intros Hd. induction Hd as [|[k' v'] d Hx Hd IH]; simpl.
  - discriminate.
  - destruct (String.eqb k k').
    + intros H. inversion H; subst. eauto.
    + exact IH.
Qed.

Lemma add_split_losses_ok (args : args_t) (name : string)
    (gl : pydict (pynum sscalar)) (dl : pynum sscalar)
    (L L' : losses_t (T := SymTorch)) :
  Forall (fun kv => all_passes consumes_attached (snd kv) = true) gl ->
  all_passes consumes_detached dl = true ->
  losses_ok L ->
  add_split_losses (T := SymTorch) args name gl dl L = Ok L' ->
  losses_ok L'.
Proof.
  intros Hgl Hdl HL Hrun. unfold add_split_losses in Hrun.
  apply rbind_ok in Hrun as (L1 & H1 & Hrun).
  apply rbind_ok in Hrun as (L2 & H2 & Hrun).
  inversion Hrun; subst; clear Hrun.
  apply disc_update_ok; [|exact Hdl].
  assert (HL1 : losses_ok L1).
  { destruct (negb (only_features_loss (experiment args))).
    - apply rbind_ok in H1 as (v & Hv & H1). inversion H1; subst.
      apply gen_update_ok; [exact HL|].
      apply (dict_getitem_forall _ _ _ _ Hgl) in Hv as [k' Hv]. exact Hv.
    - now inversion H1; subst. }
  destruct (negb (only_adversarial_loss (experiment args))).
  - apply rbind_ok in H2 as (v & Hv & H2). inversion H2; subst.
    apply gen_update_ok; [exact HL1|].
    apply (dict_getitem_forall _ _ _ _ Hgl) in Hv as [k' Hv]. exact Hv.
  - now inversion H2; subst.
Qed.

Lemma add_joint_losses_ok (name : string) (g d : pynum sscalar)
    (L : losses_t (T := SymTorch)) :
  all_passes consumes_attached g = true ->
  all_passes consumes_detached d = true ->
  losses_ok L -> losses_ok (add_joint_losses (T := SymTorch) name g d L).
Proof.
  intros Hg Hd HL. unfold add_joint_losses.
  apply disc_update_ok; [|exact Hd]. now apply gen_update_ok.
Qed.

(** Evaluate the list of passes, using the facts at hand on the inputs. *)
Ltac pass_calc :=
  repeat (progress (simpl;
                    repeat match goal with
                           | H : _ = _ |- _ => rewrite H
                           end)).

Section VariantPasses.
Variable args : args_t.
Variable names : list string.
Variable shape : list nat.
Variable n_stft : nat.

#[local] Abbreviation SC := (SymCollaborators names shape n_stft).

(** The passes that the variants make. *)
Lemma pass_on_target (d : string) (hr : sym) :
  good_target hr ->
  consumes_attached {| pass_disc := d; pass_inputs := [hr] |} = true /\
  consumes_detached {| pass_disc := d; pass_inputs := [hr] |} = true.
Proof.
  intros [Hm _]. unfold consumes_attached, consumes_detached. simpl.
  now rewrite Hm.
Qed.

Lemma pass_on_pair_detached (d : string) (hr pr : sym) :
  good_target hr ->
  consumes_detached
    {| pass_disc := d; pass_inputs := [hr; Detach pr] |} = true.
Proof.
  intros [Hm _]. unfold consumes_detached. simpl. rewrite Hm. simpl.
  now destruct (mentions_prediction pr).
Qed.

Lemma pass_on_pair_attached (d : string) (hr pr : sym) :
  good_target hr -> good_prediction pr ->
  consumes_attached {| pass_disc := d; pass_inputs := [hr; pr] |} = true.
Proof.
  intros [Hm _] (Ha & Hp & _). unfold consumes_attached. simpl.
  now rewrite Hm, Ha, Hp.
Qed.

Lemma split_generator_losses_ok (g_adv g_feat : sscalar) :
  forallb consumes_attached (passes_of_scalar g_adv) = true ->
  forallb consumes_attached (passes_of_scalar g_feat) = true ->
  Forall (fun kv => all_passes consumes_attached (snd kv) = true)
    (split_generator_losses (T := SymTorch) args g_adv g_feat).
Proof.
  intros Ha Hf. unfold split_generator_losses.
  destruct (only_adversarial_loss (experiment args));
    [|destruct (only_features_loss (experiment args))];
    repeat constructor; assumption.
Qed.

(** A two-argument discriminator: the discriminator loss sees the
    prediction detached, the generator terms see it attached. *)
Lemma pair_losses_ok (d : string) (hr pr : sym) :
  good_target hr -> good_prediction pr ->
  let od := pair_forward (Collaborators := SC) d hr (Detach pr) in
  let og := pair_forward (Collaborators := SC) d hr pr in
  forallb consumes_detached
    (passes_of_scalar (SDiscLoss (y_hat_r od) (y_hat_g od))) = true /\
  forallb consumes_attached
    (passes_of_scalar (SFeatLoss (fmap_r og) (fmap_g og))) = true /\
  forallb consumes_attached (passes_of_scalar (SGenLoss (y_hat_g og))) = true.
Proof.
  intros Hhr Hpr.
  pose proof (pass_on_pair_detached d hr pr Hhr) as Hd.
  pose proof (pass_on_pair_attached d hr pr Hhr Hpr) as Ha.
  destruct Hhr as [Hm Hp]. destruct Hpr as (Hat & Hmp & Hpp).
  pass_calc. auto.
Qed.

Lemma msd_losses_ok (hr pr : sym) (L L' : losses_t (T := SymTorch)) :
  good_target hr -> good_prediction pr -> losses_ok L ->
  msd_losses (C := SC) args hr pr L = Ok L' -> losses_ok L'.
Proof.
  intros Hhr Hpr HL Hrun. unfold msd_losses in Hrun.
  apply rbind_ok in Hrun as ([gl dl] & Hloss & Hrun).
  unfold _get_msd_adversarial_loss in Hloss.
  apply rbind_ok in Hloss as (u & _ & Hloss). inversion Hloss; subst.
  destruct (pair_losses_ok "msd" hr pr Hhr Hpr) as (Hd & Hf & Hg).
  eapply add_split_losses_ok; [| |exact HL|exact Hrun].
  - now apply split_generator_losses_ok.
  - exact Hd.
Qed.

Lemma mpd_losses_ok (hr pr : sym) (L L' : losses_t (T := SymTorch)) :
  good_target hr -> good_prediction pr -> losses_ok L ->
  mpd_losses (C := SC) args hr pr L = Ok L' -> losses_ok L'.
Proof.
  intros Hhr Hpr HL Hrun. unfold mpd_losses in Hrun.
  apply rbind_ok in Hrun as ([gl dl] & Hloss & Hrun).
  unfold _get_mpd_adversarial_loss in Hloss.
  apply rbind_ok in Hloss as (u & _ & Hloss). inversion Hloss; subst.
  destruct (pair_losses_ok "mpd" hr pr Hhr Hpr) as (Hd & Hf & Hg).
  eapply add_split_losses_ok; [| |exact HL|exact Hrun].
  - now apply split_generator_losses_ok.
  - exact Hd.
Qed.

Lemma spec_adversarial_loss_ok (hr pr : sym) gl dl :
  good_target hr -> good_prediction pr ->
  _get_spec_adversarial_loss (C := SC) args pr hr = Ok (gl, dl) ->
  Forall (fun kv => all_passes consumes_attached (snd kv) = true) gl /\
  all_passes consumes_detached dl = true.
Proof.
  intros Hhr Hpr Hloss. unfold _get_spec_adversarial_loss in Hloss.
  apply rbind_ok in Hloss as (u & _ & Hloss). inversion Hloss; subst.
  destruct (pair_losses_ok "spec" hr pr Hhr Hpr) as (Hd & Hf & Hg).
  split; [now apply split_generator_losses_ok | exact Hd].
Qed.

Lemma hifi_losses_ok (hr pr : sym) (L L' : losses_t (T := SymTorch)) :
  good_target hr -> good_prediction pr -> losses_ok L ->
  hifi_losses (C := SC) args hr pr L = Ok L' -> losses_ok L'.
Proof.
  intros Hhr Hpr HL Hrun. unfold hifi_losses in Hrun.
  apply rbind_ok in Hrun as ([g d] & Hloss & Hrun).
  inversion Hrun; subst; clear Hrun.
  unfold _get_hifi_adversarial_loss in Hloss.
  apply rbind_ok in Hloss as (u1 & _ & Hloss).
  apply rbind_ok in Hloss as (u2 & _ & Hloss).
  apply rbind_ok in Hloss as (mt & Hmt & Hloss).
  unfold get_melspec_transform in Hmt.
  destruct (has_melspec_transform args); [|discriminate].
  inversion Hmt; subst; clear Hmt. inversion Hloss; subst; clear Hloss.
  pose proof (pass_on_pair_detached "mpd" hr pr Hhr) as Hd1.
  pose proof (pass_on_pair_attached "mpd" hr pr Hhr Hpr) as Ha1.
  pose proof (pass_on_pair_detached "msd" hr pr Hhr) as Hd2.
  pose proof (pass_on_pair_attached "msd" hr pr Hhr Hpr) as Ha2.
  destruct Hhr as [Hm Hp]. destruct Hpr as (Hat & Hmp & Hpp).
  apply add_joint_losses_ok; [| |exact HL]; unfold all_passes.
  - destruct (only_features_loss (experiment args)); pass_calc; reflexivity.
  - pass_calc. reflexivity.
Qed.

Lemma mbd_losses_ok (hr pr : sym) (L L' : losses_t (T := SymTorch)) :
  good_target hr -> good_prediction pr -> losses_ok L ->
  mbd_losses (C := SC) args hr pr L = Ok L' -> losses_ok L'.
Proof.
  intros Hhr Hpr HL Hrun. unfold mbd_losses in Hrun.
  apply rbind_ok in Hrun as ([g d] & Hloss & Hrun).
  inversion Hrun; subst; clear Hrun.
  unfold _get_mbd_adversarial_loss in Hloss.
  apply rbind_ok in Hloss as (u1 & _ & Hloss).
  apply rbind_ok in Hloss as (mt & Hmt & Hloss).
  unfold get_melspec_transform in Hmt.
  destruct (has_melspec_transform args); [|discriminate].
  inversion Hmt; subst; clear Hmt. inversion Hloss; subst; clear Hloss.
  pose proof (pass_on_pair_detached "mbd" hr pr Hhr) as Hd1.
  pose proof (pass_on_pair_attached "mbd" hr pr Hhr Hpr) as Ha1.
  destruct Hhr as [Hm Hp]. destruct Hpr as (Hat & Hmp & Hpp).
  apply add_joint_losses_ok; [| |exact HL]; unfold all_passes;
    pass_calc; reflexivity.
Qed.

Lemma good_target_squeeze_melspec (t : sym) :
  good_target t -> good_target (Squeeze (MelSpec t)).
Proof. intros H. exact H. Qed.

Lemma good_prediction_squeeze_melspec (t : sym) :
  good_prediction t -> good_prediction (Squeeze (MelSpec t)).
Proof. intros H. exact H. Qed.

Lemma spec_losses_ok (hr pr : pydict sym) (hr_time pr_time : sym)
    (L L' : losses_t (T := SymTorch)) :
  Forall (fun kv => good_target (snd kv)) hr ->
  Forall (fun kv => good_prediction (snd kv)) pr ->
  good_target hr_time -> good_prediction pr_time -> losses_ok L ->
  spec_losses (C := SC) args hr pr hr_time pr_time L = Ok L' -> losses_ok L'.
Proof.
  intros Hhr Hpr Hht Hpt HL Hrun. unfold spec_losses in Hrun.
  apply rbind_ok in Hrun as ([hs ps] & Hspec & Hrun).
  apply rbind_ok in Hrun as ([gl dl] & Hloss & Hrun).
  assert (Hgood : good_target hs /\ good_prediction ps).
  { destruct (mel_spec_transform (experiment args)).
    - apply rbind_ok in Hspec as (mt & Hmt & Hspec).
      unfold get_melspec_transform in Hmt.
      destruct (has_melspec_transform args); [|discriminate].
      inversion Hmt; subst; clear Hmt. inversion Hspec; subst.
      split; [now apply good_target_squeeze_melspec
             |now apply good_prediction_squeeze_melspec].
    - apply rbind_ok in Hspec as (h & Hh & Hspec).
      apply rbind_ok in Hspec as (p & Hp & Hspec).
      inversion Hspec; subst.
      apply (dict_getitem_forall _ _ _ _ Hhr) in Hh as [k1 Hh].
      apply (dict_getitem_forall _ _ _ _ Hpr) in Hp as [k2 Hp].
      split; [exact Hh | exact Hp]. }
  destruct Hgood as [Hhs Hps].
  destruct (spec_adversarial_loss_ok hs ps gl dl Hhs Hps Hloss) as [Hg Hd].
  eapply add_split_losses_ok; [exact Hg|exact Hd|exact HL|exact Hrun].
Qed.

(** The single-input discriminators: the three passes of a hinge
    variant. *)
Lemma single_pass_detached (d : string) (pr : sym) :
  consumes_detached {| pass_disc := d; pass_inputs := [Detach pr] |} = true.
Proof.
  unfold consumes_detached. simpl. now destruct (mentions_prediction pr).
Qed.

Lemma single_pass_attached (d : string) (pr : sym) :
  good_prediction pr ->
  consumes_attached {| pass_disc := d; pass_inputs := [pr] |} = true.
Proof.
  intros (Ha & Hm & _). unfold consumes_attached. simpl. now rewrite Ha, Hm.
Qed.

Lemma melgan_losses_ok (hr pr : sym) (L L' : losses_t (T := SymTorch)) :
  good_target hr -> good_prediction pr -> losses_ok L ->
  melgan_losses (C := SC) args hr pr L = Ok L' -> losses_ok L'.
Proof.
  intros Hhr Hpr HL Hrun. unfold melgan_losses in Hrun.
  apply rbind_ok in Hrun as ([gl dl] & Hloss & Hrun).
  unfold _get_melgan_adversarial_loss in Hloss.
  apply rbind_ok in Hloss as (u & _ & Hloss).
  apply rbind_ok in Hloss as (dl' & Hdl & Hloss).
  apply rbind_ok in Hloss as (gl' & Hgl & Hloss).
  inversion Hloss; subst; clear Hloss.
  destruct (pass_on_target "melgan" hr Hhr) as [Hra Hrd].
  pose proof (single_pass_detached "melgan" pr) as Hfd.
  pose proof (single_pass_attached "melgan" pr Hpr) as Hfa.
  destruct Hhr as [Hm Hp]. destruct Hpr as (Hat & Hmp & Hpp).
  assert (Hreal_d := multi_scale_outputs consumes_detached names shape n_stft
                       "melgan" hr Hrd).
  assert (Hreal_a := multi_scale_outputs consumes_attached names shape n_stft
                       "melgan" hr Hra).
  assert (Hfake_d := multi_scale_outputs consumes_detached names shape n_stft
                       "melgan" (Detach pr) Hfd).
  assert (Hfake_a := multi_scale_outputs consumes_attached names shape n_stft
                       "melgan" pr Hfa).
  unfold tensor_passes in Hreal_d, Hreal_a, Hfake_d, Hfake_a.
  simpl passes_of_tensor in Hfake_d.
  rewrite Hp in Hreal_d, Hreal_a. rewrite Hpp in Hfake_d, Hfake_a.
  specialize (Hreal_d eq_refl). specialize (Hreal_a eq_refl).
  specialize (Hfake_d eq_refl). specialize (Hfake_a eq_refl).
  eapply add_split_losses_ok; [| |exact HL|exact Hrun].
  - (* the generator's terms *)
    unfold _get_melgan_generator_loss in Hgl.
    apply rbind_ok in Hgl as (fl & Hfl & Hgl).
    apply rbind_ok in Hgl as (al & Hal & Hgl).
    apply (melgan_features_passes consumes_attached) in Hfl;
      [|exact Hfake_a|exact Hreal_a].
    apply (hinge_loop_passes consumes_attached
             (relu_one_minus_mean (Torch := SymTorch))) in Hal;
      [|reflexivity|exact Hfake_a|reflexivity].
    destruct (only_adversarial_loss (experiment args));
      [|destruct (only_features_loss (experiment args))];
      inversion Hgl; subst; repeat constructor; simpl;
      rewrite ?all_passes_mul; assumption.
  - (* the discriminator's loss *)
    unfold _get_melgan_discriminator_loss in Hdl.
    apply rbind_ok in Hdl as (d1 & Hd1 & Hdl).
    apply rbind_ok in Hdl as (d2 & Hd2 & Hdl).
    inversion Hdl; subst; clear Hdl.
    apply (hinge_loop_passes consumes_detached
             (relu_one_plus_mean (Torch := SymTorch))) in Hd1;
      [|reflexivity|exact Hfake_d|reflexivity].
    apply (hinge_loop_passes consumes_detached
             (relu_one_minus_mean (Torch := SymTorch))) in Hd2;
      [exact Hd2|reflexivity|exact Hreal_d|exact Hd1].
Qed.

Lemma top_passes (q : pass -> bool) (outs : list sym) (top : sym) :
  Forall (fun t => tensor_passes q t = true) outs ->
  last_item outs = Ok top ->
  forallb q (passes_of_tensor top) = true.
Proof.
  intros Houts Htop. apply last_item_in in Htop.
  rewrite List.Forall_forall in Houts. now apply Houts.
Qed.

Lemma stft_adversarial_loss_ok (hr pr : sym) (g d : pynum sscalar) :
  good_target hr -> good_prediction pr ->
  _get_stft_adversarial_loss (C := SC) args pr hr = Ok (g, d) ->
  all_passes consumes_attached g = true /\
  all_passes consumes_detached d = true.
Proof.
  intros Hhr Hpr Hloss. unfold _get_stft_adversarial_loss in Hloss.
  apply rbind_ok in Hloss as (u & _ & Hloss).
  apply rbind_ok in Hloss as (dl & Hdl & Hloss).
  apply rbind_ok in Hloss as (gl & Hgl & Hloss).
  inversion Hloss; subst; clear Hloss.
  destruct (pass_on_target "stft_disc" hr Hhr) as [Hra Hrd].
  pose proof (single_pass_detached "stft_disc" pr) as Hfd.
  pose proof (single_pass_attached "stft_disc" pr Hpr) as Hfa.
  destruct Hhr as [Hm Hp]. destruct Hpr as (Hat & Hmp & Hpp).
  assert (Hreal_d := single_scale_outputs consumes_detached names shape n_stft
                       "stft_disc" hr Hrd).
  assert (Hreal_a := single_scale_outputs consumes_attached names shape n_stft
                       "stft_disc" hr Hra).
  assert (Hfake_d := single_scale_outputs consumes_detached names shape n_stft
                       "stft_disc" (Contiguous (Detach pr)) Hfd).
  assert (Hfake_a := single_scale_outputs consumes_attached names shape n_stft
                       "stft_disc" pr Hfa).
  unfold tensor_passes in Hreal_d, Hreal_a, Hfake_d, Hfake_a.
  simpl passes_of_tensor in Hfake_d.
  rewrite Hp in Hreal_d, Hreal_a. rewrite Hpp in Hfake_d, Hfake_a.
  specialize (Hreal_d eq_refl). specialize (Hreal_a eq_refl).
  specialize (Hfake_d eq_refl). specialize (Hfake_a eq_refl).
  split.
  - unfold _get_stft_generator_loss in Hgl.
    apply rbind_ok in Hgl as (fake_top & Htop & Hgl).
    apply rbind_ok in Hgl as (fl & Hfl & Hgl).
    inversion Hgl; subst; clear Hgl.
    apply (stft_feature_passes consumes_attached) in Hfl;
      [|exact Hfake_a|exact Hreal_a].
    unfold all_passes. simpl. rewrite forallb_app.
    rewrite (top_passes _ _ _ Hfake_a Htop). simpl.
    destruct fl; simpl; try reflexivity. exact Hfl.
  - unfold _get_stft_discriminator_loss in Hdl.
    apply rbind_ok in Hdl as (fake_top & Hft & Hdl).
    apply rbind_ok in Hdl as (real_top & Hrt & Hdl).
    inversion Hdl; subst; clear Hdl.
    unfold all_passes. simpl. rewrite forallb_app.
    rewrite (top_passes _ _ _ Hfake_d Hft), (top_passes _ _ _ Hreal_d Hrt).
    reflexivity.
Qed.

Lemma stft_losses_ok (hr pr : pydict sym) (L L' : losses_t (T := SymTorch)) :
  Forall (fun kv => good_target (snd kv)) hr ->
  Forall (fun kv => good_prediction (snd kv)) pr ->
  losses_ok L ->
  stft_losses (C := SC) args hr pr L = Ok L' -> losses_ok L'.
Proof.
  intros Hhr Hpr HL Hrun. unfold stft_losses in Hrun.
  apply rbind_ok in Hrun as (hs & Hhs & Hrun).
  apply rbind_ok in Hrun as (ps & Hps & Hrun).
  apply rbind_ok in Hrun as ([g d] & Hloss & Hrun).
  inversion Hrun; subst; clear Hrun.
  apply (dict_getitem_forall _ _ _ _ Hhr) in Hhs as [k1 Hhs].
  apply (dict_getitem_forall _ _ _ _ Hpr) in Hps as [k2 Hps].
  simpl in Hhs, Hps.
  assert (Hh : good_target (Permute (ViewAsReal (Squeeze hs)))) by exact Hhs.
  assert (Hp : good_prediction (Permute (ViewAsReal (Squeeze ps))))
    by exact Hps.
  destruct (stft_adversarial_loss_ok _ _ _ _ Hh Hp Hloss) as [Hg Hd].
  now apply add_joint_losses_ok.
Qed.

Lemma when_ok (c : bool)
    (step : losses_t (T := SymTorch) -> result (losses_t (T := SymTorch)))
    (L L' : losses_t (T := SymTorch)) :
  (forall L0 L1, losses_ok L0 -> step L0 = Ok L1 -> losses_ok L1) ->
  losses_ok L -> when c step L = Ok L' -> losses_ok L'.
Proof.
  intros Hstep HL Hrun. unfold when in Hrun. destruct c.
  - eapply Hstep; eauto.
  - now inversion Hrun; subst.
Qed.

(** The terms that no discriminator takes part in come from no pass. *)
Lemma plain_term_ok (L : losses_t (T := SymTorch)) (k : string)
    (s : sscalar) :
  passes_of_scalar s = [] -> losses_ok L ->
  losses_ok (gen_update L k (PyTensor s)).
Proof.
  intros Hs HL. apply gen_update_ok; [exact HL|].
  unfold all_passes. simpl. now rewrite Hs.
Qed.

Lemma get_losses_ok (hr pr : pydict sym) (L : losses_t (T := SymTorch)) :
  Forall (fun kv => good_target (snd kv)) hr ->
  Forall (fun kv => good_prediction (snd kv)) pr ->
  _get_losses (C := SC) args hr pr = Ok L -> losses_ok L.
Proof.
  intros Hhr Hpr Hrun. unfold _get_losses in Hrun.
  apply rbind_ok in Hrun as (hr_time & Hht & Hrun).
  apply rbind_ok in Hrun as (pr_time & Hpt & Hrun).
  apply (dict_getitem_forall _ _ _ _ Hhr) in Hht as [k1 Hht].
  apply (dict_getitem_forall _ _ _ _ Hpr) in Hpt as [k2 Hpt].
  simpl in Hht, Hpt.
  assert (H0 : losses_ok
                 ({| generator := []; discriminator := [] |}
                  : losses_t (T := SymTorch)))
    by (split; constructor).
  pose proof Hht as [Hm Hp]. pose proof Hpt as (Hat & Hmp & Hpp).
  apply rbind_ok in Hrun as (L1 & H1 & Hrun).
  apply when_ok in H1; [|clear H1|exact H0].
  2:{ intros La Lb Ha Hb. inversion Hb; subst.
      apply plain_term_ok; [|exact Ha]. simpl. now rewrite Hp, Hpp. }
  apply rbind_ok in Hrun as (L2 & H2 & Hrun).
  apply when_ok in H2; [|clear H2|exact H1].
  2:{ intros La Lb Ha Hb. inversion Hb; subst.
      apply plain_term_ok; [|exact Ha]. simpl. now rewrite Hp, Hpp. }
  apply rbind_ok in Hrun as (L3 & H3 & Hrun).
  apply when_ok in H3; [|clear H3|exact H2].
  2:{ intros La Lb Ha Hb. inversion Hb; subst.
      apply plain_term_ok; [|exact Ha].
      unfold _get_stft_loss. simpl. now rewrite Hp, Hpp. }
  apply rbind_ok in Hrun as (L4 & H4 & Hrun).
  apply when_ok in H4; [|clear H4|exact H3].
  2:{ intros La Lb Ha Hb. discriminate. }
  apply rbind_ok in Hrun as (L5 & H5 & Hrun).
  apply when_ok in H5; [|clear H5|exact H4].
  2:{ intros La Lb Ha Hb. apply rbind_ok in Hb as (mt & Hmt & Hb).
      unfold get_melspec_transform in Hmt.
      destruct (has_melspec_transform args); [|discriminate].
      inversion Hmt; subst. inversion Hb; subst.
      apply plain_term_ok; [|exact Ha]. simpl. now rewrite Hp, Hpp. }
  apply rbind_ok in Hrun as (L6 & H6 & Hrun).
  apply when_ok in H6; [|clear H6|exact H5].
  2:{ intros La Lb Ha Hb. apply rbind_ok in Hb as (ps & Hps & Hb).
      apply rbind_ok in Hb as (hs & Hhs & Hb). inversion Hb; subst.
      apply (dict_getitem_forall _ _ _ _ Hhr) in Hhs as [k3 [_ Hhs]].
      apply (dict_getitem_forall _ _ _ _ Hpr) in Hps as [k4 (_ & _ & Hps)].
      simpl in Hhs, Hps.
      apply plain_term_ok; [|exact Ha]. simpl. now rewrite Hhs, Hps. }
  apply rbind_ok in Hrun as (L7 & H7 & Hrun).
  apply when_ok in H7; [|clear H7|exact H6].
  2:{ intros La Lb Ha Hb. apply rbind_ok in Hb as (hs & Hhs & Hb).
      apply rbind_ok in Hb as (ps & Hps & Hb). inversion Hb; subst.
      apply (dict_getitem_forall _ _ _ _ Hhr) in Hhs as [k3 [_ Hhs]].
      apply (dict_getitem_forall _ _ _ _ Hpr) in Hps as [k4 (_ & _ & Hps)].
      simpl in Hhs, Hps.
      apply plain_term_ok; [|exact Ha]. simpl. now rewrite Hhs, Hps. }
  destruct (adversarial_mode args); [|now inversion Hrun; subst].
  assert (Hsteps : forall c1 c2 c3 c4 c5 c6 c7 Lz,
    (let? L := when c1 (melgan_losses (C := SC) args hr_time pr_time) L7 in
     let? L := when c2 (msd_losses (C := SC) args hr_time pr_time) L in
     let? L := when c3 (mpd_losses (C := SC) args hr_time pr_time) L in
     let? L := when c4 (hifi_losses (C := SC) args hr_time pr_time) L in
     let? L := when c5 (mbd_losses (C := SC) args hr_time pr_time) L in
     let? L := when c6 (spec_losses (C := SC) args hr pr hr_time pr_time) L in
     let? L := when c7 (stft_losses (C := SC) args hr pr) L in
     Ok L) = Ok Lz -> losses_ok Lz).
  { intros c1 c2 c3 c4 c5 c6 c7 Lz Hz.
    apply rbind_ok in Hz as (La & Ha & Hz).
    apply when_ok in Ha; [|intros ? ? ? ?; eapply melgan_losses_ok; eauto
                          |exact H7].
    apply rbind_ok in Hz as (Lb & Hb & Hz).
    apply when_ok in Hb; [|intros ? ? ? ?; eapply msd_losses_ok; eauto
                          |exact Ha].
    apply rbind_ok in Hz as (Lc & Hc & Hz).
    apply when_ok in Hc; [|intros ? ? ? ?; eapply mpd_losses_ok; eauto
                          |exact Hb].
    apply rbind_ok in Hz as (Ld & Hd & Hz).
    apply when_ok in Hd; [|intros ? ? ? ?; eapply hifi_losses_ok; eauto
                          |exact Hc].
    apply rbind_ok in Hz as (Le & He & Hz).
    apply when_ok in He; [|intros ? ? ? ?; eapply mbd_losses_ok; eauto
                          |exact Hd].
    apply rbind_ok in Hz as (Lf & Hf & Hz).
    apply when_ok in Hf; [|intros ? ? ? ?; eapply spec_losses_ok; eauto
                          |exact He].
    apply rbind_ok in Hz as (Lg & Hg & Hz).
    apply when_ok in Hg; [|intros ? ? ? ?; eapply stft_losses_ok; eauto
                          |exact Hf].
    now inversion Hz; subst. }
  destruct (multiple_discriminators_mode args);
    eapply Hsteps; exact Hrun.
Qed.

End VariantPasses.

Lemma sym_reprs_target (ws : bool) :
  Forall (fun kv => good_target (snd kv)) (sym_reprs Target ws).
Proof. destruct ws; repeat constructor. Qed.

Lemma sym_reprs_prediction (ws : bool) :
  Forall (fun kv => good_prediction (snd kv)) (sym_reprs Prediction ws).
Proof. destruct ws; repeat constructor. Qed.

(** C1.  Whatever the configuration and whatever the discriminators
    return, when [_get_losses] returns, every forward pass behind an
    entry of the discriminator losses was fed the prediction detached,
    and every forward pass behind an entry of the generator losses was
    fed the prediction attached. *)
Theorem detachment_discipline (args : args_t) (names : list string)
    (shape : list nat) (n_stft : nat) (hr_spec pr_spec : bool)
    (L : losses_t (T := SymTorch)) :
  _get_losses (C := SymCollaborators names shape n_stft) args
    (sym_reprs Target hr_spec) (sym_reprs Prediction pr_spec) = Ok L ->
  (forall name v p, In (name, v) (discriminator L) -> In p (passes v) ->
     consumes_detached p = true) /\
  (forall name v p, In (name, v) (generator L) -> In p (passes v) ->
     consumes_attached p = true).
Proof.
  intros Hrun.
  apply get_losses_ok in Hrun;
    [|apply sym_reprs_target|apply sym_reprs_prediction].
  destruct Hrun as [Hg Hd]. rewrite List.Forall_forall in Hg, Hd.
  split; intros name v p Hin Hp.
  - specialize (Hd _ Hin). unfold all_passes in Hd. simpl in Hd.
    rewrite forallb_forall in Hd. now apply Hd.
  - specialize (Hg _ Hin). unfold all_passes in Hg. simpl in Hg.
    rewrite forallb_forall in Hg. now apply Hg.
Qed.

Lemma detachment_discipline_witness :
  all_variants_losses = Ok all_variants_L /\
  map fst (discriminator all_variants_L)
  = ["melgan"; "msd"; "mpd"; "hifi"; "mbd"; "spec"; "stft"] /\
  forallb (fun kv => existsb consumes_prediction (passes (snd kv)))
    (discriminator all_variants_L) = true /\
  (forall name v p,
      In (name, v) (discriminator all_variants_L) -> In p (passes v) ->
      consumes_detached p = true) /\
  (forall name v p,
      In (name, v) (generator all_variants_L) -> In p (passes v) ->
      consumes_attached p = true).
Proof.
  assert (Hrun : all_variants_losses = Ok all_variants_L)
    by (vm_compute; reflexivity).
  split; [exact Hrun|].
  split; [vm_compute; reflexivity|].
  split; [vm_compute; reflexivity|].
  exact (detachment_discipline all_variants_args all_dmodels [3; 3]%nat 3%nat
           true true all_variants_L Hrun).
Defined.

(** ** The feature-matching losses *)

Section FeatureMatching.
#[local] Open Scope Q_scope.

Lemma qsum_app (l1 l2 : list Q) : qsum (l1 ++ l2) == qsum l1 + qsum l2.
Proof.
  induction l1 as [|x l1 IH]; simpl.
  - now rewrite Qplus_0_l.
  - rewrite IH. now rewrite Qplus_assoc.
Qed.

Lemma qsum_map_ext {A} (f g : A -> Q) (l : list A) :
  (forall x, f x == g x) -> qsum (map f l) == qsum (map g l).
Proof.
  intros H. induction l as [|x l IH]; simpl; [reflexivity|].
  now rewrite IH, H.
Qed.

Lemma qsum_map_scale {A} (w : Q) (f : A -> Q) (l : list A) :
  qsum (map (fun x => w * f x) l) == w * qsum (map f l).
Proof.
  induction l as [|x l IH]; simpl.
  - now rewrite Qmult_0_r.
  - rewrite IH. now rewrite Qmult_plus_distr_r.
Qed.

Lemma num_value_py_add (acc : pynum Q) (x : Q) :
  num_value (py_add (T := QTorch) acc (PyTensor x)) = num_value acc + x.
Proof. destruct acc; reflexivity. Qed.

Lemma getitem_nth {A} (l : list A) (i : nat) (x d : A) :
  getitem l i = Ok x -> nth i l d = x.
Proof.
  unfold getitem. destruct (nth_error l i) eqn:E; [|discriminate].
  intros H. inversion H; subst. now apply nth_error_nth.
Qed.

Lemma internal_layers_range (n : nat) :
  py_range (Z.of_nat n - 1) = seq 0 (n - 1).
Proof. unfold py_range. f_equal. lia. Qed.

(** The loop of [stft_feature_loss]: the plain sum of the layer
    distances. *)
Lemma stft_loop_value (real fake : list (list Q)) (xs : list nat)
    (acc v : pynum Q) :
  for_in xs (fun i feature_loss =>
      let? fake_i := getitem fake i in
      let? real_i := getitem real i in
      Ok (py_add (T := QTorch) feature_loss
            (PyTensor (l1_loss fake_i (detach real_i))))) acc = Ok v ->
  num_value v ==
  num_value acc
  + qsum (map (fun j => q_l1_loss (nth j fake []) (nth j real [])) xs).
Proof.
  revert acc. induction xs as [|i xs IH]; intros acc Hrun; simpl in Hrun.
  - inversion Hrun; subst. simpl. now rewrite Qplus_0_r.
  - apply rbind_ok in Hrun as (acc1 & Hstep & Hrest).
    apply rbind_ok in Hstep as (fake_i & Hf & Hstep).
    apply rbind_ok in Hstep as (real_i & Hr & Hstep).
    inversion Hstep; subst; clear Hstep.
    apply IH in Hrest. rewrite Hrest, num_value_py_add. simpl.
    rewrite (getitem_nth _ _ _ [] Hf), (getitem_nth _ _ _ [] Hr).
    now rewrite Qplus_assoc.
Qed.

(** The inner loop of the melgan feature-matching loss, at scale [i]. *)
Lemma melgan_inner_value (w : Q) (fake real : list (list (list Q)))
    (i : nat) (xs : list nat) (acc v : pynum Q) :
  for_in xs (fun j features_loss =>
      let? fake_i := getitem fake i in
      let? fake_ij := getitem fake_i j in
      let? real_i := getitem real i in
      let? real_ij := getitem real_i j in
      Ok (py_add (T := QTorch) features_loss
            (PyTensor (s_mul_float w (l1_loss fake_ij (detach real_ij))))))
    acc = Ok v ->
  num_value v ==
  num_value acc
  + qsum (map (fun j => w * q_l1_loss (nth j (nth i fake []) [])
                              (nth j (nth i real []) [])) xs).
Proof.
  revert acc. induction xs as [|j xs IH]; intros acc Hrun; simpl in Hrun.
  - inversion Hrun; subst. simpl. now rewrite Qplus_0_r.
  - apply rbind_ok in Hrun as (acc1 & Hstep & Hrest).
    apply rbind_ok in Hstep as (fake_i & Hf & Hstep).
    apply rbind_ok in Hstep as (fake_ij & Hfj & Hstep).
    apply rbind_ok in Hstep as (real_i & Hr & Hstep).
    apply rbind_ok in Hstep as (real_ij & Hrj & Hstep).
    inversion Hstep; subst; clear Hstep.
    apply IH in Hrest. rewrite Hrest, num_value_py_add. simpl.
    rewrite (getitem_nth _ _ _ [] Hf), (getitem_nth _ _ _ [] Hr).
    rewrite (getitem_nth _ _ _ [] Hfj), (getitem_nth _ _ _ [] Hrj).
    now rewrite Qplus_assoc.
Qed.

Lemma melgan_outer_value (w : Q) (fake real : list (list (list Q)))
    (xs : list nat) (acc v : pynum Q) :
  for_in xs (fun i features_loss =>
      let? fake_i := getitem fake i in
      for_in (py_range (Z.of_nat (length fake_i) - 1))
        (fun j features_loss =>
           let? fake_i := getitem fake i in
           let? fake_ij := getitem fake_i j in
           let? real_i := getitem real i in
           let? real_ij := getitem real_i j in
           Ok (py_add (T := QTorch) features_loss
                 (PyTensor (s_mul_float w
                              (l1_loss fake_ij (detach real_ij))))))
        features_loss) acc = Ok v ->
  num_value v ==
  num_value acc
  + qsum (map (fun i =>
                 qsum (map (fun d => w * d)
                         (layer_distances (nth i fake []) (nth i real []))))
            xs).
Proof.
  revert acc. induction xs as [|i xs IH]; intros acc Hrun; simpl in Hrun.
  - inversion Hrun; subst. simpl. now rewrite Qplus_0_r.
  - apply rbind_ok in Hrun as (acc1 & Hstep & Hrest).
    apply rbind_ok in Hstep as (fake_i & Hf & Hstep).
    apply melgan_inner_value in Hstep. apply IH in Hrest.
    rewrite Hrest, Hstep. simpl. rewrite <- Qplus_assoc.
    apply Qplus_inj_l. apply Qplus_inj_r.
    unfold layer_distances. rewrite map_map.
    rewrite (getitem_nth _ _ _ [] Hf), internal_layers_range.
    reflexivity.
Qed.

(** C7, amended.  The melgan feature-matching loss is the sum, over the
    configured number of scales and over the internal layers of each
    scale, of the L1 distance between the fake and the real feature map,
    every term weighted by (4 / (n_layers + 1)) * (1 / num_D) with
    [n_layers] and [num_D] taken from the configuration.  The stft
    feature-matching loss is the same kind of sum over its single scale,
    every term weighted by 1 / num_internal_layers, where
    num_internal_layers is the number of feature maps minus one. *)
Theorem feature_matching_weights (args : args_t) :
  (forall (fake real : list (list (list Q))) (v : pynum Q),
      melgan_features_loss (T := QTorch) args fake real = Ok v ->
      num_value v ==
      weighted_layer_sum
        (hinge_feature_weight (melgan_n_layers (experiment args))
           (melgan_num_D (experiment args)))
        fake real (Z.to_nat (melgan_num_D (experiment args)))) /\
  (forall (real fake : list (list Q)) (v : pynum Q),
      stft_feature_loss (T := QTorch) real fake = Ok v ->
      num_value v ==
      weighted_layer_sum
        (stft_feature_weight (Z.of_nat (length fake) - 1))
        [fake] [real] 1).
Proof.
  split.
  - intros fake real v Hrun. unfold melgan_features_loss in Hrun.
    apply rbind_ok in Hrun as (fw & Hfw & Hrun).
    apply rbind_ok in Hrun as (dw & Hdw & Hrun).
    apply melgan_outer_value in Hrun. rewrite Hrun. simpl num_value.
    rewrite Qplus_0_l. unfold weighted_layer_sum, py_range.
    unfold float_div_int in Hfw, Hdw.
    destruct (Z.eqb (melgan_n_layers (experiment args) + 1) 0);
      [discriminate|].
    destruct (Z.eqb (melgan_num_D (experiment args)) 0); [discriminate|].
    inversion Hfw; subst. inversion Hdw; subst.
    apply qsum_map_ext. intros i. apply qsum_map_ext. intros d.
    unfold hinge_feature_weight.
    now rewrite (Qmult_comm (1 / _) (4 / _)).
  - intros real fake v Hrun. unfold stft_feature_loss in Hrun.
    apply rbind_ok in Hrun as (fl & Hloop & Hdiv).
    apply stft_loop_value in Hloop. rewrite internal_layers_range in Hloop.
    simpl num_value in Hloop. rewrite Qplus_0_l in Hloop.
    unfold weighted_layer_sum, stft_feature_weight. simpl.
    rewrite Qplus_0_r, qsum_map_scale.
    unfold layer_distances. rewrite map_id.
    assert (Hv : num_value v
                 == num_value fl / inject_Z (Z.of_nat (length fake) - 1)).
    { destruct fl; simpl in Hdiv.
      - destruct (Z.eqb _ 0); inversion Hdiv; subst. reflexivity.
      - destruct (Z.eqb _ 0); inversion Hdiv; subst. reflexivity.
      - inversion Hdiv; subst. reflexivity. }
    rewrite Hv, Hloop. unfold Qdiv. rewrite Qmult_1_l. apply Qmult_comm.
Qed.

Lemma feature_matching_weights_witness :
  (exists v,
      melgan_features_loss (T := QTorch) two_scale_args two_scale_fake
        two_scale_real = Ok v /\
      num_value v == 10 /\
      num_value v ==
      weighted_layer_sum (hinge_feature_weight 1 2) two_scale_fake
        two_scale_real 2) /\
  (exists v,
      stft_feature_loss (T := QTorch) unit_distance_real unit_distance_fake
      = Ok v /\
      num_value v == 1 /\
      num_value v ==
      weighted_layer_sum (stft_feature_weight 1) [unit_distance_fake]
        [unit_distance_real] 1).
Proof.
  destruct (feature_matching_weights two_scale_args) as [Hmelgan Hstft].
  split.
  - eexists. split; [reflexivity|]. split; [reflexivity|].
    exact (Hmelgan two_scale_fake two_scale_real _ eq_refl).
  - eexists. split; [reflexivity|]. split; [reflexivity|].
    exact (Hstft unit_distance_real unit_distance_fake _ eq_refl).
Defined.

(** C7 as stated fails for the stft variant: with one internal layer at
    L1 distance one, the code returns 1 (the sum divided by the number of
    internal layers), where the stated weight 4 / (1 + 1) * (1 / 1) gives
    2. *)
Lemma stft_weight_is_not_the_hinge_weight :
  exists v,
    stft_feature_loss (T := QTorch) unit_distance_real unit_distance_fake
    = Ok v /\
    layer_distances unit_distance_fake unit_distance_real = [1%Q] /\
    num_value v == 1 /\
    weighted_layer_sum (hinge_feature_weight 1 1) [unit_distance_fake]
      [unit_distance_real] 1 == 2 /\
    Qeq_bool (num_value v)
      (weighted_layer_sum (hinge_feature_weight 1 1) [unit_distance_fake]
         [unit_distance_real] 1) = false.
Proof.
  eexists. split; [reflexivity|].
  split; [vm_compute; reflexivity|].
  split; [reflexivity|]. split; reflexivity.
Qed.

End FeatureMatching.

(** ** The stepping policies on a mapping that is not empty *)

(** Run the optimiser calls of a straight-line step. *)
Ltac trace_calc :=
  unfold pbind, pret, emit, pmodify, round; simpl;
  rewrite <- ?app_assoc; reflexivity.

Section Stepping.
Context {T : Torch}.
Variable args : args_t.
Variable names : list string.

Lemma emit_run (e : opt_event scalar) (trace : list (opt_event scalar)) :
  emit e trace = (Ok tt, trace ++ [e]).
Proof. reflexivity. Qed.

Lemma get_disc_optimizer_separate (name : string) :
  adversarial_mode args = true ->
  multiple_discriminators_mode args = true ->
  joint_disc_optimizers_mode args = false ->
  get_disc_optimizer args names name
  = if str_in name names then pret name else praise (KeyError name).
Proof.
  intros Hadv Hmulti Hjoint. unfold get_disc_optimizer, disc_optimizers.
  now rewrite Hadv, Hmulti, Hjoint.
Qed.

(** X1.  With a single discriminator, the adversarial step uses the first
    loss of the mapping and no other: it zeroes the gradients of the one
    discriminator optimiser, back-propagates that loss and steps, whatever
    else the mapping holds. *)
Theorem single_policy_uses_first_loss (name : string) (loss : scalar)
    (rest : pydict (pynum scalar)) (trace : list (opt_event scalar)) :
  adversarial_mode args = true ->
  multiple_discriminators_mode args = false ->
  _optimize_adversarial args names ((name, PyTensor loss) :: rest) trace
  = (Ok tt, trace ++ round "disc_optimizer" loss).
Proof.
  intros Hadv Hmulti.
  unfold _optimize_adversarial, get_disc_optimizer, disc_optimizers.
  rewrite Hadv, Hmulti. simpl. trace_calc.
Qed.

(** The sum that Python's [sum] builds from loss tensors. *)
Lemma fold_py_add_tensors (others : list scalar) (acc : scalar) :
  fold_left py_add (map PyTensor others) (PyTensor acc)
  = PyTensor (fold_left s_add others acc).
Proof.
  revert acc. induction others as [|x others IH]; intros acc; simpl;
    [reflexivity | apply IH].
Qed.

Lemma py_sum_tensors (first : scalar) (others : list scalar) :
  py_sum (map PyTensor (first :: others))
  = PyTensor (fold_left s_add (first :: others) (s_of_float 0)).
Proof. unfold py_sum. simpl. apply fold_py_add_tensors. Qed.

(** X2.  With several discriminators and a joint optimiser, the
    adversarial step adds up all the losses of the mapping (starting from
    zero, in the order of the mapping) and runs one round of the one
    optimiser on the sum: one [zero_grad], one [backward], one [step]. *)
Theorem joint_policy_steps_once_on_sum (first : string * scalar)
    (others : pydict scalar) (trace : list (opt_event scalar)) :
  adversarial_mode args = true ->
  multiple_discriminators_mode args = true ->
  joint_disc_optimizers_mode args = true ->
  _optimize_adversarial args names (tensors (first :: others)) trace
  = (Ok tt,
     trace ++ round "disc_optimizer"
                (fold_left s_add (map snd (first :: others)) (s_of_float 0))).
Proof.
  intros Hadv Hmulti Hjoint.
  unfold _optimize_adversarial, get_disc_optimizer, disc_optimizers.
  rewrite Hadv, Hmulti, Hjoint. simpl andb. cbv iota.
  assert (Hsum : py_sum (dict_values (tensors (first :: others)))
                 = PyTensor (fold_left s_add (map snd (first :: others))
                               (s_of_float 0))).
  { unfold dict_values, tensors. rewrite map_map. simpl map at 1.
    change (PyTensor (snd first)
            :: map (fun x : string * scalar => PyTensor (snd x)) others)
      with (PyTensor (snd first)
            :: map (fun x : string * scalar =>
                      PyTensor (S := scalar) (snd x)) others).
    rewrite <- (map_map snd PyTensor others).
    exact (py_sum_tensors (snd first) (map snd others)). }
  rewrite Hsum. simpl. trace_calc.
Qed.

(** One discriminator's round under the separate policy. *)
Lemma separate_round (name : string) (loss : scalar)
    (trace : list (opt_event scalar)) :
  adversarial_mode args = true ->
  multiple_discriminators_mode args = true ->
  joint_disc_optimizers_mode args = false ->
  str_in name names = true ->
  (do! o := get_disc_optimizer args names name in
   emit (ZeroGrad o);;
   backward (PyTensor loss);;
   do! o := get_disc_optimizer args names name in
   emit (Step o)) trace
  = (Ok tt, trace ++ round name loss).
Proof.
  intros Hadv Hmulti Hjoint Hin.
  rewrite (get_disc_optimizer_separate name Hadv Hmulti Hjoint), Hin.
  trace_calc.
Qed.

(** X3.  With several discriminators and separate optimisers, the
    adversarial step runs one round per entry of the mapping, in the order
    of the mapping, each on the optimiser that has the entry's name and on
    that entry's loss alone.  It stops at the first entry whose name has
    no optimiser, with [KeyError] and before any call for that entry; the
    entries before it have had their rounds. *)
Theorem separate_policy_steps_each_on_its_own (done : pydict scalar)
    (rest : pydict (pynum scalar)) (trace : list (opt_event scalar)) :
  adversarial_mode args = true ->
  multiple_discriminators_mode args = true ->
  joint_disc_optimizers_mode args = false ->
  Forall (fun item => str_in (fst item) names = true) done ->
  match rest with
  | [] => True
  | (name, _) :: _ => str_in name names = false
  end ->
  _optimize_adversarial args names (tensors done ++ rest) trace
  = (match rest with
     | [] => Ok tt
     | (name, _) :: _ => Raise (KeyError name)
     end, trace ++ own_rounds done).
Proof.
  intros Hadv Hmulti Hjoint Hdone Hrest.
  unfold _optimize_adversarial. rewrite Hmulti, Hjoint.
  revert trace. induction Hdone as [|[name loss] done Hin Hdone IH];
    intros trace.
  - simpl. rewrite app_nil_r. destruct rest as [|[name v] rest'].
    + reflexivity.
    + simpl. unfold pbind at 1 2.
      rewrite (get_disc_optimizer_separate name Hadv Hmulti Hjoint), Hrest.
      reflexivity.
  - simpl in Hin.
    change (tensors ((name, loss) :: done) ++ rest)
      with ((name, PyTensor loss) :: (tensors done ++ rest)).
    cbn [pfor_in]. unfold pbind at 1.
    rewrite (separate_round name loss trace Hadv Hmulti Hjoint Hin).
    rewrite IH. simpl own_rounds. now rewrite <- !app_assoc.
Qed.

End Stepping.

Lemma single_policy_uses_first_loss_witness :
  _optimize_adversarial (T := QTorch) (with_policy false false toy_args) []
    (tensors two_losses) []
  = (Ok tt, [ZeroGrad "disc_optimizer"; Backward 1%Q; Step "disc_optimizer"]).
Proof.
  exact (single_policy_uses_first_loss (T := QTorch)
           (with_policy false false toy_args) [] "melgan" 1%Q
           [("msd", PyTensor 2%Q)] [] eq_refl eq_refl).
Defined.

Lemma joint_policy_steps_once_on_sum_witness :
  _optimize_adversarial (T := QTorch) (with_policy true true toy_args) []
    (tensors two_losses) []
  = (Ok tt, [ZeroGrad "disc_optimizer"; Backward (0 + 1 + 2)%Q;
             Step "disc_optimizer"]).
Proof.
  exact (joint_policy_steps_once_on_sum (T := QTorch)
           (with_policy true true toy_args) [] ("melgan", 1%Q)
           [("msd", 2%Q)] [] eq_refl eq_refl eq_refl).
Defined.

Lemma separate_policy_steps_each_on_its_own_witness :
  _optimize_adversarial (T := QTorch) (with_policy true false toy_args)
    ["melgan"; "msd"] (tensors two_losses) []
  = (Ok tt, [ZeroGrad "melgan"; Backward 1%Q; Step "melgan";
             ZeroGrad "msd"; Backward 2%Q; Step "msd"]) /\
  _optimize_adversarial (T := QTorch) (with_policy true false toy_args)
    ["melgan"] (tensors two_losses) []
  = (Raise (KeyError "msd"),
     [ZeroGrad "melgan"; Backward 1%Q; Step "melgan"]).
Proof.
  split.
  - apply (separate_policy_steps_each_on_its_own (T := QTorch)
             (with_policy true false toy_args) ["melgan"; "msd"]
             two_losses [] []);
      first [reflexivity | exact I | repeat constructor].
  - apply (separate_policy_steps_each_on_its_own (T := QTorch)
             (with_policy true false toy_args) ["melgan"]
             [("melgan", 1%Q)] [("msd", PyTensor 2%Q)] []);
      first [reflexivity | repeat constructor].
Defined.

(** ** Errors of the loss composer *)

Section ComposerErrors.
Context {T : Torch} {C : Collaborators T}.
Variable args : args_t.

(** X4.  [self.perceptual_loss] is assigned nowhere in the class: with
    ['perceptual'] among the configured losses, [_get_losses] raises
    [AttributeError] on every batch that has its two time-domain
    representations, whatever else is configured. *)
Theorem perceptual_loss_is_unassigned (hr pr : pydict tensor)
    (hr_time pr_time : tensor) :
  dict_get "time" hr = Some hr_time ->
  dict_get "time" pr = Some pr_time ->
  str_in "perceptual" (losses args) = true ->
  _get_losses args hr pr = Raise (AttributeError "perceptual_loss").
Proof.
  intros Hhr Hpr Hperc. unfold _get_losses, dict_getitem.
  rewrite Hhr, Hpr, Hperc. simpl.
  destruct (str_in "l1" (losses args)); simpl;
    destruct (str_in "l2" (losses args)); simpl;
    destruct (str_in "stft" (losses args)); reflexivity.
Qed.

(** When the two vocoder-style variants return. *)
Lemma hifi_returns (pr hr : tensor) :
  is_ok (_get_hifi_adversarial_loss args pr hr)
  = str_in "mpd" dmodel_names && str_in "msd" dmodel_names
    && has_melspec_transform args.
Proof.
  unfold _get_hifi_adversarial_loss, get_dmodel, get_melspec_transform.
  destruct (str_in "mpd" dmodel_names); simpl; [|reflexivity].
  destruct (str_in "msd" dmodel_names); simpl; [|reflexivity].
  destruct (has_melspec_transform args); reflexivity.
Qed.

Lemma mbd_returns (pr hr : tensor) :
  is_ok (_get_mbd_adversarial_loss args pr hr)
  = str_in "mbd" dmodel_names && has_melspec_transform args.
Proof.
  unfold _get_mbd_adversarial_loss, get_dmodel, get_melspec_transform.
  destruct (str_in "mbd" dmodel_names); simpl; [|reflexivity].
  destruct (has_melspec_transform args); reflexivity.
Qed.

Lemma when_true_ok (step : losses_t -> result losses_t) (L L' : losses_t) :
  when true step L = Ok L' -> step L = Ok L'.
Proof. exact (fun H => H). Qed.

Lemma is_ok_true {A} (r : result A) (a : A) : r = Ok a -> is_ok r = true.
Proof. now intros ->. Qed.

(** X5.  The hifi and the mbd variant both need [self.melspec_transform],
    which [__init__] creates only when ['mbd'] is among [args.losses],
    when [mel_spec_transform] is set, or when the single
    [discriminator_model] is hifi or mbd.  So with several discriminators,
    listing hifi or mbd among [discriminator_models] is not enough:
    without one of the three conditions [_get_losses] never returns. *)
Theorem listed_vocoder_variant_needs_mel_transform (hr pr : pydict tensor) :
  adversarial_mode args = true ->
  multiple_discriminators_mode args = true ->
  str_in "hifi" (discriminator_models (experiment args))
  || str_in "mbd" (discriminator_models (experiment args)) = true ->
  has_melspec_transform args = false ->
  is_ok (_get_losses args hr pr) = false.
Proof.
  intros Hadv Hmulti Hlisted Hmel.
  destruct (_get_losses args hr pr) as [L|e] eqn:Hrun; [|reflexivity].
  exfalso. unfold _get_losses in Hrun.
  apply rbind_ok in Hrun as (hr_time & _ & Hrun).
  apply rbind_ok in Hrun as (pr_time & _ & Hrun).
  do 7 (apply rbind_ok in Hrun as (? & _ & Hrun)).
  rewrite Hadv, Hmulti in Hrun.
  apply rbind_ok in Hrun as (La & _ & Hrun).
  apply rbind_ok in Hrun as (Lb & _ & Hrun).
  apply rbind_ok in Hrun as (Lc & _ & Hrun).
  apply rbind_ok in Hrun as (Ld & Hhifi & Hrun).
  apply rbind_ok in Hrun as (Le & Hmbd & _).
  apply orb_true_iff in Hlisted as [Hl | Hl]; rewrite Hl in *.
  - apply when_true_ok in Hhifi. unfold hifi_losses in Hhifi.
    apply rbind_ok in Hhifi as (gd & Hloss & _).
    apply is_ok_true in Hloss. rewrite hifi_returns, Hmel in Hloss.
    rewrite andb_false_r in Hloss. discriminate.
  - apply when_true_ok in Hmbd. unfold mbd_losses in Hmbd.
    apply rbind_ok in Hmbd as (gd & Hloss & _).
    apply is_ok_true in Hloss. rewrite mbd_returns, Hmel in Hloss.
    rewrite andb_false_r in Hloss. discriminate.
Qed.

(** ** The feature-matching loops at their bounds *)

Lemma for_in_ext {A S} (xs : list A) (f g : A -> S -> result S) (s : S) :
  (forall x s, In x xs -> f x s = g x s) ->
  for_in xs f s = for_in xs g s.
Proof.
  revert s. induction xs as [|x xs IH]; intros s H; simpl; [reflexivity|].
  rewrite (H x s) by now left.
  destruct (g x s) as [s'|e]; simpl; [|reflexivity].
  apply IH. intros y t Hy. apply H. now right.
Qed.

(** A loop whose body can only fail with [e] can only fail with [e]. *)
Lemma for_in_raises {A S} (e : exn) (xs : list A)
    (body : A -> S -> result S) (s : S) :
  (forall x s, is_ok (body x s) = true \/ body x s = Raise e) ->
  is_ok (for_in xs body s) = true \/ for_in xs body s = Raise e.
Proof.
  intros Hbody. revert s. induction xs as [|x xs IH]; intros s; simpl.
  - now left.
  - destruct (Hbody x s) as [Hok | Hraise].
    + destruct (body x s) as [s'|e']; [|discriminate]. simpl. apply IH.
    + rewrite Hraise. now right.
Qed.

Lemma getitem_raises {A} (l : list A) (i : nat) :
  is_ok (getitem l i) = true \/ getitem l i = Raise IndexError.
Proof. unfold getitem. destruct (nth_error l i); auto. Qed.

Lemma getitem_out_of_range {A} (l : list A) (i : nat) :
  (length l <= i)%nat -> getitem l i = Raise IndexError.
Proof.
  intros H. unfold getitem. apply nth_error_None in H. now rewrite H.
Qed.

Lemma getitem_in_range {A} (l : list A) (i : nat) :
  (i < length l)%nat -> exists x, getitem l i = Ok x.
Proof.
  intros H. unfold getitem. destruct (nth_error l i) as [x|] eqn:E.
  - now exists x.
  - apply nth_error_None in E. lia.
Qed.

Lemma getitem_app_l {A} (l extra : list A) (i : nat) :
  (i < length l)%nat -> getitem (l ++ extra) i = getitem l i.
Proof. intros H. unfold getitem. now rewrite nth_error_app1. Qed.

(** The loop of [stft_feature_loss] over the indices [xs] of
    [discriminator_fake]: it returns when [discriminator_real] has all of
    them, with a tensor as soon as it ran once, and raises [IndexError]
    otherwise. *)
Lemma stft_loop_outcome (real fake : list tensor) (xs : list nat)
    (acc : pynum scalar) :
  Forall (fun i => (i < length fake)%nat) xs ->
  let body := fun (i : nat) (feature_loss : pynum scalar) =>
    let? fake_i := getitem fake i in
    let? real_i := getitem real i in
    Ok (py_add feature_loss (PyTensor (l1_loss fake_i (detach real_i)))) in
  if forallb (fun i => i <? length real)%nat xs
  then exists v, for_in xs body acc = Ok v /\
                 (xs <> [] -> exists s, v = PyTensor s)
  else for_in xs body acc = Raise IndexError.
Proof.
  intros Hxs body. revert acc.
  induction Hxs as [|i xs Hi Hxs IH]; intros acc.
  - simpl. exists acc. split; [reflexivity | congruence].
  - simpl. destruct (getitem_in_range fake i Hi) as [fake_i Hf].
    unfold body at 1 3. rewrite Hf. simpl.
    destruct (i <? length real)%nat eqn:Hr; simpl.
    + apply Nat.ltb_lt in Hr.
      destruct (getitem_in_range real i Hr) as [real_i Hri]. rewrite Hri.
      simpl.
      set (acc1 := py_add acc (PyTensor (l1_loss fake_i (detach real_i)))).
      specialize (IH acc1).
      destruct (forallb (fun i => (i <? length real)%nat) xs).
      * destruct IH as (v & Hv & Htensor). exists v. split; [exact Hv|].
        intros _. destruct xs as [|j xs'].
        -- simpl in Hv. inversion Hv; subst. unfold acc1.
           destruct acc; simpl; eauto.
        -- apply Htensor. congruence.
      * exact IH.
    + apply Nat.ltb_ge in Hr. now rewrite (getitem_out_of_range real i Hr).
Qed.

Lemma forallb_seq_lt (n bound : nat) :
  forallb (fun i => i <? bound)%nat (seq 0 n) = (n <=? bound)%nat.
Proof.
  destruct (n <=? bound)%nat eqn:E.
  - apply Nat.leb_le in E. apply forallb_forall. intros i Hi.
    apply in_seq in Hi. apply Nat.ltb_lt. lia.
  - apply Nat.leb_gt in E.
    destruct (forallb (fun i => (i <? bound)%nat) (seq 0 n)) eqn:F;
      [|reflexivity].
    rewrite forallb_forall in F. specialize (F bound).
    rewrite Nat.ltb_irrefl in F. symmetry. apply F. apply in_seq. lia.
Qed.

(** X6.  The generator-side loss of the stft variant, by the number of
    feature maps the discriminator returns for the prediction: with none
    it raises [IndexError] (there is no last one); with one it raises
    [ZeroDivisionError] (no internal layer: the integer 0 is divided by
    0); with two or more it returns when the discriminator returned for
    the target at least as many feature maps as the prediction has
    internal layers, and raises [IndexError] otherwise. *)
Theorem stft_generator_loss_outcome (fake real : list tensor) :
  match fake with
  | [] => _get_stft_generator_loss args fake real = Raise IndexError
  | [_] => _get_stft_generator_loss args fake real = Raise ZeroDivisionError
  | _ :: _ :: _ =>
      if (length fake - 1 <=? length real)%nat
      then is_ok (_get_stft_generator_loss args fake real) = true
      else _get_stft_generator_loss args fake real = Raise IndexError
  end.
Proof.
  destruct fake as [|x0 [|x1 fake']].
  - reflexivity.
  - reflexivity.
  - set (fake := x0 :: x1 :: fake').
    unfold _get_stft_generator_loss.
    assert (Hlast : exists top, last_item fake = Ok top).
    { unfold last_item. destruct (rev fake) as [|y r] eqn:E; [|eauto].
      apply (f_equal (@length tensor)) in E. rewrite length_rev in E.
      discriminate. }
    destruct Hlast as [top ->]. simpl rbind at 1.
    unfold stft_feature_loss. rewrite internal_layers_range.
    assert (Hxs : Forall (fun i => (i < length fake)%nat)
                    (seq 0 (length fake - 1))).
    { apply List.Forall_forall. intros i Hi. apply in_seq in Hi. lia. }
    pose proof (stft_loop_outcome real fake _ (PyInt 0) Hxs) as Hloop.
    cbv zeta in Hloop. rewrite forallb_seq_lt in Hloop.
    destruct (length fake - 1 <=? length real)%nat.
    + destruct Hloop as (v & Hv & Htensor). rewrite Hv.
      destruct Htensor as [s ->]; [discriminate|]. reflexivity.
    + now rewrite Hloop.
Qed.

(** The inner loop of the melgan feature-matching loss can only fail
    with [IndexError]. *)
Lemma melgan_inner_raises (w : Q) (first : result (list tensor))
    (real : list (list tensor)) (i : nat) (xs : list nat)
    (acc : pynum scalar) :
  let body := fun (j : nat) (features_loss : pynum scalar) =>
    let? fake_i := first in
    let? fake_ij := getitem fake_i j in
    let? real_i := getitem real i in
    let? real_ij := getitem real_i j in
    Ok (py_add features_loss
          (PyTensor (s_mul_float w (l1_loss fake_ij (detach real_ij))))) in
  first = Raise IndexError \/ is_ok first = true ->
  is_ok (for_in xs body acc) = true \/ for_in xs body acc = Raise IndexError.
Proof.
  intros body Hfirst. apply for_in_raises. intros j s. unfold body.
  destruct Hfirst as [-> | H]; [now right|].
  destruct first as [fake_i|]; [|discriminate]. simpl.
  destruct (getitem_raises fake_i j) as [H1 | ->]; [|now right].
  destruct (getitem fake_i j) as [fake_ij|]; [|discriminate]. simpl.
  destruct (getitem_raises real i) as [H2 | ->]; [|now right].
  destruct (getitem real i) as [real_i|]; [|discriminate]. simpl.
  destruct (getitem_raises real_i j) as [H3 | ->]; [|now right].
  destruct (getitem real_i j) as [real_ij|]; [|discriminate]. simpl.
  now left.
Qed.

(** X7.  The melgan feature-matching loss reads the scales [0] to
    [num_D - 1] of the configuration, not the scales the discriminator
    returned: it raises [ZeroDivisionError] when [num_D] is 0 or
    [n_layers] is -1, raises [IndexError] when the discriminator returned
    fewer than [num_D] scales, and ignores every scale beyond the first
    [num_D]. *)
Theorem melgan_features_read_configured_scales
    (fake real : list (list tensor)) :
  let num_D := melgan_num_D (experiment args) in
  let n_layers := melgan_n_layers (experiment args) in
  (num_D = 0%Z \/ n_layers = (-1)%Z ->
   melgan_features_loss args fake real = Raise ZeroDivisionError) /\
  (num_D <> 0%Z -> n_layers <> (-1)%Z ->
   (Z.of_nat (length fake) < num_D)%Z ->
   melgan_features_loss args fake real = Raise IndexError) /\
  (forall extra_fake extra_real,
      (num_D <= Z.of_nat (length fake))%Z ->
      (num_D <= Z.of_nat (length real))%Z ->
      melgan_features_loss args (fake ++ extra_fake) (real ++ extra_real)
      = melgan_features_loss args fake real).
Proof.
  intros num_D n_layers. unfold melgan_features_loss, float_div_int.
  fold num_D n_layers. split; [|split].
  - intros [H | H].
    + destruct (Z.eqb (n_layers + 1) 0); [reflexivity|]. simpl.
      rewrite H. reflexivity.
    + rewrite H. reflexivity.
  - intros HD HL Hfew.
    destruct (Z.eqb (n_layers + 1) 0) eqn:E1; [apply Z.eqb_eq in E1; lia|].
    destruct (Z.eqb num_D 0) eqn:E2; [apply Z.eqb_eq in E2; lia|].
    simpl.
    set (w := (1 / inject_Z num_D * (4 / inject_Z (n_layers + 1)))%Q).
    assert (Hin : In (length fake) (py_range num_D)).
    { unfold py_range. apply in_seq. lia. }
    revert Hin. generalize (py_range num_D). generalize (PyInt (S := scalar) 0).
    intros acc xs. revert acc. induction xs as [|i xs IH]; intros acc Hin.
    + destruct Hin.
    + simpl. destruct Hin as [-> | Hin].
      * now rewrite (getitem_out_of_range fake (length fake)) by lia.
      * destruct (getitem_raises fake i) as [H | ->]; [|reflexivity].
        destruct (getitem fake i) as [fake_i|]; [|discriminate]. simpl.
        destruct (melgan_inner_raises w (Ok fake_i) real i
                    (py_range (Z.of_nat (length fake_i) - 1)) acc
                    (or_intror eq_refl))
          as [Hok | Hraise].
        -- simpl in Hok.
           destruct (for_in (py_range (Z.of_nat (length fake_i) - 1)) _ acc)
             as [acc1|]; [|discriminate].
           simpl. now apply IH.
        -- simpl in Hraise. now rewrite Hraise.
  - intros extra_fake extra_real Hf Hr.
    destruct (Z.eqb (n_layers + 1) 0); [reflexivity|].
    destruct (Z.eqb num_D 0); [reflexivity|]. simpl.
    apply for_in_ext. intros i acc Hi.
    unfold py_range in Hi. apply in_seq in Hi.
    assert (Hif : (i < length fake)%nat) by lia.
    assert (Hir : (i < length real)%nat) by lia.
    cbv beta. rewrite (getitem_app_l fake extra_fake i Hif).
    destruct (getitem fake i) as [fake_i|]; [|reflexivity]. simpl.
    apply for_in_ext. intros j acc' _. cbv beta.
    now rewrite (getitem_app_l real extra_real i Hir).
Qed.

End ComposerErrors.

Lemma perceptual_loss_is_unassigned_witness :
  _get_losses (C := SymCollaborators [] [] 0) perceptual_args
    (sym_reprs Target false) (sym_reprs Prediction false)
  = Raise (AttributeError "perceptual_loss").
Proof.
  exact (perceptual_loss_is_unassigned (C := SymCollaborators [] [] 0)
           perceptual_args (sym_reprs Target false)
           (sym_reprs Prediction false) (Input Target "time")
           (Input Prediction "time") eq_refl eq_refl eq_refl).
Defined.

Lemma listed_vocoder_variant_needs_mel_transform_witness :
  str_in "hifi" (discriminator_models (experiment listed_hifi_args)) = true /\
  has_melspec_transform listed_hifi_args = false /\
  _get_losses (C := SymCollaborators all_dmodels [3; 3]%nat 3)
    listed_hifi_args (sym_reprs Target true) (sym_reprs Prediction true)
  = Raise (AttributeError "melspec_transform") /\
  is_ok (_get_losses (C := SymCollaborators all_dmodels [3; 3]%nat 3)
           listed_hifi_args (sym_reprs Target true)
           (sym_reprs Prediction true)) = false.
Proof.
  split; [reflexivity|]. split; [reflexivity|].
  split; [vm_compute; reflexivity|].
  exact (listed_vocoder_variant_needs_mel_transform
           (C := SymCollaborators all_dmodels [3; 3]%nat 3)
           listed_hifi_args (sym_reprs Target true)
           (sym_reprs Prediction true) eq_refl eq_refl eq_refl eq_refl).
Defined.

Lemma stft_generator_loss_outcome_witness :
  _get_stft_generator_loss (T := QTorch) toy_args []
    unit_distance_real = Raise IndexError /\
  _get_stft_generator_loss (T := QTorch) toy_args [[0%Q]]
    unit_distance_real = Raise ZeroDivisionError /\
  is_ok (_get_stft_generator_loss (T := QTorch) toy_args
           unit_distance_fake unit_distance_real) = true /\
  _get_stft_generator_loss (T := QTorch) toy_args
    [[0%Q]; [0%Q]; [0%Q]] [[1%Q]] = Raise IndexError.
Proof.
  exact (conj (stft_generator_loss_outcome (T := QTorch)
                 toy_args [] unit_distance_real)
           (conj (stft_generator_loss_outcome (T := QTorch)
                    toy_args [[0%Q]] unit_distance_real)
              (conj (stft_generator_loss_outcome (T := QTorch)
                       toy_args unit_distance_fake unit_distance_real)
                 (stft_generator_loss_outcome (T := QTorch)
                    toy_args [[0%Q]; [0%Q]; [0%Q]] [[1%Q]])))).
Defined.

Lemma melgan_features_read_configured_scales_witness :
  melgan_features_loss (T := QTorch) two_scale_args [[[0%Q]; [0%Q]]]
    [[[1%Q]; [0%Q]]] = Raise IndexError /\
  melgan_features_loss (T := QTorch) two_scale_args
    (two_scale_fake ++ [[[5%Q]; [5%Q]]]) (two_scale_real ++ [[[7%Q]; [7%Q]]])
  = melgan_features_loss (T := QTorch) two_scale_args two_scale_fake
      two_scale_real /\
  is_ok (melgan_features_loss (T := QTorch) two_scale_args two_scale_fake
           two_scale_real) = true.
Proof.
  split; [|split].
  - apply (proj1 (proj2 (melgan_features_read_configured_scales
                           (T := QTorch) two_scale_args [[[0%Q]; [0%Q]]]
                           [[[1%Q]; [0%Q]]]))); [discriminate..|].
    reflexivity.
  - apply (proj2 (proj2 (melgan_features_read_configured_scales
                           (T := QTorch) two_scale_args two_scale_fake
                           two_scale_real))); discriminate.
  - reflexivity.
Defined.

(** ** The keys of the loss dictionaries *)

Section ComposerKeys.
Context {T : Torch} {C : Collaborators T}.
Variable args : args_t.

(** Take one conditional step of [_get_losses] apart. *)
Ltac when_step Hrun :=
  let L := fresh "L" in
  let Hstep := fresh "Hstep" in
  apply rbind_ok in Hrun as (L & Hstep & Hrun);
  unfold when in Hstep;
  match type of Hstep with
  | (if ?c then _ else _) = _ => destruct c
  end;
  repeat (apply rbind_ok in Hstep as (? & _ & Hstep));
  inversion Hstep; subst; clear Hstep.

(** X8.  Outside adversarial mode, [_get_losses] calls no discriminator:
    the discriminator losses are empty, and the generator losses are the
    configured ones among l1, l2, stft, mel, spectral_l1 and spectral_l2,
    in that order whatever the order of [args.losses]; any other name in
    [args.losses] but ['perceptual'] is ignored. *)
Theorem plain_losses_keys (hr pr : pydict tensor) (L : losses_t) :
  adversarial_mode args = false ->
  _get_losses args hr pr = Ok L ->
  discriminator L = [] /\
  dict_keys (generator L)
  = List.filter (fun k => str_in k (losses args)) plain_loss_names.
Proof.
  intros Hadv Hrun. unfold _get_losses in Hrun.
  apply rbind_ok in Hrun as (hr_time & _ & Hrun).
  apply rbind_ok in Hrun as (pr_time & _ & Hrun).
  rewrite Hadv in Hrun. unfold plain_loss_names. simpl List.filter.
  when_step Hrun; when_step Hrun; when_step Hrun; when_step Hrun;
    when_step Hrun; when_step Hrun; when_step Hrun;
    inversion Hrun; subst; split; reflexivity.
Qed.

Lemma dict_mem_set {V} (k k' : string) (v : V) (d : pydict V) :
  dict_mem k (dict_set k' v d) = String.eqb k k' || dict_mem k d.
Proof.
  unfold dict_mem. destruct (String.eqb_spec k k') as [-> | Hne].
  - now rewrite dict_get_set_eq.
  - now rewrite dict_get_set_ne.
Qed.

(** What the three updates after a variant's loss computation add. *)
Lemma add_split_losses_terms (variant : string)
    (g_adv g_feat : scalar) (d : pynum scalar) (L : losses_t) :
  exists L',
    add_split_losses args variant (split_generator_losses args g_adv g_feat)
      d L = Ok L' /\
    dict_get variant (discriminator L') = Some d /\
    forall k,
      dict_mem k (generator L')
      = dict_mem k (generator L)
        || String.eqb k (adversarial_key variant)
           && negb (only_features_loss (experiment args))
        || String.eqb k (features_key variant)
           && negb (only_adversarial_loss (experiment args)).
Proof.
  unfold add_split_losses, split_generator_losses, adversarial_key,
    features_key.
  destruct (only_features_loss (experiment args));
    destruct (only_adversarial_loss (experiment args)); simpl;
    eexists; (split; [reflexivity|]); simpl;
    (split; [apply dict_get_set_eq|]); intros k;
    rewrite ?dict_mem_set;
    repeat match goal with
           | |- context [String.eqb ?a ?b] => destruct (String.eqb a b)
           end;
    destruct (dict_mem k (generator L)); reflexivity.
Qed.

(** X9.  The msd and the mpd variant return whenever their discriminator
    is among the models, under each of the four settings of the two
    restricting flags: the discriminator loss is always recorded under the
    variant's name, the adversarial term is added to the generator losses
    unless [only_features_loss], and the features term unless
    [only_adversarial_loss].  With both flags set the generator gets no
    term from the variant, and no key is ever missing. *)
Theorem paired_variant_terms (hr pr : tensor) (L : losses_t) :
  (str_in "msd" dmodel_names = true ->
   exists L',
     msd_losses args hr pr L = Ok L' /\
     dict_mem "msd" (discriminator L') = true /\
     forall k,
       dict_mem k (generator L')
       = dict_mem k (generator L)
         || String.eqb k "adversarial_msd"
            && negb (only_features_loss (experiment args))
         || String.eqb k "features_msd"
            && negb (only_adversarial_loss (experiment args))) /\
  (str_in "mpd" dmodel_names = true ->
   exists L',
     mpd_losses args hr pr L = Ok L' /\
     dict_mem "mpd" (discriminator L') = true /\
     forall k,
       dict_mem k (generator L')
       = dict_mem k (generator L)
         || String.eqb k "adversarial_mpd"
            && negb (only_features_loss (experiment args))
         || String.eqb k "features_mpd"
            && negb (only_adversarial_loss (experiment args))).
Proof.
  split; intros Hin.
  - unfold msd_losses, _get_msd_adversarial_loss, get_dmodel.
    rewrite Hin. simpl rbind.
    destruct (add_split_losses_terms "msd"
                (generator_loss
                   (y_hat_g (pair_forward "msd" hr pr)))
                (feature_loss (fmap_r (pair_forward "msd" hr pr))
                   (fmap_g (pair_forward "msd" hr pr)))
                (PyTensor
                   (discriminator_loss
                      (y_hat_r (pair_forward "msd" hr (detach pr)))
                      (y_hat_g (pair_forward "msd" hr (detach pr))))) L)
      as (L' & Hrun & Hd & Hg).
    exists L'. split; [exact Hrun|]. split; [|exact Hg].
    unfold dict_mem. now rewrite Hd.
  - unfold mpd_losses, _get_mpd_adversarial_loss, get_dmodel.
    rewrite Hin. simpl rbind.
    destruct (add_split_losses_terms "mpd"
                (generator_loss
                   (y_hat_g (pair_forward "mpd" hr pr)))
                (feature_loss (fmap_r (pair_forward "mpd" hr pr))
                   (fmap_g (pair_forward "mpd" hr pr)))
                (PyTensor
                   (discriminator_loss
                      (y_hat_r (pair_forward "mpd" hr (detach pr)))
                      (y_hat_g (pair_forward "mpd" hr (detach pr))))) L)
      as (L' & Hrun & Hd & Hg).
    exists L'. split; [exact Hrun|]. split; [|exact Hg].
    unfold dict_mem. now rewrite Hd.
Qed.

End ComposerKeys.

Lemma plain_losses_keys_witness :
  exists L,
    _get_losses (C := SymCollaborators [] [] 0)
      (with_losses toy_args ["spectral_l1"; "mse"; "l1"])
      (sym_reprs Target true) (sym_reprs Prediction true) = Ok L /\
    discriminator L = [] /\
    dict_keys (generator L) = ["l1"; "spectral_l1"].
Proof.
  eexists. split; [vm_compute; reflexivity|].
  exact (plain_losses_keys (C := SymCollaborators [] [] 0)
           (with_losses toy_args ["spectral_l1"; "mse"; "l1"])
           (sym_reprs Target true) (sym_reprs Prediction true) _ eq_refl
           eq_refl).
Defined.

Lemma paired_variant_terms_witness :
  exists L',
    msd_losses (C := SymCollaborators all_dmodels [3; 3]%nat 3)
      (with_only_flags true true all_variants_args) (Input Target "time")
      (Input Prediction "time") {| generator := []; discriminator := [] |}
    = Ok L' /\
    dict_keys (discriminator L') = ["msd"] /\
    generator L' = [].
Proof.
  destruct (proj1 (paired_variant_terms
                     (C := SymCollaborators all_dmodels [3; 3]%nat 3)
                     (with_only_flags true true all_variants_args)
                     (Input Target "time") (Input Prediction "time")
                     {| generator := []; discriminator := [] |}) eq_refl)
    as (L' & Hrun & _ & _).
  exists L'. split; [exact Hrun|].
  vm_compute in Hrun. inversion Hrun; subst. split; reflexivity.
Defined.

(** ** Edges of the epoch loop *)

Section EpochEdges.
Context {T : Torch} {Tr : Trainer T}.
Variable args : args_t.
Variable tr_loader : loader batch.
Variable cv_loader : loader batch.
Variable tt_loader : loader path_batch.
Variable names : list string.
Variable rank : nat.

(** X10.  A pass over a training loader that yields no batch raises
    [UnboundLocalError]: the averages after the loop read the loop index
    [i], which was never bound.  The epoch of [train] fails with it before
    anything is logged, recorded or written. *)
Theorem epoch_on_empty_loader (epoch : nat) (w : live_t) (loc : locals)
    (m : machine) :
  loader_batches tr_loader epoch = Ok [] ->
  _run_one_epoch args tr_loader cv_loader names epoch false w
  = (Raise (UnboundLocalError "i"), w) /\
  train_epoch args tr_loader cv_loader tt_loader names rank epoch loc m
  = (Raise (UnboundLocalError "i"), m).
Proof.
  intros Hb.
  assert (Hrun : forall w,
             _run_one_epoch args tr_loader cv_loader names epoch false w
             = (Raise (UnboundLocalError "i"), w)).
  { intros w0. unfold _run_one_epoch. simpl negb. cbv iota.
    unfold pbind, plift. rewrite Hb. reflexivity. }
  split; [apply Hrun|].
  unfold train_epoch, pbind, in_live. rewrite Hrun.
  destruct m as [mw [ml mh mb] mlog]. reflexivity.
Qed.

Lemma no_known_loss (name : string) :
  forallb (fun k => negb (str_in k (losses args))) known_loss_names = true ->
  In name known_loss_names -> str_in name (losses args) = false.
Proof.
  intros H Hin. rewrite forallb_forall in H. specialize (H name Hin).
  now apply negb_true_iff in H.
Qed.

(** With none of its names configured and no adversarial mode,
    [_get_losses] returns two empty dictionaries. *)
Lemma get_losses_nothing {C : Collaborators T} (hr pr : pydict tensor)
    (hr_time pr_time : tensor) :
  forallb (fun k => negb (str_in k (losses args))) known_loss_names = true ->
  adversarial_mode args = false ->
  dict_get "time" hr = Some hr_time ->
  dict_get "time" pr = Some pr_time ->
  _get_losses args hr pr = Ok {| generator := []; discriminator := [] |}.
Proof.
  intros Hnone Hadv Hhr Hpr. unfold _get_losses, dict_getitem.
  rewrite Hhr, Hpr, Hadv. simpl.
  rewrite !(no_known_loss _ Hnone) by (simpl; tauto). reflexivity.
Qed.

(** X11.  With no loss configured (none of the names [_get_losses] looks
    for, and no adversarial mode), the sum of the generator losses of a
    batch is the integer 0: the training pass fails on its first batch
    with [AttributeError] at [loss.backward()], after the generator
    optimiser's [zero_grad] and before any [step]; the validation pass
    fails on its first batch at [.item()], the parameters untouched. *)
Theorem epoch_without_losses (epoch : nat) (w : live_t)
    (first : batch) (others : list batch) :
  forallb (fun k => negb (str_in k (losses args))) known_loss_names = true ->
  adversarial_mode args = false ->
  (loader_batches tr_loader epoch = Ok (first :: others) ->
   _run_one_epoch args tr_loader cv_loader names epoch false w
   = (Raise (AttributeError "backward"),
      apply_event (ZeroGrad "optimizer") w)) /\
  (loader_batches cv_loader epoch = Ok (first :: others) ->
   _run_one_epoch args tr_loader cv_loader names epoch true w
   = (Raise (AttributeError "item"), w)).
Proof.
  intros Hnone Hadv. split; intros Hb.
  - unfold _run_one_epoch. simpl negb. cbv iota.
    unfold pbind at 1. unfold plift at 1. rewrite Hb.
    unfold pbind at 1. simpl combine.
    cbn [pfor_in]. unfold pbind at 1 2. unfold pget at 1.
    destruct (return_spec (experiment args)).
    + destruct (dmodel_return_spec w (batch_lr first)) as [pr_time pr_spec].
      unfold pbind at 1. unfold plift at 1.
      rewrite (get_losses_nothing
                 [("time", batch_hr first);
                  ("spec", model_spec w (batch_hr first))]
                 [("time", pr_time); ("spec", pr_spec)]
                 (batch_hr first) pr_time Hnone Hadv eq_refl eq_refl).
      reflexivity.
    + unfold pbind at 1. unfold plift at 1.
      rewrite (get_losses_nothing [("time", batch_hr first)]
                 [("time", dmodel w (batch_lr first))] (batch_hr first)
                 (dmodel w (batch_lr first)) Hnone Hadv eq_refl eq_refl).
      reflexivity.
  - unfold _run_one_epoch. simpl negb. cbv iota.
    unfold pbind at 1. unfold plift at 1. rewrite Hb.
    unfold pbind at 1. simpl combine.
    cbn [pfor_in]. unfold pbind at 1 2. unfold pget at 1.
    destruct (return_spec (experiment args)).
    + destruct (dmodel_return_spec w (batch_lr first)) as [pr_time pr_spec].
      unfold pbind at 1. unfold plift at 1.
      rewrite (get_losses_nothing
                 [("time", batch_hr first);
                  ("spec", model_spec w (batch_hr first))]
                 [("time", pr_time); ("spec", pr_spec)]
                 (batch_hr first) pr_time Hnone Hadv eq_refl eq_refl).
      reflexivity.
    + unfold pbind at 1. unfold plift at 1.
      rewrite (get_losses_nothing [("time", batch_hr first)]
                 [("time", dmodel w (batch_lr first))] (batch_hr first)
                 (dmodel w (batch_lr first)) Hnone Hadv eq_refl eq_refl).
      reflexivity.
Qed.

(** X12.  A cadence of zero does not switch a stage off: the tests of
    lines 241 and 280 compute [(epoch + 1) % cadence] first, so with
    [eval_every = 0], or with cross validation on and
    [cross_valid_every = 0], no epoch of [train] ever completes. *)
Theorem zero_cadence_never_completes (epoch : nat) (loc : locals)
    (m : machine) :
  eval_every args = 0%nat \/
  (cross_valid args = true /\ cross_valid_every args = 0%nat) ->
  is_ok (fst (train_epoch args tr_loader cv_loader tt_loader names rank
                epoch loc m)) = false.
Proof.
  intros Hzero.
  destruct (train_epoch args tr_loader cv_loader tt_loader names rank
              epoch loc m) as [[loc'|e] m'] eqn:Hrun; [|reflexivity].
  exfalso. unfold train_epoch in Hrun.
  apply pbind_ok in Hrun as (avg & m1 & _ & Hrun).
  apply pbind_ok in Hrun as (u & m2 & _ & Hrun).
  apply pbind_ok in Hrun as ([[[vl el] etd] loc1] & m3 & Hcv & Hrun).
  apply pbind_ok in Hrun as ([metrics loc2] & m4 & Hev & _).
  destruct Hzero as [He | [Hc Hce]].
  - unfold evaluate_on_test_set in Hev.
    apply pbind_ok in Hev as (gate & m5 & Hgate & _).
    apply plift_ok in Hgate as [Hgate _].
    unfold evaluate_gate, every_or_last in Hgate. rewrite He in Hgate.
    discriminate.
  - unfold cross_validate in Hcv.
    apply pbind_ok in Hcv as (gate & m5 & Hgate & _).
    apply plift_ok in Hgate as [Hgate _].
    unfold cross_valid_gate, every_or_last in Hgate.
    rewrite Hc, Hce in Hgate. discriminate.
Qed.

(** Every completed epoch appends one entry to the history. *)
Lemma epochs_extend_history (es : list nat) :
  forall (loc loc' : locals) (m m' : machine),
    pfor_in es (train_epoch args tr_loader cv_loader tt_loader names rank)
      loc m = (Ok loc', m') ->
    exists added,
      history (m_solver m') = history (m_solver m) ++ added /\
      length added = length es.
Proof.
  induction es as [|e es IH]; intros loc loc' m m' Hrun; simpl in Hrun.
  - apply pret_ok in Hrun as [_ ->]. exists []. now rewrite app_nil_r.
  - apply pbind_ok in Hrun as (loc1 & m1 & Hep & Hrest).
    apply train_epoch_run in Hep
      as (metrics & _ & _ & _ & _ & _ & _ & Hh & _).
    apply IH in Hrest as (added & Hadd & Hlen).
    exists (metrics :: added). split; [|simpl; now rewrite Hlen].
    rewrite Hadd, Hh. now rewrite <- app_assoc.
Qed.

(** X13.  A [train] that returns has appended one entry per epoch it ran
    and touched no earlier entry: the history it leaves is the history it
    started with, followed by [epochs - len(history)] new entries (none if
    the history already had [epochs] entries or more). *)
Theorem train_extends_history (m m' : machine) (loc : locals) :
  train args tr_loader cv_loader tt_loader names rank m = (Ok loc, m') ->
  exists added,
    history (m_solver m') = history (m_solver m) ++ added /\
    length added = (epochs args - length (history (m_solver m)))%nat.
Proof.
  intros Hrun. unfold train in Hrun.
  apply pbind_ok in Hrun as (u & m0 & Hpro & Hrun).
  destruct (train_prologue_run m) as (m0' & Hpro' & Hs0 & _ & _).
  rewrite Hpro' in Hpro. inversion Hpro; subst m0'; clear Hpro.
  apply pbind_ok in Hrun as (s & m1 & Hget & Hrun).
  apply get_solver_run in Hget as [-> ->].
  apply epochs_extend_history in Hrun as (added & Hadd & Hlen).
  exists added. rewrite Hadd, Hs0. simpl. split; [reflexivity|].
  rewrite Hlen. unfold epoch_range. rewrite length_seq. rewrite Hs0.
  reflexivity.
Qed.

(** The replay loop of lines 207-211 logs one line per recorded epoch
    and does nothing else. *)
Lemma replay_run (items : list (nat * metrics_t)) (m : machine) :
  pfor_in items
    (fun (item : nat * metrics_t) (_ : unit) =>
       let '(epoch, metrics) := item in log (LogReplay epoch metrics)) tt m
  = (Ok tt,
     {| m_world := m_world m; m_solver := m_solver m;
        m_log := m_log m
                 ++ map (fun item => LogReplay (fst item) (snd item))
                      items |}).
Proof.
  revert m. induction items as [|[e x] items IH]; intros m.
  - simpl. rewrite app_nil_r. destruct m. reflexivity.
  - cbn [pfor_in]. unfold pbind at 1. unfold log at 1, pmodify.
    rewrite IH. simpl. now rewrite <- app_assoc.
Qed.

(** X14.  When the history already has [epochs] entries or more, [train]
    replays the history in the log and runs no epoch: it returns, writes
    no file, leaves the history and the parameters as they were, and has
    emptied [best_states]. *)
Theorem train_on_finished_history (m : machine) :
  (epochs args <= length (history (m_solver m)))%nat ->
  train args tr_loader cv_loader tt_loader names rank m
  = (Ok initial_locals,
     {| m_world := m_world m;
        m_solver := set_best_states (m_solver m) (Some []);
        m_log := m_log m
                 ++ map (fun item => LogReplay (fst item) (snd item))
                      (combine (seq 0 (length (history (m_solver m))))
                         (history (m_solver m))) |}).
Proof.
  intros Hdone. unfold train, train_prologue.
  unfold pbind at 1 2 3. unfold get_solver at 1.
  rewrite replay_run. unfold put_solver, pmodify. simpl.
  unfold pbind, get_solver. simpl. unfold epoch_range. simpl.
  replace (epochs args - length (history (m_solver m)))%nat with 0%nat
    by lia.
  reflexivity.
Qed.

End EpochEdges.

Lemma epoch_on_empty_loader_witness :
  _run_one_epoch toy_args empty_tr_loader toy_cv_loader [] 0 false toy_live
  = (Raise (UnboundLocalError "i"), toy_live) /\
  train_epoch toy_args empty_tr_loader toy_cv_loader None [] 0 0
    initial_locals toy_machine
  = (Raise (UnboundLocalError "i"), toy_machine).
Proof.
  exact (epoch_on_empty_loader toy_args empty_tr_loader toy_cv_loader None
           [] 0 0%nat toy_live initial_locals toy_machine eq_refl).
Defined.

Lemma epoch_without_losses_witness :
  _run_one_epoch lossless_args toy_tr_loader toy_cv_loader [] 0 false toy_live
  = (Raise (AttributeError "backward"), toy_live) /\
  _run_one_epoch lossless_args toy_tr_loader toy_cv_loader [] 0 true toy_live
  = (Raise (AttributeError "item"), toy_live).
Proof.
  destruct (epoch_without_losses lossless_args toy_tr_loader toy_cv_loader
              [] 0%nat toy_live ([0%Q; 0%Q], [0%Q; 0%Q]) []
              eq_refl eq_refl) as [Htrain Hvalid].
  split.
  - destruct (epoch_without_losses lossless_args toy_tr_loader toy_cv_loader
                [] 0%nat toy_live ([1%Q; 1%Q], [0%Q; 0%Q]) []
                eq_refl eq_refl) as [Ht _].
    exact (Ht eq_refl).
  - exact (Hvalid eq_refl).
Defined.

Lemma zero_cadence_never_completes_witness :
  fst (train_epoch (with_cadence toy_args 0 1) toy_tr_loader toy_cv_loader
         None [] 0 0 initial_locals toy_machine)
  = Raise ZeroDivisionError /\
  is_ok (fst (train_epoch (with_cadence toy_args 0 1) toy_tr_loader
                toy_cv_loader None [] 0 0 initial_locals toy_machine))
  = false.
Proof.
  split; [vm_compute; reflexivity|].
  exact (zero_cadence_never_completes (with_cadence toy_args 0 1)
           toy_tr_loader toy_cv_loader None [] 0 0%nat initial_locals
           toy_machine (or_introl eq_refl)).
Defined.

Lemma train_extends_history_witness :
  is_ok (fst toy_train_run) = true /\
  exists added,
    history (m_solver (snd toy_train_run))
    = history (m_solver toy_machine) ++ added /\
    length added = 3%nat.
Proof.
  split; [vm_compute; reflexivity|].
  destruct (fst toy_train_run) as [loc|e] eqn:Hrun.
  - apply (train_extends_history toy_args toy_tr_loader toy_cv_loader None
             [] 0 toy_machine (snd toy_train_run) loc).
    rewrite <- Hrun. unfold toy_train_run.
    now destruct (train toy_args toy_tr_loader toy_cv_loader None [] 0
                    toy_machine).
  - vm_compute in Hrun. discriminate Hrun.
Defined.

Lemma train_on_finished_history_witness :
  train toy_args toy_tr_loader toy_cv_loader None [] 0 finished_machine
  = (Ok initial_locals,
     {| m_world := empty_world;
        m_solver :=
          {| live := toy_live;
             history := history (m_solver finished_machine);
             best_states := Some [] |};
        m_log := [LogReplay 0 [("total_loss", 3%Q)];
                  LogReplay 1 [("total_loss", 2%Q)];
                  LogReplay 2 [("total_loss", 1%Q)]] |}).
Proof.
  exact (train_on_finished_history toy_args toy_tr_loader toy_cv_loader None
           [] 0 finished_machine (le_n 3)).
Defined.

(** ** Dictionaries built and overwritten entry by entry *)

Lemma dict_set_fresh {V} (k : string) (v : V) (d : pydict V) :
  dict_get k d = None -> dict_set k v d = d ++ [(k, v)].
Proof.
  induction d as [|[k' v'] d IH]; simpl; [reflexivity|].
  destruct (String.eqb k k'); [discriminate|].
  intros H. now rewrite IH.
Qed.

Lemma dict_set_same {V} (k : string) (v : V) (d : pydict V) :
  dict_get k d = Some v -> dict_set k v d = d.
Proof.
  induction d as [|[k' v'] d IH]; simpl; [discriminate|].
  destruct (String.eqb k k') eqn:E.
  - intros H. inversion H; subst. apply String.eqb_eq in E. now subst.
  - intros H. now rewrite IH.
Qed.

Lemma dict_get_app_none {V} (k : string) (d e : pydict V) :
  dict_get k d = None -> dict_get k (d ++ e) = dict_get k e.
Proof.
  induction d as [|[k' v'] d IH]; simpl; [reflexivity|].
  destruct (String.eqb k k'); [discriminate | exact IH].
Qed.

(** Filling an empty dictionary from the items of a dictionary proper
    gives the items, in order. *)
Lemma fold_set_map {V W} (g : V -> W) (f : pydict W -> string * V -> pydict W)
    (d : pydict V) (acc : pydict W) :
  (forall acc k v, f acc (k, v) = dict_set k (g v) acc) ->
  dict_wf d ->
  (forall k, In k (dict_keys d) -> dict_get k acc = None) ->
  fold_left f d acc = acc ++ map (fun item => (fst item, g (snd item))) d.
Proof.
  intros Hf. revert acc. induction d as [|[k v] d IH]; intros acc Hwf Hacc.
  - simpl. now rewrite app_nil_r.
  - simpl. inversion Hwf as [|? ? Hnot Hwf']; subst.
    rewrite Hf, dict_set_fresh by (apply Hacc; now left).
    rewrite IH; [now rewrite <- app_assoc | exact Hwf' |].
    intros k' Hk'. rewrite dict_get_app_none by (apply Hacc; now right).
    simpl. destruct (String.eqb_spec k' k) as [-> | Hne]; [|reflexivity].
    exfalso. apply Hnot. now apply list_elem_of_In.
Qed.

Lemma dict_get_map {V W} (g : V -> W) (k : string) (d : pydict V) :
  dict_get k (map (fun item => (fst item, g (snd item))) d)
  = option_map g (dict_get k d).
Proof.
  induction d as [|[k' v'] d IH]; simpl; [reflexivity|].
  destruct (String.eqb k k'); [reflexivity | exact IH].
Qed.

Lemma dict_keys_map {V W} (g : string -> V -> W) (d : pydict V) :
  dict_keys (map (fun item => (fst item, g (fst item) (snd item))) d)
  = dict_keys d.
Proof.
  unfold dict_keys. rewrite map_map. apply map_ext. reflexivity.
Qed.

Lemma dict_mem_set_member {V} (k k' : string) (v : V) (d : pydict V) :
  dict_mem k' d = true -> dict_mem k (dict_set k' v d) = dict_mem k d.
Proof.
  intros Hmem. rewrite dict_mem_set.
  destruct (String.eqb_spec k k') as [-> | Hne]; [now rewrite Hmem|].
  reflexivity.
Qed.

(** Overwriting the entry of [k] and then giving every entry named in
    [saved] its saved value is giving every entry named in
    [(k, s) :: saved] its saved value, when [saved] does not name [k]. *)
Lemma overwrite_step {V S} (g : S -> V -> V) (k : string) (s : S)
    (saved : pydict S) (d : pydict V) (old : V) :
  dict_get k saved = None ->
  dict_wf d ->
  dict_get k d = Some old ->
  map (fun item =>
         (fst item,
          match dict_get (fst item) saved with
          | Some s' => g s' (snd item)
          | None => snd item
          end)) (dict_set k (g s old) d)
  = map (fun item =>
           (fst item,
            match dict_get (fst item) ((k, s) :: saved) with
            | Some s' => g s' (snd item)
            | None => snd item
            end)) d.
Proof.
  intros Hk. induction d as [|[k' v'] d IH]; intros Hwf Hget; simpl in *.
  - discriminate.
  - inversion Hwf as [|? ? Hnot Hwf']; subst.
    destruct (String.eqb k k') eqn:E.
    + apply String.eqb_eq in E. subst k'. inversion Hget; subst.
      simpl. rewrite Hk, String.eqb_refl. f_equal.
      apply map_ext_in. intros [k2 v2] Hin. simpl.
      destruct (String.eqb_spec k2 k) as [-> | Hne]; [|reflexivity].
      exfalso. apply Hnot. apply list_elem_of_In.
      apply (List.in_map fst) in Hin. exact Hin.
    + simpl. rewrite String.eqb_sym, E. f_equal. now apply IH.
Qed.

Lemma map_pair_id {V} (d : pydict V) :
  map (fun item => (fst item, snd item)) d = d.
Proof.
  induction d as [|[k v] d IH]; simpl; [reflexivity | now rewrite IH].
Qed.

Lemma find_ext_in {A} (p q : A -> bool) (l : list A) :
  (forall x, In x l -> p x = q x) -> List.find p l = List.find q l.
Proof.
  induction l as [|x l IH]; intros H; simpl; [reflexivity|].
  rewrite (H x) by now left. destruct (q x); [reflexivity|].
  apply IH. intros y Hy. apply H. now right.
Qed.

Lemma first_missing_set {V W} (saved : pydict V) (have : pydict W)
    (k : string) (v : W) :
  dict_mem k have = true ->
  first_missing saved (dict_set k v have) = first_missing saved have.
Proof.
  intros Hmem. unfold first_missing.
  rewrite (find_ext_in _ (fun item => negb (dict_mem (fst item) have)));
    [reflexivity|].
  intros x _. now rewrite dict_mem_set_member.
Qed.

(** ** Loading a checkpoint in full *)

(** The loop of lines 172-173. *)
Lemma load_models_loop (saved : pydict model_package) (w : live_t) :
  dict_wf saved -> dict_wf (models w) ->
  for_in saved (fun item w =>
                  let '(name, model_package) := item in
                  load_model_state name (mp_state model_package) w) w
  = match first_missing saved (models w) with
    | Some name => Raise (KeyError name)
    | None =>
        Ok {| models :=
                restore_models
                  (map (fun item => (fst item, mp_state (snd item))) saved)
                  (models w);
              optimizers := optimizers w |}
    end.
Proof.
  revert w. induction saved as [|[k mp] saved IH]; intros w Hs Hw.
  - simpl. unfold restore_models. simpl. rewrite map_pair_id.
    now destruct w.
  - inversion Hs as [|? ? Hnot Hs']; subst.
    cbn [for_in]. unfold load_model_state at 1, dict_getitem.
    unfold first_missing. simpl List.find. unfold dict_mem at 1.
    destruct (dict_get k (models w)) as [m|] eqn:Hget; simpl;
      [|reflexivity].
    rewrite IH; [|exact Hs'|now apply dict_set_wf]. simpl models.
    rewrite first_missing_set by (unfold dict_mem; now rewrite Hget).
    unfold first_missing at 1.
    destruct (List.find _ saved) as [item|]; [reflexivity|].
    simpl optimizers. f_equal. f_equal. unfold restore_models.
    apply (overwrite_step (fun st m => with_state m st) k (mp_state mp)
             (map (fun item => (fst item, mp_state (snd item))) saved)
             (models w) m); [|exact Hw|exact Hget].
    rewrite dict_get_map.
    destruct (dict_get k saved) eqn:E; [|reflexivity].
    exfalso. apply Hnot. apply list_elem_of_In.
    assert (Hsome : dict_get k saved <> None) by congruence.
    destruct (in_dec string_dec k (dict_keys saved)) as [Hin | Hout];
      [exact Hin|].
    apply dict_get_none_keys in Hout. congruence.
Qed.

(** Loading an optimiser state changes no model. *)
Lemma load_optimizer_state_models (name : string) (o : opt_entry)
    (w w' : live_t) :
  load_optimizer_state name o w = Ok w' -> models w' = models w.
Proof.
  unfold load_optimizer_state. intros H.
  apply rbind_ok in H as (old & _ & H).
  destruct old, o; inversion H; reflexivity.
Qed.

Lemma load_group_optimizer_state_models (name : string) (st : state_dict)
    (w w' : live_t) :
  load_group_optimizer_state name st w = Ok w' -> models w' = models w.
Proof.
  unfold load_group_optimizer_state. intros H.
  apply rbind_ok in H as (d & _ & H). destruct d; [discriminate|].
  apply rbind_ok in H as (old & _ & H). inversion H; reflexivity.
Qed.

(** X15.  A full load gives every model that the checkpoint names the
    parameters saved for it and leaves the class of each model and the
    models that the checkpoint does not name as they are; it raises
    [KeyError] for the first model of the checkpoint that the solver does
    not have, and the optimiser states it loads afterwards change no
    model. *)
Theorem load_full_restores_models (args : args_t) (package : package_t)
    (w : live_t) :
  dict_wf (pkg_models package) -> dict_wf (models w) ->
  match first_missing (pkg_models package) (models w) with
  | Some name => _load args package false w = Raise (KeyError name)
  | None =>
      forall w', _load args package false w = Ok w' ->
                 models w' = restore_models (package_states package)
                               (models w)
  end.
Proof.
  intros Hp Hw. unfold _load.
  rewrite (load_models_loop (pkg_models package) w Hp Hw).
  destruct (first_missing (pkg_models package) (models w)) as [name|];
    [reflexivity|].
  intros w' H. simpl rbind in H. fold (package_states package) in H.
  set (w1 := {| models := restore_models (package_states package) (models w);
                optimizers := optimizers w |}) in H.
  change (restore_models (package_states package) (models w))
    with (models w1).
  destruct (multiple_discriminators_mode args
            && negb (joint_disc_optimizers_mode args)).
  - apply rbind_ok in H as (o & _ & H).
    apply rbind_ok in H as (w2 & H2 & H).
    apply rbind_ok in H as (d & _ & H).
    apply rbind_ok in H as (group & _ & H).
    apply load_optimizer_state_models in H2. rewrite <- H2.
    apply (for_in_ind (fun _ w0 => models w0 = models w2)) with (done := [])
      in H; [exact H| |reflexivity].
    intros done [name st] w3 w4 H3 Hstep.
    apply load_group_optimizer_state_models in Hstep. congruence.
  - apply (for_in_ind (fun _ w0 => models w0 = models w1)) with (done := [])
      in H; [exact H| |reflexivity].
    intros done [name o] w3 w4 H3 Hstep.
    apply load_optimizer_state_models in Hstep. congruence.
Qed.

(** ** A checkpoint read back *)

Lemma serialize_models_map (s : solver_t) :
  dict_wf (models (live s)) ->
  _serialize_models s
  = map (fun item => (fst item, serialize_model (snd item)))
      (models (live s)).
Proof.
  intros Hwf. unfold _serialize_models.
  rewrite (fold_set_map serialize_model); [reflexivity| |exact Hwf|].
  - intros acc k v. reflexivity.
  - reflexivity.
Qed.

(** [_serialize_optimizers] with one optimiser per entry returns the
    optimisers as they are. *)
Lemma serialize_optimizers_flat (args : args_t) (s : solver_t)
    (so : pydict opt_entry) :
  separate_optimizers args = false ->
  dict_wf (optimizers (live s)) ->
  _serialize_optimizers args s = Ok so ->
  so = optimizers (live s) /\ flat_optimizers (optimizers (live s)) = true.
Proof.
  unfold separate_optimizers, _serialize_optimizers. intros -> Hwf.
  assert (H : forall (d acc : pydict opt_entry),
             dict_wf d ->
             (forall k, In k (dict_keys d) -> dict_get k acc = None) ->
             for_in d (fun item serialized_optimizers =>
                         let '(name, optimizer) := item in
                         let? st := opt_state_dict optimizer in
                         Ok (dict_set name (Optimizer st)
                               serialized_optimizers)) acc = Ok so ->
             so = acc ++ d /\ flat_optimizers d = true).
  { clear. induction d as [|[k o] d IH]; intros acc Hwf Hacc Hrun.
    - simpl in Hrun. inversion Hrun; subst. now rewrite app_nil_r.
    - inversion Hwf as [|? ? Hnot Hwf']; subst.
      simpl in Hrun. apply rbind_ok in Hrun as (acc1 & Hstep & Hrun).
      apply rbind_ok in Hstep as (st & Hst & Hstep).
      destruct o as [st'|g]; [|discriminate]. simpl in Hst.
      inversion Hst; subst st'. inversion Hstep; subst acc1.
      rewrite dict_set_fresh in Hrun by (apply Hacc; now left).
      apply IH in Hrun as [-> Hflat]; [|exact Hwf'|].
      + split; [now rewrite <- app_assoc | exact Hflat].
      + intros k' Hk'. rewrite dict_get_app_none by (apply Hacc; now right).
        simpl. destruct (String.eqb_spec k' k) as [-> | Hne]; [|reflexivity].
        exfalso. apply Hnot. now apply list_elem_of_In. }
  intros Hrun. apply (H _ [] Hwf) in Hrun; [exact Hrun | reflexivity].
Qed.

(** The loop of lines 180-181 on a checkpoint with one optimiser per
    entry, when the solver has an optimiser under every name. *)
Lemma load_optimizers_loop (saved : pydict opt_entry) (w : live_t) :
  dict_wf saved -> dict_wf (optimizers w) ->
  flat_optimizers saved = true ->
  (forall k, In k (dict_keys saved) ->
             exists st, dict_get k (optimizers w) = Some (Optimizer st)) ->
  for_in saved (fun item w =>
                  let '(name, opt_package) := item in
                  load_optimizer_state name opt_package w) w
  = Ok {| models := models w;
          optimizers := restore_optimizers saved (optimizers w) |}.
Proof.
  revert w. induction saved as [|[k o] saved IH];
    intros w Hs Hw Hflat Hhave.
  - simpl. unfold restore_optimizers. simpl. rewrite map_pair_id.
    now destruct w.
  - inversion Hs as [|? ? Hnot Hs']; subst.
    simpl in Hflat. destruct o as [st|g]; [|discriminate].
    destruct (Hhave k (or_introl eq_refl)) as [old Hold].
    cbn [for_in]. unfold load_optimizer_state at 1, dict_getitem.
    rewrite Hold. simpl rbind.
    assert (Hk : dict_get k saved = None).
    { apply dict_get_none_keys. intros Hin. apply Hnot.
      now apply list_elem_of_In. }
    rewrite IH; [|exact Hs'|now apply dict_set_wf|exact Hflat|].
    + simpl. f_equal. f_equal. unfold restore_optimizers.
      apply (overwrite_step (fun (s : opt_entry) (_ : opt_entry) => s) k
               (Optimizer st) saved (optimizers w) (Optimizer old) Hk Hw
               Hold).
    + intros k' Hk'. simpl.
      destruct (String.eqb_spec k' k) as [-> | Hne].
      * exfalso. apply dict_get_none_keys in Hk. contradiction.
      * rewrite dict_get_set_ne by exact Hne. apply Hhave. now right.
Qed.

(** Giving every model the parameters of the model of the same name
    gives the other models, when the two have the same structure. *)
Lemma restore_models_all (a c : pydict model_t) :
  dict_wf c -> same_models a c ->
  restore_models (map (fun item => (fst item, model_state (snd item))) c) a
  = c.
Proof.
  unfold same_models, restore_models. revert c.
  induction a as [|[k ma] a IH]; intros [|[k' mc] c] Hwf Hsame;
    simpl in Hsame; try discriminate; [reflexivity|].
  inversion Hsame as [[Hk Hclass Hrest]]; subst k'.
  inversion Hwf as [|? ? Hnot Hwf']; subst.
  simpl. rewrite String.eqb_refl. f_equal.
  - f_equal. destruct mc as [cls st]. simpl in *. unfold with_state.
    simpl. now rewrite Hclass.
  - etransitivity; [|exact (IH c Hwf' Hrest)]. apply map_ext_in.
    intros [k2 m2] Hin. simpl.
    destruct (String.eqb_spec k2 k) as [-> | Hne]; [|reflexivity].
    exfalso. apply Hnot. apply list_elem_of_In.
    apply (List.in_map (fun item => fst item)) in Hin. simpl in Hin.
    assert (Hkeys : map fst a = map fst c).
    { apply (f_equal (map fst)) in Hrest. rewrite !map_map in Hrest.
      exact Hrest. }
    unfold dict_keys. rewrite <- Hkeys. exact Hin.
Qed.

Lemma restore_optimizers_all (a c : pydict opt_entry) :
  dict_wf c -> dict_keys a = dict_keys c -> restore_optimizers c a = c.
Proof.
  unfold restore_optimizers, dict_keys. revert c.
  induction a as [|[k oa] a IH]; intros [|[k' oc] c] Hwf Hkeys;
    simpl in Hkeys; try discriminate; [reflexivity|].
  inversion Hkeys as [[Hk Hrest]]; subst k'.
  inversion Hwf as [|? ? Hnot Hwf']; subst.
  simpl. rewrite String.eqb_refl. f_equal.
  etransitivity; [|exact (IH c Hwf' Hrest)]. apply map_ext_in.
  intros [k2 o2] Hin. simpl.
  destruct (String.eqb_spec k2 k) as [-> | Hne]; [|reflexivity].
  exfalso. apply Hnot. apply list_elem_of_In.
  apply (List.in_map fst) in Hin. simpl in Hin.
  unfold dict_keys. rewrite <- Hrest. exact Hin.
Qed.

Lemma same_models_keys (a c : pydict model_t) :
  same_models a c -> dict_keys a = dict_keys c.
Proof.
  unfold same_models, dict_keys. intros H.
  apply (f_equal (map fst)) in H. now rewrite !map_map in H.
Qed.

Lemma dict_mem_keys {V} (k : string) (d : pydict V) :
  dict_mem k d = true <-> In k (dict_keys d).
Proof.
  unfold dict_mem. destruct (dict_get k d) eqn:E.
  - split; [|reflexivity]. intros _.
    destruct (in_dec string_dec k (dict_keys d)) as [Hin | Hout];
      [exact Hin|].
    apply dict_get_none_keys in Hout. congruence.
  - split; [discriminate|]. intros Hin.
    apply dict_get_none_keys in E. contradiction.
Qed.

Lemma first_missing_none {V W} (saved : pydict V) (have : pydict W) :
  (forall k, In k (dict_keys saved) -> In k (dict_keys have)) ->
  first_missing saved have = None.
Proof.
  intros H. unfold first_missing.
  destruct (List.find _ saved) as [item|] eqn:E; [|reflexivity].
  apply find_some in E as [Hin Hneg].
  apply negb_true_iff in Hneg.
  assert (Hmem : dict_mem (fst item) have = true).
  { apply dict_mem_keys. apply H. now apply (List.in_map fst). }
  congruence.
Qed.

(** A full load of the checkpoint of [s] into a solver of the same
    structure gives the models and optimisers of [s]. *)
Lemma load_own_package (args : args_t) (s : solver_t) (package : package_t)
    (w0 : live_t) :
  separate_optimizers args = false ->
  dict_wf (models (live s)) -> dict_wf (optimizers (live s)) ->
  same_structure w0 (live s) ->
  make_package args s = Ok package ->
  _load args package false w0 = Ok (live s).
Proof.
  intros Hflat Hwm Hwo (Hsm & Hso & Hf0) Hpkg.
  unfold make_package in Hpkg.
  apply rbind_ok in Hpkg as (so & Hser & Hpkg).
  inversion Hpkg; subst package; clear Hpkg.
  apply serialize_optimizers_flat in Hser as [-> Hfs]; [|exact Hflat|exact Hwo].
  pose proof (same_models_keys _ _ Hsm) as Hkeys.
  assert (Hw0m : dict_wf (models w0)) by (unfold dict_wf; now rewrite Hkeys).
  assert (Hw0o : dict_wf (optimizers w0)) by (unfold dict_wf; now rewrite Hso).
  unfold _load. simpl pkg_models. simpl pkg_optimizers.
  rewrite (serialize_models_map s Hwm).
  rewrite load_models_loop; [|unfold dict_wf; now rewrite dict_keys_map with
                                (g := fun _ m => serialize_model m)|exact Hw0m].
  rewrite first_missing_none.
  2:{ intros k Hk.
      rewrite (dict_keys_map (fun _ m => serialize_model m)) in Hk.
      now rewrite Hkeys. }
  simpl rbind. unfold separate_optimizers in Hflat. rewrite Hflat.
  rewrite map_map. simpl. unfold copy_state.
  rewrite (restore_models_all (models w0) (models (live s)) Hwm Hsm).
  rewrite load_optimizers_loop; simpl; [| exact Hwo | exact Hw0o | exact Hfs |].
  - rewrite (restore_optimizers_all _ _ Hwo Hso). now destruct (live s).
  - intros k Hk. rewrite <- Hso in Hk.
    apply dict_mem_keys in Hk. unfold dict_mem in Hk.
    destruct (dict_get k (optimizers w0)) as [o|] eqn:E; [|discriminate].
    unfold flat_optimizers in Hf0. rewrite forallb_forall in Hf0.
    assert (Hin : In (k, o) (optimizers w0)).
    { clear - E. induction (optimizers w0) as [|[k' v'] d IH]; simpl in *;
        [discriminate|].
      destruct (String.eqb k k') eqn:Ek.
      - apply String.eqb_eq in Ek. subst. inversion E; subst. now left.
      - right. now apply IH. }
    specialize (Hf0 _ Hin). simpl in Hf0.
    destruct o as [st|g]; [eauto | discriminate].
Qed.

(** After a [_serialize] that returned, the canonical path holds the
    package of the solver. *)
Lemma serialize_ok_checkpoint (args : args_t) (s : solver_t) (w w1 : world) :
  paths_separate args (best_names s) = true ->
  _serialize args s w = (Ok tt, w1) ->
  exists package,
    make_package args s = Ok package /\
    files w1 !! checkpoint_file args
    = Some (TorchFile (PackagePayload package)).
Proof.
  intros Hsep Hrun.
  pose proof (paths_separate_spec args (best_names s) Hsep) as Hpaths.
  unfold _serialize in Hrun.
  apply pbind_ok in Hrun as (package & st1 & Hpkg & Hrun).
  apply plift_ok in Hpkg as [Hpkg ->].
  exists package. split; [exact Hpkg|].
  apply pbind_ok in Hrun as (u & w2 & Hck & Hrun).
  apply save_then_rename_run in Hck as (_ & Hcanon & _);
    [|apply not_eq_sym, tmp_path_differs].
  destruct Hcanon as [[_ Hnew] | [[e He] _]]; [|discriminate].
  apply pbind_ok in Hrun as (best & w3 & Hb & Hrun).
  apply plift_ok in Hb as [Hb ->].
  assert (Hbest : best_states s = Some best).
  { unfold make_package in Hpkg.
    apply rbind_ok in Hpkg as (so & _ & Hpkg). inversion Hpkg; subst.
    simpl in Hb. destruct (best_states s); [now inversion Hb|discriminate]. }
  apply pbind_ok in Hrun as (ms & w4 & Hloop & Hrun).
  apply pret_ok in Hrun as [_ ->].
  revert Hloop.
  apply (pfor_in_state_inv_in
           (fun st => files st !! checkpoint_file args
                      = Some (TorchFile (PackagePayload package))));
    [|exact Hnew].
  intros [name bs] ms0 st r0 st' Hin Hck Hbody.
  assert (Hname : In name (best_names s)).
  { unfold best_names. rewrite Hbest. now apply (List.in_map fst) in Hin. }
  destruct (Hpaths name Hname) as (H1 & H2 & _ & _).
  unfold serialize_best_model in Hbody.
  apply pbind_run in Hbody as [(e & Hs & ->) | (ms1 & st1 & Hs & Hbody)].
  { unfold plift in Hs. inversion Hs; subst. exact Hck. }
  apply plift_ok in Hs as [_ ->].
  apply pbind_run in Hbody as [(e & Hg & ->) | (m & st2 & Hg & Hbody)].
  { unfold plift in Hg. inversion Hg; subst. exact Hck. }
  apply plift_ok in Hg as [_ ->].
  assert (Hsave : exists r1,
             save_then_rename (ModelPayload m) (best_tmp args name)
               (best_path args name) st = (r1, st')).
  { apply pbind_run in Hbody as [(e & Hsv & ->) | (u1 & st3 & Hsv & Hbody)].
    - exists (Raise e). exact Hsv.
    - unfold pret in Hbody. inversion Hbody; subst.
      exists (Ok u1). exact Hsv. }
  destruct Hsave as [r1 Hsave].
  apply save_then_rename_run in Hsave as (Hoth & _ & _);
    [|apply not_eq_sym, tmp_path_differs].
  rewrite Hoth by assumption. exact Hck.
Qed.

(** X16.  A checkpoint read back.  With one optimiser per entry, when
    [_serialize] has returned for a solver, constructing a solver of the
    same structure (the same model names and classes, the same optimiser
    names, whatever their states) on the files it left, with checkpointing
    on and no restart, gives the saved solver back: the parameters of
    every model, the state of every optimiser, the history and the best
    states. *)
Theorem checkpoint_round_trip (args : args_t) (s : solver_t) (w w1 : world)
    (w0 : live_t) :
  checkpoint args = true ->
  restart args = false ->
  separate_optimizers args = false ->
  paths_separate args (best_names s) = true ->
  dict_wf (models (live s)) ->
  dict_wf (optimizers (live s)) ->
  same_structure w0 (live s) ->
  _serialize args s w = (Ok tt, w1) ->
  solver_init args w0 w1
  = (Ok {| live := live s; history := history s;
           best_states := best_states s |}, w1).
Proof.
  intros Hck Hre Hflat Hsep Hwm Hwo Hsame Hrun.
  destruct (serialize_ok_checkpoint args s w w1 Hsep Hrun)
    as (package & Hpkg & Hfile).
  pose proof (load_own_package args s package w0 Hflat Hwm Hwo Hsame Hpkg)
    as Hload.
  unfold solver_init, _reset, _reset_choice, pbind, pget, path_exists.
  rewrite Hck, Hre, Hfile. simpl.
  unfold torch_load, pbind, pget. rewrite Hfile. simpl.
  unfold plift. simpl live. rewrite Hload. simpl.
  unfold make_package in Hpkg.
  apply rbind_ok in Hpkg as (so & _ & Hpkg). inversion Hpkg; subst.
  reflexivity.
Qed.

Lemma checkpoint_round_trip_witness :
  _serialize toy_args trained_solver empty_world = (Ok tt, trained_world) /\
  solver_init toy_args fresh_toy_live trained_world
  = (Ok trained_solver, trained_world).
Proof.
  assert (Hrun : _serialize toy_args trained_solver empty_world
                 = (Ok tt, trained_world)).
  { unfold trained_world.
    destruct (_serialize toy_args trained_solver empty_world) as [r w1]
      eqn:E.
    assert (Hr : r = Ok tt).
    { change r with (fst (r, w1)). rewrite <- E. vm_compute. reflexivity. }
    now rewrite Hr. }
  split; [exact Hrun|].
  apply (checkpoint_round_trip toy_args trained_solver empty_world
           trained_world fresh_toy_live);
    first [ exact Hrun
          | reflexivity
          | solve [repeat constructor; intros H; inversion H]
          | solve [repeat split] ].
Defined.

Lemma load_full_restores_models_witness :
  (exists package,
      make_package toy_args trained_solver = Ok package /\
      forall w',
        _load toy_args package false fresh_toy_live = Ok w' ->
        models w' = models toy_live) /\
  _load toy_args
    {| pkg_models := [("discriminator",
                       {| mp_class := "Disc"; mp_state := [] |})];
       pkg_optimizers := []; pkg_history := []; pkg_best_states := None;
       pkg_args := toy_args |} false fresh_toy_live
  = Raise (KeyError "discriminator").
Proof.
  split.
  - eexists. split; [vm_compute; reflexivity|].
    match goal with
    | |- forall w', _load _ ?p _ _ = _ -> _ =>
        refine (load_full_restores_models toy_args p fresh_toy_live _ _)
    end; solve [repeat constructor; intros H; inversion H].
  - refine (load_full_restores_models toy_args
              {| pkg_models := [("discriminator",
                                 {| mp_class := "Disc"; mp_state := [] |})];
                 pkg_optimizers := []; pkg_history := [];
                 pkg_best_states := None; pkg_args := toy_args |}
              fresh_toy_live _ _);
      solve [repeat constructor; intros H; inversion H].
Defined.

(** ** The source that [_reset] loads from *)

(** X17.  [_reset] follows the precedence of the specification's
    [resume_policy]: with checkpointing on, the canonical file present and
    no restart, what it returns was loaded in full from the canonical
    file, history included; otherwise, with a continue-from path given,
    what it returns was loaded from that file with
    [load_best = continue_best], and the history was taken from the file
    exactly when [keep_history]; otherwise it returns the solver as it
    is.  In the first two cases the best states are those of the file.
    However it ends, [_reset] changes no file. *)
Theorem reset_precedence (args : args_t) (s : solver_t) (w : world) :
  match resume_policy
          (checkpoint args && path_exists w (checkpoint_file args))
          (given_path (continue_from args)) (restart args) with
  | ResumeCanonical =>
      forall s' w',
        _reset args s w = (Ok s', w') ->
        exists package,
          files w !! checkpoint_file args
          = Some (TorchFile (PackagePayload package)) /\
          _load args package false (live s) = Ok (live s') /\
          history s' = pkg_history package /\
          best_states s' = pkg_best_states package
  | ResumeExternal path =>
      path = continue_from args /\
      forall s' w',
        _reset args s w = (Ok s', w') ->
        exists package,
          files w !! path = Some (TorchFile (PackagePayload package)) /\
          _load args package (continue_best args) (live s) = Ok (live s') /\
          history s' = (if keep_history args then pkg_history package
                        else history s) /\
          best_states s' = pkg_best_states package
  | FreshStart => _reset args s w = (Ok s, w)
  end /\
  (forall r w', _reset args s w = (r, w') -> w' = w).
Proof.
  assert (Hload : forall (src : load_source) (load_best keep : bool)
                         (r : result solver_t) (w' : world),
             (do! content := torch_load (source_path src) in
              do! package :=
                plift (as_package content
                         (if load_best then SERIALIZE_KEY_BEST_STATES
                          else SERIALIZE_KEY_MODELS)) in
              do! l := plift (_load args package load_best (live s)) in
              let s := set_live s l in
              let s :=
                if keep then set_history s (pkg_history package) else s in
              let s := set_best_states s (pkg_best_states package) in
              pret s) w = (r, w') ->
             w' = w /\
             forall s', r = Ok s' ->
               exists package,
                 files w !! source_path src
                 = Some (TorchFile (PackagePayload package)) /\
                 _load args package load_best (live s) = Ok (live s') /\
                 history s' = (if keep then pkg_history package
                               else history s) /\
                 best_states s' = pkg_best_states package).
  { intros src load_best keep r w' H.
    unfold torch_load, pbind, pget in H.
    destruct (files w !! source_path src) as [[[p|mp]|h|]|] eqn:Ef;
      simpl in H; try (inversion H; subst; split; [reflexivity|];
                       intros s' Hs; discriminate).
    - unfold plift in H.
      destruct (_load args p load_best (live s)) as [l|e] eqn:El;
        simpl in H; inversion H; subst; split; try reflexivity.
      + intros s' Hs. inversion Hs; subst. exists p.
        split; [reflexivity|].
        destruct keep; simpl; rewrite El; auto.
      + intros s' Hs. discriminate. }
  assert (Hchoice : _reset args s w
                    = let '(load_from, load_best, keep) :=
                        _reset_choice args w in
                      match load_from with
                      | Some src =>
                          if truthy_load_from load_from then
                            (do! content := torch_load (source_path src) in
                             do! package :=
                               plift (as_package content
                                        (if load_best
                                         then SERIALIZE_KEY_BEST_STATES
                                         else SERIALIZE_KEY_MODELS)) in
                             do! l := plift (_load args package load_best
                                               (live s)) in
                             let s := set_live s l in
                             let s :=
                               if keep
                               then set_history s (pkg_history package)
                               else s in
                             let s :=
                               set_best_states s (pkg_best_states package) in
                             pret s) w
                          else (Ok s, w)
                      | None => (Ok s, w)
                      end).
  { unfold _reset. unfold pbind at 1. unfold pget at 1.
    destruct (_reset_choice args w) as [[[src|] lb] kh]; [|reflexivity].
    destruct (truthy_load_from (Some src)); reflexivity. }
  rewrite Hchoice. clear Hchoice.
  unfold resume_policy, given_path, _reset_choice.
  destruct (checkpoint args && path_exists w (checkpoint_file args)
            && negb (restart args)) eqn:E1.
  - cbn [truthy_load_from]. cbv iota. split.
    + intros s' w' H.
      apply (Hload (FromCheckpoint (checkpoint_file args)) false true)
        in H as [_ H].
      destruct (H s' eq_refl) as (package & Hf & Hl & Hh & Hb).
      exists package. auto.
    + intros r w' H.
      now apply (Hload (FromCheckpoint (checkpoint_file args)) false true)
        in H as [-> _].
  - destruct (continue_from args) as [|c cf] eqn:E2.
    + simpl. split; [reflexivity|]. intros r w' H. now inversion H.
    + cbn [truthy_load_from truthy_str]. cbv iota. split.
      * split; [reflexivity|]. intros s' w' H.
        apply (Hload (FromContinue (String c cf)) (continue_best args)
                 (keep_history args)) in H as [_ H].
        destruct (H s' eq_refl) as (package & Hf & Hl & Hh & Hb).
        exists package. auto.
      * intros r w' H.
        now apply (Hload (FromContinue (String c cf)) (continue_best args)
                     (keep_history args)) in H as [-> _].
Qed.

Lemma reset_precedence_witness :
  resume_policy
    (checkpoint toy_args && path_exists trained_world (checkpoint_file toy_args))
    (given_path (continue_from toy_args)) (restart toy_args)
  = ResumeCanonical /\
  (exists package,
      files trained_world !! checkpoint_file toy_args
      = Some (TorchFile (PackagePayload package)) /\
      pkg_history package = history trained_solver) /\
  _reset toy_args toy_solver empty_world = (Ok toy_solver, empty_world).
Proof.
  split; [vm_compute; reflexivity|]. split.
  - assert (H : forall s' w',
               _reset toy_args
                 {| live := fresh_toy_live; history := [];
                    best_states := None |} trained_world = (Ok s', w') ->
               exists package,
                 files trained_world !! checkpoint_file toy_args
                 = Some (TorchFile (PackagePayload package)) /\
                 _load toy_args package false fresh_toy_live = Ok (live s') /\
                 history s' = pkg_history package /\
                 best_states s' = pkg_best_states package)
      by exact (proj1 (reset_precedence toy_args
                         {| live := fresh_toy_live; history := [];
                            best_states := None |} trained_world)).
    destruct (H trained_solver trained_world) as (package & Hf & _ & Hh & _).
    + vm_compute. reflexivity.
    + exists package. split; [exact Hf | now rewrite <- Hh].
  - exact (proj1 (reset_precedence toy_args toy_solver empty_world)).
Defined.
